(** * GitAuto: the GitHub trust-and-mutation layer

    A shallow embedding of [services/github/github_manager.py]: webhook
    signature verification, branch-head resolution with the empty-repository
    bootstrap, the read-patch-write content mutation (single file and batch),
    remote file reading, and the failure reporter.

    Python values are modelled as they are at run time: a [str] is its list of
    code points, [bytes] a list of bytes, parsed JSON and objects are the
    dynamically typed [value], exceptions are the [exn] record.  Effects are
    threaded through an explicit [world]: the replies the network will give,
    and the trace of everything the program did to the outside. *)

From Stdlib Require Import List ZArith NArith Bool String Ascii Lia.
From Stdlib Require Import Strings.Byte DecimalString.
Import ListNotations.

Set Implicit Arguments.
Set Warnings "-register-all".

(* ================================================================== *)
(** * Python strings and bytes *)
(* ================================================================== *)

(** A Python [str] is a sequence of Unicode code points. *)
Definition str := list N.

(** A Python [bytes] object. *)
Definition bytes := list byte.

(** A string literal of the source (ASCII). *)
Definition lit (s : string) : str :=
  map N_of_ascii (list_ascii_of_string s).

Fixpoint str_eqb (a b : str) : bool :=
  match a, b with
  | [], [] => true
  | x :: a', y :: b' => N.eqb x y && str_eqb a' b'
  | _, _ => false
  end.

Fixpoint startswith (s prefix : str) : bool :=
  match prefix, s with
  | [], _ => true
  | p :: prefix', c :: s' => N.eqb p c && startswith s' prefix'
  | _ :: _, [] => false
  end.

(** [s.endswith(suffix)] *)
Definition endswith (s suffix : str) : bool :=
  startswith (rev s) (rev suffix).

Fixpoint find_from (s sub : str) (i : Z) : Z :=
  if startswith s sub then i
  else match s with
       | [] => (-1)%Z
       | _ :: s' => find_from s' sub (i + 1)%Z
       end.

(** [s.find(sub)]: the lowest index where [sub] occurs, or -1. *)
Definition str_find (s sub : str) : Z := find_from s sub 0%Z.

(** [PyUnicode_IS_ASCII] *)
Definition is_ascii (s : str) : bool := forallb (fun c => N.ltb c 128) s.

(** [bytes.decode("latin-1")]: one code point per byte. *)
Definition latin1_decode (bs : bytes) : str := map Byte.to_N bs.

Definition ascii_lower (a : ascii) : ascii :=
  let n := nat_of_ascii a in
  if (Nat.leb 65 n && Nat.leb n 90)%bool then ascii_of_nat (n + 32) else a.

Fixpoint lower (s : string) : string :=
  match s with
  | EmptyString => EmptyString
  | String a s' => String (ascii_lower a) (lower s')
  end.

(** Lookup in an association list, first binding wins. *)
Fixpoint assoc {K V : Type} (eqb : K -> K -> bool) (k : K) (kvs : list (K * V))
  : option V :=
  match kvs with
  | [] => None
  | (k', v) :: rest => if eqb k k' then Some v else assoc eqb k rest
  end.

(* ================================================================== *)
(** * Dynamically typed values, responses and exceptions *)
(* ================================================================== *)

(** What a Python variable of this module can hold: the data that
    [response.json()] produces, and class instances.  For an instance,
    [http_error] says whether its class is [requests.exceptions.HTTPError]
    (or a subclass), [attrs] are its data attributes and [items] is the
    mapping behind [__getitem__] when its class defines one. *)
Inductive value : Type :=
| VNone
| VBool (b : bool)
| VInt (n : Z)
| VStr (s : str)
| VList (xs : list value)
| VDict (kvs : list (str * value))
| VObj (http_error : bool) (attrs : list (string * value))
       (items : option (list (str * value))).

(** A [requests.Response]: [json] is the parsed body, [None] when the body is
    not JSON and [response.json()] raises. *)
Record response : Type := {
  status_code : Z;
  text : str;
  json : option value
}.

Inductive exc_class : Type :=
| HTTPError | ConnectionError | Timeout | JSONDecodeError
| KeyError | IndexError | TypeError | AttributeError | ValueError
| RuntimeError | RecursionError
| UnicodeDecodeError | UnicodeEncodeError | BinasciiError
| OtherError (name : string).

(** An exception instance.  [exn_response] is the [response] attribute that
    the exceptions of [requests] carry. *)
Record exn : Type := {
  exn_class : exc_class;
  exn_message : str;
  exn_response : option response
}.

Definition error (c : exc_class) (msg : string) : exn :=
  {| exn_class := c; exn_message := lit msg; exn_response := None |}.

(** The error that [Response.raise_for_status] builds. *)
Definition http_error (r : response) : exn :=
  {| exn_class := HTTPError; exn_message := lit "HTTP Error";
     exn_response := Some r |}.

Definition is_http_error (e : exn) : bool :=
  match exn_class e with HTTPError => true | _ => false end.

Definition is_requests_exception (c : exc_class) : bool :=
  match c with
  | HTTPError | ConnectionError | Timeout => true
  | _ => false
  end.

Definition value_of_response (r : response) : value :=
  VObj false
       [("status_code"%string, VInt (status_code r));
        ("text"%string, VStr (text r))]
       None.

(** An exception seen as a plain object, the way it reaches a parameter
    annotated [Any].  No exception class of this program defines
    [__getitem__], [message] or [errors]. *)
Definition value_of_exn (e : exn) : value :=
  VObj (is_http_error e)
       (("args"%string, VList [VStr (exn_message e)]) ::
        (if is_requests_exception (exn_class e)
         then [("response"%string,
                match exn_response e with
                | Some r => value_of_response r
                | None => VNone
                end)]
         else []))
       None.

Inductive result (A : Type) : Type :=
| Ok (a : A)
| Raise (e : exn).
Arguments Ok {A} a.
Arguments Raise {A} e.

Definition result_map {A B} (f : A -> B) (r : result A) : result B :=
  match r with
  | Ok a => Ok (f a)
  | Raise e => Raise e
  end.

(* ------------------------------------------------------------------ *)
(** ** Dynamic operations *)

(** [bool(v)] *)
Definition truthy (v : value) : bool :=
  match v with
  | VNone => false
  | VBool b => b
  | VInt n => negb (Z.eqb n 0)
  | VStr s => match s with [] => false | _ => true end
  | VList xs => match xs with [] => false | _ => true end
  | VDict kvs => match kvs with [] => false | _ => true end
  | VObj _ _ _ => true
  end.

(** [v.name], for the data attributes this module reads ([response],
    [status_code], [text], [message], [errors]): none of the builtin types has
    one of them. *)
Definition getattr (v : value) (name : string) : result value :=
  match v with
  | VObj _ attrs _ =>
      match assoc String.eqb name attrs with
      | Some x => Ok x
      | None => Raise (error AttributeError name)
      end
  | _ => Raise (error AttributeError name)
  end.

(** [hasattr(v, name)] *)
Definition hasattr (v : value) (name : string) : bool :=
  match getattr v name with Ok _ => true | Raise _ => false end.

(** [isinstance(v, list)] *)
Definition isinstance_list (v : value) : bool :=
  match v with VList _ => true | _ => false end.

(** [isinstance(v, requests.exceptions.HTTPError)] *)
Definition isinstance_HTTPError (v : value) : bool :=
  match v with VObj true _ _ => true | _ => false end.

Definition index_of (v : value) : option Z :=
  match v with
  | VInt i => Some i
  | VBool b => Some (if b then 1 else 0)%Z
  | _ => None
  end.

(** [xs[i]] on a sequence, negative indices counting from the end. *)
Definition seq_item {A} (xs : list A) (i : Z) : option A :=
  let n := Z.of_nat (List.length xs) in
  let j := if (i <? 0)%Z then (i + n)%Z else i in
  if (j <? 0)%Z then None else nth_error xs (Z.to_nat j).

(** [v[k]] *)
Definition getitem (v k : value) : result value :=
  match v with
  | VDict kvs =>
      match k with
      | VStr key =>
          match assoc str_eqb key kvs with
          | Some x => Ok x
          | None => Raise (error KeyError "key")
          end
      | VList _ | VDict _ => Raise (error TypeError "unhashable type")
      | _ => Raise (error KeyError "key")
      end
  | VList xs =>
      match index_of k with
      | Some i =>
          match seq_item xs i with
          | Some x => Ok x
          | None => Raise (error IndexError "list index out of range")
          end
      | None => Raise (error TypeError "list indices must be integers")
      end
  | VStr s =>
      match index_of k with
      | Some i =>
          match seq_item s i with
          | Some c => Ok (VStr [c])
          | None => Raise (error IndexError "string index out of range")
          end
      | None => Raise (error TypeError "string indices must be integers")
      end
  | VObj _ _ (Some items) =>
      match k with
      | VStr key =>
          match assoc str_eqb key items with
          | Some x => Ok x
          | None => Raise (error KeyError "key")
          end
      | _ => Raise (error KeyError "key")
      end
  | VObj _ _ None => Raise (error TypeError "object is not subscriptable")
  | VNone | VBool _ | VInt _ =>
      Raise (error TypeError "object is not subscriptable")
  end.

(** [v == s] for a string literal [s]. *)
Definition eq_str (v : value) (s : str) : bool :=
  match v with VStr t => str_eqb t s | _ => false end.

(** [v.find(sub)]: a method of [str]; any other value has no callable
    [find]. *)
Definition call_find (v : value) (sub : str) : result Z :=
  match v with
  | VStr s => Ok (str_find s sub)
  | VObj _ attrs _ =>
      match assoc String.eqb "find"%string attrs with
      | Some _ => Raise (error TypeError "object is not callable")
      | None => Raise (error AttributeError "find")
      end
  | _ => Raise (error AttributeError "find")
  end.

(** [response.json()] *)
Definition response_json (r : response) : result value :=
  match json r with
  | Some v => Ok v
  | None => Raise (error JSONDecodeError "Expecting value")
  end.

(** [response.raise_for_status()]: raises for a 4xx or 5xx status. *)
Definition raise_for_status (r : response) : result unit :=
  if ((400 <=? status_code r) && (status_code r <? 600))%Z
  then Raise (http_error r)
  else Ok tt.

(* ================================================================== *)
(** * The codecs of the standard library *)
(* ================================================================== *)

(** ** UTF-8 *)

(** The [errors] argument of [bytes.decode]. *)
Inductive error_policy : Type := Strict | Replace.

Definition is_continuation (c : N) : bool :=
  (N.leb 128 c && N.ltb c 192)%bool.

(** The second byte of a three-byte sequence: no overlong form after 0xE0, no
    surrogate after 0xED. *)
Definition second_of_three (c0 c1 : N) : bool :=
  (is_continuation c1
   && negb (N.eqb c0 224 && N.ltb c1 160)
   && negb (N.eqb c0 237 && N.leb 160 c1))%bool.

(** The second byte of a four-byte sequence: no overlong form after 0xF0,
    nothing above U+10FFFF after 0xF4. *)
Definition second_of_four (c0 c1 : N) : bool :=
  (is_continuation c1
   && negb (N.eqb c0 240 && N.ltb c1 144)
   && negb (N.eqb c0 244 && N.leb 144 c1))%bool.

(** What the decoder does with an undecodable span: raise, or emit U+FFFD and
    go on with [k], the decoding of what follows the span. *)
Definition on_undecodable (errors : error_policy) (k : result str)
  : result str :=
  match errors with
  | Strict => Raise (error UnicodeDecodeError "invalid utf-8")
  | Replace => result_map (cons 65533%N) k
  end.

(** [bs.decode(encoding="utf-8", errors=...)], as CPython decodes: an invalid
    start byte is a span of one byte, a sequence broken after n valid bytes is
    a span of n bytes, a sequence cut by the end of the input is one span. *)
Fixpoint utf8_decode (errors : error_policy) (bs : bytes) : result str :=
  match bs with
  | [] => Ok []
  | b0 :: r0 =>
      let c0 := Byte.to_N b0 in
      if N.ltb c0 128 then result_map (cons c0) (utf8_decode errors r0)
      else if (N.ltb c0 194 || N.leb 245 c0)%bool then
        on_undecodable errors (utf8_decode errors r0)
      else
        match r0 with
        | [] => on_undecodable errors (Ok [])
        | b1 :: r1 =>
            let c1 := Byte.to_N b1 in
            if N.ltb c0 224 then
              if is_continuation c1
              then result_map (cons ((c0 - 192) * 64 + (c1 - 128))%N)
                              (utf8_decode errors r1)
              else on_undecodable errors (utf8_decode errors r0)
            else if N.ltb c0 240 then
              if second_of_three c0 c1 then
                match r1 with
                | [] => on_undecodable errors (Ok [])
                | b2 :: r2 =>
                    let c2 := Byte.to_N b2 in
                    if is_continuation c2
                    then result_map
                           (cons ((c0 - 224) * 4096 + (c1 - 128) * 64
                                  + (c2 - 128))%N)
                           (utf8_decode errors r2)
                    else on_undecodable errors (utf8_decode errors r1)
                end
              else on_undecodable errors (utf8_decode errors r0)
            else
              if second_of_four c0 c1 then
                match r1 with
                | [] => on_undecodable errors (Ok [])
                | b2 :: r2 =>
                    let c2 := Byte.to_N b2 in
                    if is_continuation c2 then
                      match r2 with
                      | [] => on_undecodable errors (Ok [])
                      | b3 :: r3 =>
                          let c3 := Byte.to_N b3 in
                          if is_continuation c3
                          then result_map
                                 (cons ((c0 - 240) * 262144 + (c1 - 128) * 4096
                                        + (c2 - 128) * 64 + (c3 - 128))%N)
                                 (utf8_decode errors r3)
                          else on_undecodable errors (utf8_decode errors r2)
                      end
                    else on_undecodable errors (utf8_decode errors r1)
                end
              else on_undecodable errors (utf8_decode errors r0)
        end
  end.

Definition byte_of_N (n : N) : byte :=
  match Byte.of_N n with Some b => b | None => x00 end.

(** The UTF-8 form of one code point; [None] for a surrogate, which the strict
    encoder refuses. *)
Definition utf8_encode_char (c : N) : option bytes :=
  if N.ltb c 128 then Some [byte_of_N c]
  else if N.ltb c 2048 then
    Some [byte_of_N (192 + c / 64); byte_of_N (128 + c mod 64)]
  else if (N.leb 55296 c && N.leb c 57343)%bool then None
  else if N.ltb c 65536 then
    Some [byte_of_N (224 + c / 4096); byte_of_N (128 + (c / 64) mod 64);
          byte_of_N (128 + c mod 64)]
  else if N.leb c 1114111 then
    Some [byte_of_N (240 + c / 262144); byte_of_N (128 + (c / 4096) mod 64);
          byte_of_N (128 + (c / 64) mod 64); byte_of_N (128 + c mod 64)]
  else None.

(** [s.encode(encoding="utf-8")] *)
Fixpoint utf8_encode (s : str) : result bytes :=
  match s with
  | [] => Ok []
  | c :: s' =>
      match utf8_encode_char c with
      | None => Raise (error UnicodeEncodeError "surrogates not allowed")
      | Some bs => result_map (app bs) (utf8_encode s')
      end
  end.

(** ** Base64 *)

Definition b64_char (n : N) : N :=
  if N.ltb n 26 then 65 + n
  else if N.ltb n 52 then 97 + (n - 26)
  else if N.ltb n 62 then 48 + (n - 52)
  else if N.eqb n 62 then 43
  else 47.

Definition b64_value (c : N) : option N :=
  if (N.leb 65 c && N.leb c 90)%bool then Some (c - 65)%N
  else if (N.leb 97 c && N.leb c 122)%bool then Some (c - 97 + 26)%N
  else if (N.leb 48 c && N.leb c 57)%bool then Some (c - 48 + 52)%N
  else if N.eqb c 43 then Some 62%N
  else if N.eqb c 47 then Some 63%N
  else None.

(** [base64.b64encode(bs).decode("utf-8")]: the output is ASCII. *)
Fixpoint b64encode (bs : bytes) : str :=
  match bs with
  | [] => []
  | [a] =>
      let a := Byte.to_N a in
      [b64_char (a / 4); b64_char ((a mod 4) * 16); 61; 61]
  | [a; b] =>
      let a := Byte.to_N a in
      let b := Byte.to_N b in
      [b64_char (a / 4); b64_char ((a mod 4) * 16 + b / 16);
       b64_char ((b mod 16) * 4); 61]
  | a :: b :: c :: rest =>
      let a := Byte.to_N a in
      let b := Byte.to_N b in
      let c := Byte.to_N c in
      b64_char (a / 4) :: b64_char ((a mod 4) * 16 + b / 16)
        :: b64_char ((b mod 16) * 4 + c / 64) :: b64_char (c mod 64)
        :: b64encode rest
  end%N.

(** [binascii.a2b_base64] without [strict_mode]: characters outside the
    alphabet are skipped, a complete pad sequence ends the input, and a
    dangling quad is an error. *)
Fixpoint a2b_base64 (cs : str) (quad_pos : nat) (leftchar : N) (pads : nat)
         (out : bytes) : result bytes :=
  match cs with
  | [] =>
      match quad_pos with
      | O => Ok (rev out)
      | 1%nat => Raise (error BinasciiError "Invalid base64-encoded string")
      | _ => Raise (error BinasciiError "Incorrect padding")
      end
  | c :: rest =>
      if N.eqb c 61 then
        if Nat.leb 2 quad_pos then
          if Nat.leb 4 (quad_pos + S pads) then Ok (rev out)
          else a2b_base64 rest quad_pos leftchar (S pads) out
        else a2b_base64 rest quad_pos leftchar pads out
      else
        match b64_value c with
        | None => a2b_base64 rest quad_pos leftchar pads out
        | Some v =>
            match quad_pos with
            | O => a2b_base64 rest 1 v 0 out
            | 1%nat =>
                a2b_base64 rest 2 (v mod 16) 0
                           (byte_of_N (leftchar * 4 + v / 16) :: out)
            | 2%nat =>
                a2b_base64 rest 3 (v mod 4) 0
                           (byte_of_N (leftchar * 16 + v / 4) :: out)
            | _ =>
                a2b_base64 rest 0 0 0 (byte_of_N (leftchar * 64 + v) :: out)
            end
        end
  end%N.

(** [base64.b64decode(s=v)] for what a JSON field can hold: a [str] must be
    ASCII, anything else is not bytes-like. *)
Definition b64decode (v : value) : result bytes :=
  match v with
  | VStr s =>
      if is_ascii s then a2b_base64 s 0 0 0 []
      else Raise (error ValueError
                        "string argument should contain only ASCII characters")
  | _ => Raise (error TypeError "argument should be a bytes-like object")
  end.

(** ** Hex digests and their comparison *)

Definition hex_digit (n : N) : N :=
  if N.ltb n 10 then (48 + n)%N else (97 + (n - 10))%N.

(** [bytes.hex()]: two lowercase digits per byte. *)
Fixpoint hex (bs : bytes) : str :=
  match bs with
  | [] => []
  | b :: rest =>
      hex_digit (Byte.to_N b / 16) :: hex_digit (Byte.to_N b mod 16) :: hex rest
  end.

(** [hmac.compare_digest(a, b)] on two [str]: both must be ASCII, otherwise it
    raises [TypeError]; the comparison itself is equality. *)
Definition compare_digest (a b : str) : result bool :=
  if (is_ascii a && is_ascii b)%bool then Ok (str_eqb a b)
  else Raise (error TypeError
                    "comparing strings with non-ASCII characters is not supported").

(* ================================================================== *)
(** * The outside world *)
(* ================================================================== *)

Inductive http_method : Type := GET | POST | PUT | PATCH.

Inductive log_level : Type := INFO | ERROR.

(** What the program does to the outside, in the order it does it. *)
Inductive event : Type :=
| EHttp (method : http_method) (url : str) (headers : list (str * str))
        (payload : option value)
| ELog (level : log_level) (fmt : str) (args : list value)
| EPrint (parts : list value)
| EMakedirs (path : str)
| EWriteFile (path : str) (content : str)
| ECommand (command cwd : str).

(** What the network gives back for one request: a response, or an exception
    raised by the HTTP client itself. *)
Inductive reply : Type :=
| Responds (r : response)
| Fails (e : exn).

(** The world a call runs in.  [pending] holds the replies to the coming
    requests, in order; [command_failures] says, for each coming shell
    command, whether it fails and how; [directories] are the paths that
    exist; [trace] is what was done so far. *)
Record world : Type := {
  pending : list reply;
  command_failures : list (option exn);
  directories : list str;
  trace : list event
}.

Definition record (ev : event) (w : world) : world :=
  {| pending := pending w; command_failures := command_failures w;
     directories := directories w; trace := trace w ++ [ev] |}.

Definition with_pending (p : list reply) (w : world) : world :=
  {| pending := p; command_failures := command_failures w;
     directories := directories w; trace := trace w |}.

Definition with_command_failures (c : list (option exn)) (w : world) : world :=
  {| pending := pending w; command_failures := c;
     directories := directories w; trace := trace w |}.

Definition with_directory (d : str) (w : world) : world :=
  {| pending := pending w; command_failures := command_failures w;
     directories := d :: directories w; trace := trace w |}.

(** ** Computations: state passing with exceptions *)

Definition M (A : Type) : Type := world -> result A * world.

Definition ret {A} (a : A) : M A := fun w => (Ok a, w).

Definition raise {A} (e : exn) : M A := fun w => (Raise e, w).

Definition lift {A} (r : result A) : M A := fun w => (r, w).

Definition bind {A B} (m : M A) (k : A -> M B) : M B :=
  fun w =>
    match m w with
    | (Ok a, w') => k a w'
    | (Raise e, w') => (Raise e, w')
    end.

(** [try: body except ... as e: handler e].  An exception raised by the
    handler itself leaves the statement: no other clause of the same [try]
    sees it. *)
Definition try_except {A} (body : M A) (handler : exn -> M A) : M A :=
  fun w =>
    match body w with
    | (Ok a, w') => (Ok a, w')
    | (Raise e, w') => handler e w'
    end.

Definition emit (ev : event) : M unit := fun w => (Ok tt, record ev w).

Definition rbind {A B} (r : result A) (k : A -> result B) : result B :=
  match r with
  | Ok a => k a
  | Raise e => Raise e
  end.

Notation "x <- m ;; k" := (bind m (fun x => k))
  (at level 61, m at next level, right associativity).
Notation "m ;; k" := (bind m (fun _ => k))
  (at level 61, right associativity).
Notation "'let*' x ':=' r 'in' k" := (rbind r (fun x => k))
  (at level 10, x name, r at level 100, k at level 200).

(** ** The HTTP client *)

(** One request of [requests] / [safe_requests]: it is recorded, and the next
    pending reply answers it.  With nothing pending the connection fails. *)
Definition http_request (method : http_method) (url : str)
           (headers : list (str * str)) (payload : option value) : M response :=
  fun w =>
    let w1 := record (EHttp method url headers payload) w in
    match pending w1 with
    | [] => (Raise (error ConnectionError "connection failed"), w1)
    | Responds r :: rest => (Ok r, with_pending rest w1)
    | Fails e :: rest => (Raise e, with_pending rest w1)
    end.

(** ** The file system and the shell *)

(** [os.path.exists(p)]: the empty path never exists. *)
Definition path_exists (p : str) : M bool :=
  fun w =>
    (Ok (match p with
         | [] => false
         | _ :: _ => existsb (str_eqb p) (directories w)
         end),
     w).

(** [os.makedirs(p)]: raises [FileNotFoundError] for the empty path and
    [FileExistsError] for a directory that is there already. *)
Definition makedirs (p : str) : M unit :=
  fun w =>
    match p with
    | [] =>
        (Raise (error (OtherError "FileNotFoundError")
                      "No such file or directory"),
         w)
    | _ :: _ =>
        if existsb (str_eqb p) (directories w)
        then (Raise (error (OtherError "FileExistsError") "File exists"), w)
        else (Ok tt, with_directory p (record (EMakedirs p) w))
    end.

(** [os.path.join(a, b)] for a relative [b]. *)
Definition path_join (a b : str) : str :=
  match a with
  | [] => b
  | _ => if endswith a (lit "/") then a ++ b else a ++ lit "/" ++ b
  end.

(** [with open(os.path.join(directory, name), "w") as f: f.write(content)]:
    the file is written in a directory that exists, the empty path standing
    for the current one; in a directory that does not exist [open] raises
    [FileNotFoundError]. *)
Definition write_file (directory name content : str) : M unit :=
  fun w =>
    if match directory with
       | [] => true
       | _ :: _ => existsb (str_eqb directory) (directories w)
       end
    then (Ok tt, record (EWriteFile (path_join directory name) content) w)
    else (Raise (error (OtherError "FileNotFoundError")
                       "No such file or directory"),
          w).

(** Modelled from the spec: [utils.file_manager.run_command] is not among the
    sources.  It runs one shell command in [cwd] (the local git side-channel:
    shell-level init, add, commit, remote add, push against a scratch working
    directory); the command is recorded and fails when the world says so. *)
Definition run_command (command cwd : str) : M unit :=
  fun w =>
    let w1 := record (ECommand command cwd) w in
    match command_failures w1 with
    | [] => (Ok tt, w1)
    | None :: rest => (Ok tt, with_command_failures rest w1)
    | Some e :: rest => (Raise e, with_command_failures rest w1)
    end.

(** Modelled from the spec: the decorator [utils.handle_exceptions] is not
    among the sources.  From its two keyword arguments at every use: an
    exception of the decorated function is logged, and then either raised
    again ([raise_on_error=True]) or replaced by [default_return_value]. *)
Definition handle_exceptions {A} (default_return_value : A)
           (raise_on_error : bool) (f : M A) : M A :=
  try_except f
    (fun e =>
       emit (ELog ERROR (lit "handle_exceptions: %s") [value_of_exn e]) ;;
       if raise_on_error then raise e else ret default_return_value).

(** ** Traces *)

Definition is_request (m : http_method) (ev : event) : bool :=
  match ev, m with
  | EHttp GET _ _ _, GET => true
  | EHttp POST _ _ _, POST => true
  | EHttp PUT _ _ _, PUT => true
  | EHttp PATCH _ _ _, PATCH => true
  | _, _ => false
  end.

(** The requests of one method in a trace. *)
Definition requests_of (m : http_method) (t : list event) : list event :=
  filter (is_request m) t.

(** [d.get(key)]: a method of [dict]. *)
Definition dict_get (d : value) (key : str) : result value :=
  match d with
  | VDict kvs =>
      match assoc str_eqb key kvs with
      | Some x => Ok x
      | None => Ok VNone
      end
  | _ => Raise (error AttributeError "get")
  end.

(* ================================================================== *)
(** * services/github/github_manager.py *)
(* ================================================================== *)

(** The constants imported from [config] and [utils.text_copy]. *)
Record Config : Type := {
  GITHUB_API_URL : str;
  GITHUB_API_VERSION : str;
  PRODUCT_NAME : str;
  PRODUCT_URL : str;
  UPDATE_COMMENT_FOR_RAISED_ERRORS_BODY : str;
  UPDATE_COMMENT_FOR_RAISED_ERRORS_NO_CHANGES_MADE : str
}.

(** A [fastapi.Request]: the raw header pairs (names in lower case, as the
    server hands them over) and the raw body. *)
Record Request : Type := {
  raw_headers : list (string * bytes);
  raw_body : bytes
}.

(** [request.headers.get(name)]: names compare without case, values are
    decoded as latin-1. *)
Definition headers_get (request : Request) (name : string) : option str :=
  option_map latin1_decode (assoc String.eqb (lower name) (raw_headers request)).

Section GithubManager.

Variable cfg : Config.

(** The collaborators that are imported from modules outside the sources:
    [utils.file_manager.apply_patch], [utils.file_manager.extract_file_name],
    [services.openai.vision.describe_image], and the HMAC-SHA256 of
    [hmac]/[hashlib] (key first, then message).  [describe_image] asks the
    vision API, so it is a computation in the world like the functions of
    this module: it may send requests, consume replies and raise. *)
Variable apply_patch : str -> str -> result str.
Variable extract_file_name : str -> result str.
Variable describe_image : value -> M value.
Variable hmac_sha256 : bytes -> bytes -> bytes.

(** The number of calls that a running function may still nest in itself
    before the interpreter refuses the next one with [RecursionError]:
    [sys.getrecursionlimit()], 1000 unless it was changed, less the frames
    that are in use. *)
Variable recursion_limit : nat.

Definition create_headers (token : str) : list (str * str) :=
  [(lit "Accept", lit "application/vnd.github.v3+json");
   (lit "Authorization", lit "Bearer " ++ token);
   (lit "X-GitHub-Api-Version", GITHUB_API_VERSION cfg)].

(** ** Failure reporter *)

Definition update_comment (comment_url body token : str) : M value :=
  handle_exceptions VNone false
    (response <- http_request PATCH comment_url (create_headers token)
                              (Some (VDict [(lit "body", VStr body)])) ;;
     lift (raise_for_status response) ;;
     lift (response_json response)).

Definition eq_int (v : value) (n : Z) : bool :=
  match v with
  | VInt m => Z.eqb m n
  | VBool b => Z.eqb (if b then 1 else 0) n
  | _ => false
  end.

(** [hasattr(x, "message") and x.message.find("No commits between main and") != -1] *)
Definition message_has_no_commits (x : value) : result bool :=
  if hasattr x "message" then
    let* m := getattr x "message" in
    let* i := call_find m (lit "No commits between main and") in
    Ok (negb (Z.eqb i (-1)))
  else Ok false.

(** The condition of the [if] at lines 607-627, evaluated left to right
    with the short circuits of [and] and [or]. *)
Definition is_no_commits_validation (err : value) : result bool :=
  let* resp := getattr err "response" in
  let* status := getattr resp "status_code" in
  if negb (eq_int status 422) then Ok false else
  let* m := getitem err (VStr (lit "message")) in
  if negb (truthy m) then Ok false else
  let* message := getattr err "message" in
  if negb (eq_str message (lit "Validation Failed")) then Ok false else
  let* errors := getattr err "errors" in
  let* first := getitem errors (VInt 0) in
  let* nested :=
    (if isinstance_list first then
       let* inner := getitem first (VInt 0) in
       message_has_no_commits inner
     else Ok false) in
  if nested then Ok true else
  if negb (isinstance_list first) then message_has_no_commits first
  else Ok false.

(** The body of the [try] at lines 600-637: what is logged, and the comment
    body it leaves in [body]. *)
Definition classify_raised_error (err : value) (which_function : str)
  : M str :=
  if isinstance_HTTPError err then
    resp <- lift (getattr err "response") ;;
    status <- lift (getattr resp "status_code") ;;
    txt <- lift (getattr resp "text") ;;
    emit (ELog ERROR (lit "%s HTTP Error: %s - %s")
               [VStr which_function; status; txt]) ;;
    no_commits <- lift (is_no_commits_validation err) ;;
    if no_commits then ret (UPDATE_COMMENT_FOR_RAISED_ERRORS_NO_CHANGES_MADE cfg)
    else
      emit (ELog ERROR (lit "%s HTTP Error: %s - %s")
                 [VStr which_function; status; txt]) ;;
      ret (UPDATE_COMMENT_FOR_RAISED_ERRORS_BODY cfg)
  else
    emit (ELog ERROR (lit "%s Error: %s") [VStr which_function; err]) ;;
    ret (UPDATE_COMMENT_FOR_RAISED_ERRORS_BODY cfg).

Definition update_comment_for_raised_errors (err : value)
           (comment_url token which_function : str) : M value :=
  body <- try_except
            (classify_raised_error err which_function)
            (fun e =>
               emit (ELog ERROR (lit "%s Error: %s")
                          [VStr which_function; value_of_exn e]) ;;
               ret (UPDATE_COMMENT_FOR_RAISED_ERRORS_BODY cfg)) ;;
  update_comment comment_url body token ;;
  raise (error RuntimeError "Error occurred").

(** ** Ref resolver and bootstrapper *)

Definition initialize_repo (repo_path remote_url : str) : M unit :=
  there <- path_exists repo_path ;;
  (if negb there then makedirs repo_path else ret tt) ;;
  run_command (lit "git init") repo_path ;;
  write_file repo_path (lit "README.md")
             (lit "# Initial commit by [" ++ PRODUCT_NAME cfg ++ lit "]("
                  ++ PRODUCT_URL cfg ++ lit ")" ++ [10%N]) ;;
  run_command (lit "git add README.md") repo_path ;;
  run_command (lit "git commit -m " ++ [34%N] ++ lit "Initial commit" ++ [34%N])
              repo_path ;;
  run_command (lit "git remote add origin " ++ remote_url) repo_path ;;
  run_command (lit "git push -u origin main") repo_path.

Definition ref_url (owner repo branch : str) : str :=
  GITHUB_API_URL cfg ++ lit "/repos/" ++ owner ++ lit "/" ++ repo
                 ++ lit "/git/ref/heads/" ++ branch.

(** The condition of the [if] at lines 425-428. *)
Definition repository_is_empty (e : exn) : result bool :=
  match exn_response e with
  | None => Raise (error AttributeError "status_code")
  | Some r =>
      if Z.eqb (status_code r) 409 then
        let* body := response_json r in
        let* message := getitem body (VStr (lit "message")) in
        Ok (eq_str message (lit "Git Repository is empty."))
      else Ok false
  end.

(** The body of the [try] at lines 417-423. *)
Definition request_branch_sha (owner repo branch token : str) : M value :=
  response <- http_request GET (ref_url owner repo branch)
                           (create_headers token) None ;;
  lift (raise_for_status response) ;;
  body <- lift (response_json response) ;;
  object <- lift (getitem body (VStr (lit "object"))) ;;
  lift (getitem object (VStr (lit "sha"))).

(** [get_latest_remote_commit_sha]; [depth] is the number of calls that
    the interpreter still allows, this one included, and a call beyond it
    is the interpreter's [RecursionError].  The nested call stands in the
    handler of [HTTPError], so that error leaves every level as it is. *)
Fixpoint get_latest_remote_commit_sha_rec (depth : nat)
         (owner repo branch comment_url unique_issue_id clone_url token : str)
  : M value :=
  match depth with
  | O => raise (error RecursionError "maximum recursion depth exceeded")
  | S depth' =>
      try_except
        (request_branch_sha owner repo branch token)
        (fun e =>
           if is_http_error e then
             empty <- lift (repository_is_empty e) ;;
             if empty then
               emit (ELog INFO
                          (lit "Repository is empty. So, creating an initial empty commit.")
                          []) ;;
               initialize_repo (lit "/tmp/repo/" ++ owner ++ lit "-" ++ repo)
                               clone_url ;;
               get_latest_remote_commit_sha_rec
                 depth' owner repo branch comment_url unique_issue_id
                 clone_url token
             else raise e
           else
             update_comment_for_raised_errors
               (value_of_exn e) comment_url token
               (lit "get_latest_remote_commit_sha") ;;
             raise (error RuntimeError
                          "Error: Could not get the latest commit SHA in get_latest_remote_commit_sha"))
  end.

(** The call of the caller, which may nest [recursion_limit] calls. *)
Definition get_latest_remote_commit_sha
           (owner repo branch comment_url unique_issue_id clone_url token : str)
  : M value :=
  get_latest_remote_commit_sha_rec
    (S recursion_limit)
    owner repo branch comment_url unique_issue_id clone_url token.

(** ** Content mutation engine *)

Definition contents_url (owner repo file_path : str) : str :=
  GITHUB_API_URL cfg ++ lit "/repos/" ++ owner ++ lit "/" ++ repo
                 ++ lit "/contents/" ++ file_path.

(** Lines 124-136: the baseline text and the version tag that the read
    leaves in [original_text] and [sha]. *)
Definition read_baseline (response : response) : result (str * value) :=
  if Z.eqb (status_code response) 200 then
    let* file_info := response_json response in
    let* content := dict_get file_info (lit "content") in
    let* raw := b64decode content in
    let* original_text := utf8_decode Replace raw in
    let* sha := getitem file_info (VStr (lit "sha")) in
    Ok (original_text, sha)
  else if negb (Z.eqb (status_code response) 404) then
    let* _ := raise_for_status response in
    Ok ([], VStr [])
  else Ok ([], VStr []).

(** Lines 142-150: the JSON body of the write. *)
Definition put_data (commit_message content branch : str) (sha : value)
  : value :=
  VDict ([(lit "message", VStr commit_message);
          (lit "content", VStr content);
          (lit "branch", VStr branch)]
         ++ (if negb (eq_str sha []) then [(lit "sha", sha)] else [])).

(** The function as written, before its decorator is applied. *)
Definition commit_changes_to_remote_branch_body
           (branch commit_message diff_text file_path owner repo token : str)
  : M unit :=
  let url := contents_url owner repo file_path in
  response <- http_request GET url (create_headers token) None ;;
  emit (EPrint [VStr (lit "response.status_code=");
                VInt (status_code response)]) ;;
  baseline <- lift (read_baseline response) ;;
  modified_text <- lift (apply_patch (fst baseline) diff_text) ;;
  match modified_text with
  | [] => ret tt
  | _ :: _ =>
      encoded <- lift (utf8_encode modified_text) ;;
      put_response <- http_request PUT url (create_headers token)
                        (Some (put_data commit_message (b64encode encoded)
                                        branch (snd baseline))) ;;
      lift (raise_for_status put_response)
  end.

Definition commit_changes_to_remote_branch
           (branch commit_message diff_text file_path owner repo token : str)
  : M unit :=
  handle_exceptions tt false
    (commit_changes_to_remote_branch_body
       branch commit_message diff_text file_path owner repo token).

(** The [for] loop of [commit_multiple_changes_to_remote_branch]. *)
Fixpoint commit_each (diffs : list str) (new_branch owner repo token : str)
  : M unit :=
  match diffs with
  | [] => ret tt
  | diff :: rest =>
      file_path <- lift (extract_file_name diff) ;;
      emit (EPrint [VStr (lit "File path: "); VStr file_path]) ;;
      commit_changes_to_remote_branch
        new_branch (lit "Update " ++ file_path) diff file_path owner repo
        token ;;
      emit (EPrint [VStr (lit "Changes committed to https://github.com/"
                              ++ owner ++ lit "/" ++ repo ++ lit "/tree/"
                              ++ new_branch)]) ;;
      commit_each rest new_branch owner repo token
  end.

Definition commit_multiple_changes_to_remote_branch
           (diffs : list str) (new_branch owner repo token : str) : M unit :=
  handle_exceptions tt false (commit_each diffs new_branch owner repo token).

(** ** Remote file reading *)

Definition is_image_path (file_path : str) : bool :=
  existsb (endswith file_path)
          [lit ".png"; lit ".jpeg"; lit ".jpg"; lit ".webp"; lit ".gif"].

Definition get_remote_file_content (file_path owner ref repo token : str)
  : M value :=
  handle_exceptions (VStr []) false
    (let url := contents_url owner repo file_path ++ lit "?ref=" ++ ref in
     response <- http_request GET url (create_headers token) None ;;
     lift (raise_for_status response) ;;
     body <- lift (response_json response) ;;
     encoded_content <- lift (getitem body (VStr (lit "content"))) ;;
     if is_image_path file_path then describe_image encoded_content
     else
       raw <- lift (b64decode encoded_content) ;;
       decoded_content <- lift (utf8_decode Strict raw) ;;
       ret (VStr decoded_content)).

(** ** Signature verifier *)

Definition expected_signature (secret_key body : bytes) : str :=
  lit "sha256=" ++ hex (hmac_sha256 secret_key body).

Definition verify_webhook_signature (request : Request) (secret : str)
  : M unit :=
  handle_exceptions tt true
    (match headers_get request "X-Hub-Signature-256" with
     | None => raise (error ValueError "Missing webhook signature")
     | Some signature =>
         let body := raw_body request in
         hmac_key <- lift (utf8_encode secret) ;;
         same <- lift (compare_digest signature
                                      (expected_signature hmac_key body)) ;;
         if negb same
         then raise (error ValueError "Invalid webhook signature")
         else ret tt
     end).

End GithubManager.


(* ================================================================== *)
(** * Concrete inputs *)
(* ================================================================== *)

(** A value for every constant of [Config]. *)
Definition sample_cfg : Config :=
  {| GITHUB_API_URL := lit "https://api.github.com";
     GITHUB_API_VERSION := lit "2022-11-28";
     PRODUCT_NAME := lit "GitAuto";
     PRODUCT_URL := lit "https://gitauto.ai";
     UPDATE_COMMENT_FOR_RAISED_ERRORS_BODY :=
       lit "Sorry, we have an error. Please try again.";
     UPDATE_COMMENT_FOR_RAISED_ERRORS_NO_CHANGES_MADE :=
       lit "No changes were detected." |}.

Definition octocat : str := lit "octocat".
Definition hello : str := lit "hello".
Definition sample_token : str := lit "token".
Definition sample_issue_id : str := lit "octocat/hello#1".
Definition sample_clone_url : str := lit "https://github.com/octocat/hello.git".
Definition sample_comment_url : str :=
  lit "https://api.github.com/repos/octocat/hello/issues/comments/1".

(** A fresh world in which the network gives [replies] and every shell
    command succeeds. *)
Definition world_of (replies : list reply) : world :=
  {| pending := replies; command_failures := []; directories := [];
     trace := [] |}.

(** The nested calls that the interpreter allows by default. *)
Definition sample_recursion_limit : nat := 1000.

(** The next [n] shell commands succeed. *)
Definition commands_succeed (n : nat) (w : world) : Prop :=
  Forall (fun outcome => outcome = None) (firstn n (command_failures w)).

(** Two bootstraps in one directory, as git runs them: the five commands of
    the first succeed; in the second, [git init] and [git add] succeed and
    [git commit] finds nothing to commit and fails. *)
Definition nothing_to_commit : exn :=
  error (OtherError "CalledProcessError")
        "git commit returned non-zero exit status 1".

Definition second_commit_fails : list (option exn) :=
  [None; None; None; None; None; None; None; Some nothing_to_commit].

Definition world_with (replies : list reply) (outcomes : list (option exn))
  : world :=
  {| pending := replies; command_failures := outcomes; directories := [];
     trace := [] |}.

Definition json_response (status : Z) (body : value) : response :=
  {| status_code := status; text := lit "(json)"; json := Some body |}.

(** 409, "Git Repository is empty." *)
Definition empty_repository : response :=
  json_response 409
    (VDict [(lit "message", VStr (lit "Git Repository is empty."))]).

(** 200 on a git reference. *)
Definition ref_found (sha : str) : response :=
  json_response 200
    (VDict [(lit "ref", VStr (lit "refs/heads/main"));
            (lit "object", VDict [(lit "sha", VStr sha)])]).

Definition not_found : response :=
  json_response 404 (VDict [(lit "message", VStr (lit "Not Found"))]).

Definition server_error : response :=
  {| status_code := 500; text := lit "Internal Server Error"; json := None |}.

(** 200 on a file of the contents API. *)
Definition file_found (content sha : str) : response :=
  json_response 200
    (VDict [(lit "content", VStr content); (lit "sha", VStr sha)]).

Definition file_written : response :=
  json_response 201 (VDict [(lit "content", VDict [])]).

(** 422 with the body
    { message: Validation Failed,
      errors: [{ message: No commits between main and feature-1 }] }. *)
Definition validation_failed : response :=
  json_response 422
    (VDict [(lit "message", VStr (lit "Validation Failed"));
            (lit "errors",
             VList [VDict [(lit "message",
                            VStr (lit "No commits between main and feature-1"))]])]).

(** An object that does expose [message] and [errors] the way the reporter
    reads them, with the errors in the flat or in the nested shape. *)
Definition duck_typed_error (errors : value) : value :=
  VObj true
       [("response"%string, value_of_response validation_failed);
        ("message"%string, VStr (lit "Validation Failed"));
        ("errors"%string, errors)]
       (Some [(lit "message", VStr (lit "Validation Failed"))]).

Definition no_commits_entry : value :=
  VObj false
       [("message"%string, VStr (lit "No commits between main and feature-1"))]
       None.

(** Patch helpers to run the engine with: one that leaves the text as it is,
    one that yields the empty text, one that appends the added lines of the
    diff. *)
Definition keep_patch (original_text diff_text : str) : result str :=
  Ok original_text.

Definition erase_patch (original_text diff_text : str) : result str :=
  Ok [].

(** Two patch helpers that give nothing to write: one yields a lone
    surrogate, which UTF-8 does not encode, and one raises. *)
Definition surrogate_patch (original_text diff_text : str) : result str :=
  Ok [55296%N].

Definition failing_patch (original_text diff_text : str) : result str :=
  Raise (error ValueError "patch does not apply").

Fixpoint split_lines (s current : str) : list str :=
  match s with
  | [] => match current with [] => [] | _ => [rev current] end
  | c :: s' =>
      if N.eqb c 10 then rev current :: split_lines s' []
      else split_lines s' (c :: current)
  end.

Definition added_line (line : str) : option str :=
  match line with
  | 43%N :: rest => if startswith line (lit "+++") then None else Some rest
  | _ => None
  end.

Fixpoint added_lines (lines : list str) : str :=
  match lines with
  | [] => []
  | line :: rest =>
      match added_line line with
      | Some text => text ++ [10%N] ++ added_lines rest
      | None => added_lines rest
      end
  end.

Definition append_patch (original_text diff_text : str) : result str :=
  Ok (original_text ++ added_lines (split_lines diff_text [])).

(** The file a diff names in its [+++] line. *)
Fixpoint header_path (lines : list str) : result str :=
  match lines with
  | [] => Raise (error ValueError "No file name found in the diff text.")
  | line :: rest =>
      if startswith line (lit "+++ ") then Ok (skipn 4 line)
      else header_path rest
  end.

Definition sample_extract_file_name (diff_text : str) : result str :=
  header_path (split_lines diff_text []).

(** A stand-in for the vision call: one request to the vision API, whose
    answer holds the description. *)
Definition sample_describe_image (base64_image : value) : M value :=
  response <- http_request POST (lit "https://api.openai.com/v1/chat/completions")
                           [] (Some base64_image) ;;
  lift (raise_for_status response) ;;
  body <- lift (response_json response) ;;
  lift (getitem body (VStr (lit "description"))).

Definition image_described (description : str) : response :=
  json_response 200 (VDict [(lit "description", VStr description)]).

(** A keyed digest to run the verifier with. *)
Definition sample_mac (key msg : bytes) : bytes := key ++ msg.

(** A diff that creates README.md with three lines. *)
Definition readme_diff : str :=
  lit "--- /dev/null" ++ [10%N] ++ lit "+++ README.md" ++ [10%N]
      ++ lit "@@ -0,0 +1,3 @@" ++ [10%N]
      ++ lit "+# Title" ++ [10%N] ++ lit "+" ++ [10%N] ++ lit "+Hello" ++ [10%N].

Definition readme_text : str :=
  lit "# Title" ++ [10%N] ++ [10%N] ++ lit "Hello" ++ [10%N].

(** The UTF-8 form of [readme_text]. *)
Definition readme_bytes : bytes :=
  Eval vm_compute in
    match utf8_encode readme_text with
    | Ok encoded => encoded
    | Raise _ => []
    end.

Definition notes_diff : str :=
  lit "--- /dev/null" ++ [10%N] ++ lit "+++ notes.txt" ++ [10%N]
      ++ lit "@@ -0,0 +1 @@" ++ [10%N] ++ lit "+note" ++ [10%N].

(** How often [initialize_repo] was started: it is the only place that runs
    [git init]. *)
Definition is_git_init (ev : event) : bool :=
  match ev with
  | ECommand command _ => str_eqb command (lit "git init")
  | _ => false
  end.

Definition bootstraps (t : list event) : nat :=
  List.length (filter is_git_init t).


(** The request that updates the feedback comment. *)
Definition comment_patch (cfg : Config) (comment_url token body : str) : event :=
  EHttp PATCH comment_url (create_headers cfg token)
        (Some (VDict [(lit "body", VStr body)])).

(** The request that looks a branch reference up. *)
Definition ref_lookup (cfg : Config) (owner repo branch token : str) : event :=
  EHttp GET (ref_url cfg owner repo branch) (create_headers cfg token) None.

(** The lookup reports the empty-repository condition: 409 with the message
    "Git Repository is empty." *)
Definition reports_empty_repository (r : response) : Prop :=
  status_code r = 409%Z
  /\ exists kvs,
      json r = Some (VDict kvs)
      /\ assoc str_eqb (lit "message") kvs
         = Some (VStr (lit "Git Repository is empty.")).

(** The lookup succeeds and names the commit [sha]. *)
Definition resolves_to (r : response) (sha : value) : Prop :=
  raise_for_status r = Ok tt
  /\ exists body object,
      json r = Some body
      /\ getitem body (VStr (lit "object")) = Ok object
      /\ getitem object (VStr (lit "sha")) = Ok sha.


(** The request that reads a file, and the one that writes it. *)
Definition file_read (cfg : Config) (owner repo file_path token : str) : event :=
  EHttp GET (contents_url cfg owner repo file_path) (create_headers cfg token)
        None.

Definition file_write (cfg : Config) (owner repo file_path token : str)
           (data : value) : event :=
  EHttp PUT (contents_url cfg owner repo file_path) (create_headers cfg token)
        (Some data).

(** The world after a file was read and the status printed. *)
Definition after_read (cfg : Config) (owner repo file_path token : str)
           (r : response) (rest : list reply) (w : world) : world :=
  record (EPrint [VStr (lit "response.status_code="); VInt (status_code r)])
         (with_pending rest (record (file_read cfg owner repo file_path token) w)).

(** A file whose content is the single byte 0xFF, which is not UTF-8. *)
Definition undecodable_file : response :=
  file_found (lit "/w==") (lit "abc").

Definition bytes_of_lit (s : string) : bytes :=
  map (fun a => byte_of_N (N_of_ascii a)) (list_ascii_of_string s).

(** A webhook delivery with the signature that [sample_mac] gives for the
    secret "s", and one whose signature header holds a byte above 0x7F. *)
Definition signed_request : Request :=
  {| raw_headers :=
       [("content-type"%string, bytes_of_lit "application/json");
        ("x-hub-signature-256"%string, bytes_of_lit "sha256=737b7d")];
     raw_body := bytes_of_lit "{}" |}.

Definition latin1_request : Request :=
  {| raw_headers := [("x-hub-signature-256"%string, [xe9])];
     raw_body := bytes_of_lit "{}" |}.

(** An instance of the HTTP error class with no attribute at all. *)
Definition malformed_error : value := VObj true [] None.

(** Computations that leave the pending replies alone. *)
Definition keeps_pending {A} (m : M A) : Prop :=
  forall w r w', m w = (r, w') -> pending w' = pending w.


(* ================================================================== *)
(** * More of the codecs *)
(* ================================================================== *)

(** A code point that a text can hold and UTF-8 can carry: up to U+10FFFF and
    no surrogate. *)
Definition is_scalar (c : N) : bool :=
  (N.ltb c 55296 || (N.leb 57344 c && N.leb c 1114111))%bool.

(* ================================================================== *)
(** * The rest of services/github/github_manager.py *)
(* ================================================================== *)


(** [str(n)] for an [int], as an f-string formats it. *)
Definition str_of_int (n : Z) : str :=
  lit (NilZero.string_of_int (Z.to_int n)).

(** What [for x in v] goes through: the items of a list, the keys of a dict,
    the characters of a str. *)
Definition iterate (v : value) : result (list value) :=
  match v with
  | VList xs => Ok xs
  | VDict kvs => Ok (map (fun kv => VStr (fst kv)) kvs)
  | VStr s => Ok (map (fun c => VStr [c]) s)
  | _ => Raise (error TypeError "object is not iterable")
  end.

(** [[f(x) for x in xs]]: the first exception ends the comprehension. *)
Fixpoint map_result {A B} (f : A -> result B) (xs : list A) : result (list B) :=
  match xs with
  | [] => Ok []
  | x :: rest =>
      let* y := f x in
      let* ys := map_result f rest in
      Ok (y :: ys)
  end.

(** [[x for x in xs if keep(x)]] *)
Fixpoint filter_result {A} (keep : A -> result bool) (xs : list A)
  : result (list A) :=
  match xs with
  | [] => Ok []
  | x :: rest =>
      let* k := keep x in
      let* ys := filter_result keep rest in
      Ok (if k then x :: ys else ys)
  end.

(** [d.get(key, default)] *)
Definition dict_get_default (d : value) (key : str) (default : value)
  : result value :=
  match d with
  | VDict kvs =>
      match assoc str_eqb key kvs with
      | Some x => Ok x
      | None => Ok default
      end
  | _ => Raise (error AttributeError "get")
  end.

Fixpoint join_params (params : list (str * str)) : str :=
  match params with
  | [] => []
  | [(k, v)] => k ++ lit "=" ++ v
  | (k, v) :: rest => k ++ lit "=" ++ v ++ lit "&" ++ join_params rest
  end.

(** The URL that [requests] builds from [url] and [params], for parameter
    values that need no escaping (here: words and numbers). *)
Definition with_params (url : str) (params : list (str * str)) : str :=
  url ++ lit "?" ++ join_params params.

Section GithubManagerMore.

Variable cfg : Config.

(** [config.GITHUB_APP_IDS] and [config.PRODUCT_ID]; and [response.links],
    which [requests] parses from the Link header of the response. *)
Variable GITHUB_APP_IDS : list Z.
Variable PRODUCT_ID : str.
Variable links : response -> list (str * value).

Definition issue_url (owner repo : str) (issue_number : Z) (tail : str)
  : str :=
  GITHUB_API_URL cfg ++ lit "/repos/" ++ owner ++ lit "/" ++ repo
                 ++ lit "/issues/" ++ str_of_int issue_number ++ tail.

Definition add_label_to_issue (owner repo : str) (issue_number : Z)
           (label token : str) : M unit :=
  handle_exceptions tt true
    (response <- http_request POST (issue_url owner repo issue_number
                                              (lit "/labels"))
                              (create_headers cfg token)
                              (Some (VDict [(lit "labels",
                                             VList [VStr label])])) ;;
     lift (raise_for_status response)).

Definition add_reaction_to_issue (owner repo : str) (issue_number : Z)
           (content token : str) : M unit :=
  handle_exceptions tt false
    (response <- http_request POST (issue_url owner repo issue_number
                                              (lit "/reactions"))
                              (create_headers cfg token)
                              (Some (VDict [(lit "content", VStr content)])) ;;
     lift (raise_for_status response) ;;
     lift (response_json response) ;;
     ret tt).

Definition create_comment (owner repo : str) (issue_number : Z)
           (body token : str) : M value :=
  handle_exceptions VNone false
    (response <- http_request POST (issue_url owner repo issue_number
                                              (lit "/comments"))
                              (create_headers cfg token)
                              (Some (VDict [(lit "body", VStr body)])) ;;
     lift (raise_for_status response) ;;
     created <- lift (response_json response) ;;
     lift (getitem created (VStr (lit "url")))).

Definition pulls_url (owner repo : str) : str :=
  GITHUB_API_URL cfg ++ lit "/repos/" ++ owner ++ lit "/" ++ repo
                 ++ lit "/pulls".

Definition create_pull_request (base body head owner repo title token : str)
  : M value :=
  handle_exceptions VNone false
    (response <- http_request POST (pulls_url owner repo)
                              (create_headers cfg token)
                              (Some (VDict [(lit "title", VStr title);
                                            (lit "body", VStr body);
                                            (lit "head", VStr head);
                                            (lit "base", VStr base)])) ;;
     lift (raise_for_status response) ;;
     created <- lift (response_json response) ;;
     lift (getitem created (VStr (lit "html_url")))).

Definition refs_url (owner repo : str) : str :=
  GITHUB_API_URL cfg ++ lit "/repos/" ++ owner ++ lit "/" ++ repo
                 ++ lit "/git/refs".

(** The body of the [try] at lines 303-309. *)
Definition request_new_ref (branch_name owner repo sha token : str)
  : M unit :=
  response <- http_request POST (refs_url owner repo)
                           (create_headers cfg token)
                           (Some (VDict [(lit "ref",
                                          VStr (lit "refs/heads/"
                                                    ++ branch_name));
                                         (lit "sha", VStr sha)])) ;;
  lift (raise_for_status response).

Definition create_remote_branch
           (branch_name owner repo sha comment_url token : str) : M unit :=
  try_except
    (request_new_ref branch_name owner repo sha token)
    (fun e =>
       update_comment_for_raised_errors
         cfg (value_of_exn e) comment_url token (lit "create_remote_branch") ;;
       ret tt).

(** ** Issue comments *)

(** [v not in GITHUB_APP_IDS] *)
Definition not_in_app_ids (v : value) : bool :=
  negb (existsb (eq_int v) GITHUB_APP_IDS).

(** The condition of the comprehension at lines 394-399. *)
Definition by_another_app (comment : value) : result bool :=
  let* app := dict_get comment (lit "performed_via_github_app") in
  if truthy app then
    let* app' := getitem comment (VStr (lit "performed_via_github_app")) in
    let* id := dict_get app' (lit "id") in
    Ok (not_in_app_ids id)
  else Ok false.

Definition get_issue_comments (owner repo : str) (issue_number : Z)
           (token : str) : M value :=
  handle_exceptions (VList []) false
    (response <- http_request GET (issue_url owner repo issue_number
                                             (lit "/comments"))
                              (create_headers cfg token) None ;;
     lift (raise_for_status response) ;;
     comments <- lift (response_json response) ;;
     items <- lift (iterate comments) ;;
     filtered_comments <- lift (filter_result by_another_app items) ;;
     emit (EPrint [VStr (lit "Issue comments: "); VList filtered_comments]) ;;
     comment_texts <- lift (map_result
                              (fun comment =>
                                 getitem comment (VStr (lit "body")))
                              filtered_comments) ;;
     ret (VList comment_texts)).

(** ** Installed repositories *)

Definition installation_repositories_url (page : Z) : str :=
  with_params (GITHUB_API_URL cfg ++ lit "/installation/repositories")
              [(lit "per_page", str_of_int 100);
               (lit "page", str_of_int page)].

(** One entry of [items] at lines 364-371. *)
Definition owner_and_repo (repository : value) : result value :=
  let* owner := getitem repository (VStr (lit "owner")) in
  let* owner_id := getitem owner (VStr (lit "id")) in
  let* owner' := getitem repository (VStr (lit "owner")) in
  let* login := getitem owner' (VStr (lit "login")) in
  let* name := getitem repository (VStr (lit "name")) in
  Ok (VDict [(lit "owner_id", owner_id); (lit "owner", login);
             (lit "repo", name)]).

(** The [while True] loop at lines 351-378.  Each turn sends a request, so
    [turns] need never exceed the number of pending replies by more than
    one; the case of no turn left is not reached. *)
Fixpoint installed_pages (turns : nat) (token : str) (page : Z)
         (owners_repos : list value) : M value :=
  match turns with
  | O => ret (VList owners_repos)
  | S turns' =>
      response <- http_request GET (installation_repositories_url page)
                               (create_headers cfg token) None ;;
      lift (raise_for_status response) ;;
      body <- lift (response_json response) ;;
      repos <- lift (dict_get_default body (lit "repositories") (VList [])) ;;
      if negb (truthy repos) then ret (VList owners_repos)
      else
        repositories <- lift (iterate repos) ;;
        items <- lift (map_result owner_and_repo repositories) ;;
        emit (EPrint [VStr (lit "response.links:"); VDict (links response)]) ;;
        match assoc str_eqb (lit "next") (links response) with
        | None => ret (VList (owners_repos ++ items))
        | Some _ =>
            installed_pages turns' token (page + 1) (owners_repos ++ items)
        end
  end.

Definition get_installed_owners_and_repos (token : str) : M value :=
  handle_exceptions (VList []) false
    (fun w => installed_pages (S (List.length (pending w))) token 1 [] w).

(** ** The oldest unassigned open issue *)

Definition open_issues_url (owner repo : str) (page : Z) : str :=
  with_params (GITHUB_API_URL cfg ++ lit "/repos/" ++ owner ++ lit "/"
                              ++ repo ++ lit "/issues")
              [(lit "assignee", lit "none");
               (lit "direction", lit "asc");
               (lit "page", str_of_int page);
               (lit "per_page", str_of_int 100);
               (lit "sort", lit "created");
               (lit "state", lit "open")].

(** [all(label["name"] != PRODUCT_ID for label in labels)]: the first label
    that has the name ends the iteration. *)
Fixpoint no_product_label (labels : list value) : result bool :=
  match labels with
  | [] => Ok true
  | label :: rest =>
      let* name := getitem label (VStr (lit "name")) in
      if eq_str name PRODUCT_ID then Ok false else no_product_label rest
  end.

(** The [for] loop at lines 484-486: the first issue without the label. *)
Fixpoint first_unlabelled (issues : list value) : result (option value) :=
  match issues with
  | [] => Ok None
  | issue :: rest =>
      let* labels := getitem issue (VStr (lit "labels")) in
      let* label_list := iterate labels in
      let* free := no_product_label label_list in
      if free then Ok (Some issue) else first_unlabelled rest
  end.

(** The [while True] loop at lines 462-489, with [turns] as above. *)
Fixpoint open_issue_pages (turns : nat) (owner repo token : str) (page : Z)
  : M value :=
  match turns with
  | O => ret VNone
  | S turns' =>
      response <- http_request GET (open_issues_url owner repo page)
                               (create_headers cfg token) None ;;
      lift (raise_for_status response) ;;
      issues <- lift (response_json response) ;;
      if negb (truthy issues) then ret VNone
      else
        issue_list <- lift (iterate issues) ;;
        found <- lift (first_unlabelled issue_list) ;;
        match found with
        | Some issue => ret issue
        | None => open_issue_pages turns' owner repo token (page + 1)
        end
  end.

Definition get_oldest_unassigned_open_issue (owner repo token : str)
  : M value :=
  handle_exceptions VNone false
    (fun w =>
       open_issue_pages (S (List.length (pending w))) owner repo token 1 w).

(** ** Owner name and file tree *)

Definition get_owner_name (owner_id : Z) (token : str) : M value :=
  handle_exceptions VNone false
    (response <- http_request GET (GITHUB_API_URL cfg ++ lit "/user/"
                                                  ++ str_of_int owner_id)
                              (create_headers cfg token) None ;;
     lift (raise_for_status response) ;;
     user <- lift (response_json response) ;;
     lift (getitem user (VStr (lit "login")))).

Definition tree_url (owner repo ref : str) : str :=
  GITHUB_API_URL cfg ++ lit "/repos/" ++ owner ++ lit "/" ++ repo
                 ++ lit "/git/trees/" ++ ref ++ lit "?recursive=1".

(** The body of the [try] at lines 539-545. *)
Definition request_tree_paths (owner repo ref token : str) : M value :=
  response <- http_request GET (tree_url owner repo ref)
                           (create_headers cfg token) None ;;
  lift (raise_for_status response) ;;
  body <- lift (response_json response) ;;
  tree <- lift (getitem body (VStr (lit "tree"))) ;;
  items <- lift (iterate tree) ;;
  paths <- lift (map_result
                   (fun item => getitem item (VStr (lit "path"))) items) ;;
  ret (VList paths).

Definition get_remote_file_tree (owner repo ref comment_url token : str)
  : M value :=
  try_except
    (request_tree_paths owner repo ref token)
    (fun e =>
       if is_http_error e then
         match exn_response e with
         | None => raise (error AttributeError "status_code")
         | Some r =>
             (if negb (Z.eqb (status_code r) 409)
              then emit (ELog ERROR
                              (lit "get_remote_file_tree HTTP Error: %s - %s")
                              [VInt (status_code r); VStr (text r)])
              else ret tt) ;;
             ret (VList [])
         end
       else
         update_comment_for_raised_errors
           cfg (value_of_exn e) comment_url token (lit "get_remote_file_tree") ;;
         ret (VList [])).

End GithubManagerMore.

(** An entry of an [errors] list with the message [m]. *)
Definition message_entry (m : str) : value :=
  VObj false [("message"%string, VStr m)] None.

(** The request that creates a branch reference, and the one that reads a
    tree. *)
Definition new_ref_request (cfg : Config)
           (branch_name owner repo sha token : str) : event :=
  EHttp POST (refs_url cfg owner repo) (create_headers cfg token)
        (Some (VDict [(lit "ref", VStr (lit "refs/heads/" ++ branch_name));
                      (lit "sha", VStr sha)])).

Definition tree_request (cfg : Config) (owner repo ref token : str) : event :=
  EHttp GET (tree_url cfg owner repo ref) (create_headers cfg token) None.

(** 422, "Reference already exists". *)
Definition reference_exists : response :=
  json_response 422
    (VDict [(lit "message", VStr (lit "Reference already exists"))]).

Definition conflict : response :=
  json_response 409 (VDict [(lit "message", VStr (lit "Conflict"))]).

(** 200 on a tree. *)
Definition tree_found (paths : list str) : response :=
  json_response 200
    (VDict [(lit "sha", VStr (lit "abc"));
            (lit "tree",
             VList (map (fun p => VDict [(lit "path", VStr p);
                                         (lit "type", VStr (lit "blob"))])
                        paths))]).

(** The commands of the bootstrap, in the order [initialize_repo] runs
    them. *)
Definition bootstrap_commands (remote_url : str) : list str :=
  [lit "git init";
   lit "git add README.md";
   lit "git commit -m " ++ [34%N] ++ lit "Initial commit" ++ [34%N];
   lit "git remote add origin " ++ remote_url;
   lit "git push -u origin main"].

(** The shell commands in a trace. *)
Fixpoint commands_of (t : list event) : list str :=
  match t with
  | [] => []
  | ECommand command _ :: rest => command :: commands_of rest
  | _ :: rest => commands_of rest
  end.


(** A PNG image behind the contents API, and what stands for its
    description. *)
Definition image_found : response :=
  file_found (lit "iVBORw0KGgo=") (lit "abc").

(** ** Comments, repositories and issues as the API lists them *)

(** The comment was made through a GitHub App that is not one of [ids]. *)
Definition made_by_another_app (ids : list Z) (comment : value) : bool :=
  match comment with
  | VDict kvs =>
      match assoc str_eqb (lit "performed_via_github_app") kvs with
      | Some (VDict app) =>
          match app with
          | [] => false
          | _ :: _ =>
              match assoc str_eqb (lit "id") app with
              | Some id => negb (existsb (eq_int id) ids)
              | None => negb (existsb (eq_int VNone) ids)
              end
          end
      | _ => false
      end
  | _ => false
  end.

(** A comment as the API sends it: an object with a [body], whose
    [performed_via_github_app] is absent, null or an object. *)
Definition api_comment (comment : value) : Prop :=
  match comment with
  | VDict kvs =>
      (exists body, assoc str_eqb (lit "body") kvs = Some body)
      /\ match assoc str_eqb (lit "performed_via_github_app") kvs with
         | None | Some VNone | Some (VDict _) => True
         | Some _ => False
         end
  | _ => False
  end.

Definition body_of (comment : value) : value :=
  match comment with
  | VDict kvs =>
      match assoc str_eqb (lit "body") kvs with
      | Some body => body
      | None => VNone
      end
  | _ => VNone
  end.

Definition issue_comment (body : str) (app : value) : value :=
  VDict [(lit "id", VInt 1); (lit "body", VStr body);
         (lit "performed_via_github_app", app)].

Definition github_app (id : Z) : value :=
  VDict [(lit "id", VInt id); (lit "slug", VStr (lit "app"))].

(** The request that lists the comments of an issue. *)
Definition comments_request (cfg : Config) (owner repo : str)
           (issue_number : Z) (token : str) : event :=
  EHttp GET (issue_url cfg owner repo issue_number (lit "/comments"))
        (create_headers cfg token) None.

(** The request for one page of the installed repositories, and for one page
    of the open issues. *)
Definition repositories_request (cfg : Config) (token : str) (page : Z)
  : event :=
  EHttp GET (installation_repositories_url cfg page) (create_headers cfg token)
        None.

Definition open_issues_request (cfg : Config) (owner repo token : str)
           (page : Z) : event :=
  EHttp GET (open_issues_url cfg owner repo page) (create_headers cfg token)
        None.

(** The requests for [count] pages in a row, from page [first] on. *)
Definition page_requests (request : Z -> event) (first : Z) (count : nat)
  : list event :=
  map (fun i => request (first + Z.of_nat i)%Z) (seq 0 count).

(** A successful page that lists repositories, of which [items] are the
    entries the function builds. *)
Definition lists_repositories (r : response) (items : list value) : Prop :=
  raise_for_status r = Ok tt
  /\ exists body repositories,
      json r = Some body
      /\ dict_get_default body (lit "repositories") (VList [])
         = Ok (VList repositories)
      /\ repositories <> []
      /\ map_result owner_and_repo repositories = Ok items.

(** A successful page with no repositories. *)
Definition lists_nothing (r : response) : Prop :=
  raise_for_status r = Ok tt
  /\ exists body repositories,
      json r = Some body
      /\ dict_get_default body (lit "repositories") (VList [])
         = Ok repositories
      /\ truthy repositories = false.

(** A page at which the listing ends: it lists repositories and has no next
    link, or it lists nothing. *)
Definition closes_listing (links : response -> list (str * value))
           (r : response) (items : list value) : Prop :=
  (lists_repositories r items
   /\ assoc str_eqb (lit "next") (links r) = None)
  \/ (lists_nothing r /\ items = []).

(** The next request fails: nothing answers, the client raises, or the
    status is an error. *)
Definition request_fails (replies : list reply) : Prop :=
  match replies with
  | [] => True
  | Fails _ :: _ => True
  | Responds r :: _ => (400 <= status_code r < 600)%Z
  end.

(** An issue has a label named [product_id]; an issue has labels and none of
    them has that name. *)
Definition has_product_label (product_id : str) (issue : value) : Prop :=
  exists labels label_list label name,
    getitem issue (VStr (lit "labels")) = Ok labels
    /\ iterate labels = Ok label_list
    /\ In label label_list
    /\ getitem label (VStr (lit "name")) = Ok name
    /\ eq_str name product_id = true.

Definition lacks_product_label (product_id : str) (issue : value) : Prop :=
  exists labels label_list,
    getitem issue (VStr (lit "labels")) = Ok labels
    /\ iterate labels = Ok label_list
    /\ Forall (fun label =>
                 exists name,
                   getitem label (VStr (lit "name")) = Ok name
                   /\ eq_str name product_id = false)
              label_list.

(** A successful page of issues that all have the label; and one in which
    [issue] is the first without it. *)
Definition all_labelled (product_id : str) (r : response) : Prop :=
  raise_for_status r = Ok tt
  /\ exists issues,
      json r = Some (VList issues)
      /\ issues <> []
      /\ first_unlabelled product_id issues = Ok None.

Definition offers (product_id : str) (r : response) (issue : value) : Prop :=
  raise_for_status r = Ok tt
  /\ exists issues,
      json r = Some (VList issues)
      /\ first_unlabelled product_id issues = Ok (Some issue).

(** A successful page with no issue. *)
Definition no_issues (r : response) : Prop :=
  raise_for_status r = Ok tt
  /\ exists issues, json r = Some issues /\ truthy issues = false.

(** Sample pages. *)
Definition repository (owner_id : Z) (owner name : str) : value :=
  VDict [(lit "name", VStr name);
         (lit "owner", VDict [(lit "login", VStr owner);
                              (lit "id", VInt owner_id)])].

Definition repositories_page (repositories : list value) : response :=
  json_response 200
    (VDict [(lit "total_count", VInt 3);
            (lit "repositories", VList repositories)]).

(** Links for the samples: the page that holds the repository "hello" has a
    next page, the others have none. *)
Definition sample_links (r : response) : list (str * value) :=
  match json r with
  | Some (VDict [_; (_, VList (VDict ((_, VStr name) :: _) :: _))]) =>
      if str_eqb name (lit "hello")
      then [(lit "next", VDict [(lit "url", VStr (lit "page=2"))])]
      else []
  | _ => []
  end.

Definition labelled_issue (number : Z) (labels : list str) : value :=
  VDict [(lit "number", VInt number);
         (lit "labels",
          VList (map (fun name => VDict [(lit "name", VStr name)]) labels))].


(* ================================================================== *)
(** * Properties of the codecs *)
(* ================================================================== *)

Lemma str_eqb_refl (a : str) : str_eqb a a = true.
Proof.
  induction a as [|x a IH]; simpl; [reflexivity|].
  now rewrite N.eqb_refl, IH.
Qed.

Lemma str_eqb_eq (a b : str) : str_eqb a b = true <-> a = b.
Proof.
  split.
  - revert b; induction a as [|x a IH]; intros [|y b] H; simpl in H;
      try discriminate; [reflexivity|].
    apply andb_true_iff in H as [Hx Hab].
    apply N.eqb_eq in Hx. now rewrite Hx, (IH b Hab).
  - intros ->. apply str_eqb_refl.
Qed.

Lemma str_eqb_neq (a b : str) : a <> b -> str_eqb a b = false.
Proof.
  intros H. destruct (str_eqb a b) eqn:E; [|reflexivity].
  now apply str_eqb_eq in E.
Qed.

Lemma is_ascii_app (a b : str) :
  is_ascii (a ++ b) = (is_ascii a && is_ascii b)%bool.
Proof. apply forallb_app. Qed.

Lemma hex_digit_ascii (n : N) : (n < 16)%N -> (hex_digit n < 128)%N.
Proof.
  intros H. unfold hex_digit. destruct (N.ltb_spec n 10); lia.
Qed.

Lemma byte_to_N_bound (b : byte) : (Byte.to_N b < 256)%N.
Proof. pose proof (Byte.to_N_bounded b). lia. Qed.

(** A hex digest is ASCII, whatever the digest. *)
Lemma hex_is_ascii (bs : bytes) : is_ascii (hex bs) = true.
Proof.
  induction bs as [|b bs IH]; [reflexivity|].
  pose proof (byte_to_N_bound b) as Hb.
  cbn [hex is_ascii forallb]. fold (is_ascii (hex bs)). rewrite IH.
  assert (H1 : (hex_digit (Byte.to_N b / 16) < 128)%N).
  { apply hex_digit_ascii. apply N.Div0.div_lt_upper_bound. lia. }
  assert (H2 : (hex_digit (Byte.to_N b mod 16) < 128)%N).
  { apply hex_digit_ascii. apply N.mod_lt. lia. }
  apply N.ltb_lt in H1, H2. now rewrite H1, H2.
Qed.

(** With [errors="replace"] the decoder returns a text for every input. *)
Lemma utf8_decode_replace_total (bs : bytes) :
  exists s, utf8_decode Replace bs = Ok s.
Proof.
  assert (H : forall n bs, (List.length bs <= n)%nat ->
                           exists s, utf8_decode Replace bs = Ok s).
  { clear bs. induction n as [|n IH]; intros bs Hlen.
    - destruct bs; [now exists []|simpl in Hlen; lia].
    - destruct bs as [|b0 r0]; [now exists []|].
      cbn [utf8_decode]. cbv zeta.
      repeat match goal with
             | |- context [if ?c then _ else _] => destruct c
             | |- context [match ?l with [] => _ | _ :: _ => _ end] =>
                 is_var l; destruct l
             end;
        unfold on_undecodable;
        match goal with
        | |- exists s, result_map _ (Ok _) = Ok s => eexists; reflexivity
        | |- exists s, result_map _ (utf8_decode Replace ?r) = Ok s =>
            let s := fresh "s" in
            let Hs := fresh "Hs" in
            destruct (IH r) as [s Hs]; [simpl in *; lia|];
            rewrite Hs; eexists; reflexivity
        end. }
  apply (H (List.length bs)). lia.
Qed.

(** The strict decoder does raise. *)
Lemma utf8_decode_strict_raises :
  utf8_decode Strict [xff] = Raise (error UnicodeDecodeError "invalid utf-8").
Proof. reflexivity. Qed.

Example utf8_decode_ascii :
  utf8_decode Strict [x68; x69] = Ok (lit "hi").
Proof. reflexivity. Qed.

Example utf8_decode_replace_ff :
  utf8_decode Replace [x61; xff; x62] = Ok [97; 65533; 98]%N.
Proof. reflexivity. Qed.

Example utf8_decode_truncated :
  utf8_decode Replace [xe2; x82] = Ok [65533]%N.
Proof. reflexivity. Qed.

Example utf8_roundtrip_euro :
  utf8_encode [8364]%N = Ok [xe2; x82; xac]
  /\ utf8_decode Strict [xe2; x82; xac] = Ok [8364]%N.
Proof. split; reflexivity. Qed.

Example b64encode_hi : b64encode [x68; x69] = lit "aGk=".
Proof. reflexivity. Qed.

Example b64decode_hi : b64decode (VStr (lit "aGk=")) = Ok [x68; x69].
Proof. reflexivity. Qed.

Example b64decode_newlines :
  b64decode (VStr [97; 71; 10; 107; 61; 10]%N) = Ok [x68; x69].
Proof. reflexivity. Qed.

Example b64decode_bad_padding :
  b64decode (VStr (lit "aGk")) = Raise (error BinasciiError "Incorrect padding").
Proof. reflexivity. Qed.

Example append_patch_readme :
  append_patch [] readme_diff = Ok readme_text
  /\ sample_extract_file_name readme_diff = Ok (lit "README.md").
Proof. split; reflexivity. Qed.


(* ================================================================== *)
(** * The failure reporter *)
(* ================================================================== *)

Lemma requests_of_app (m : http_method) (a b : list event) :
  requests_of m (a ++ b) = requests_of m a ++ requests_of m b.
Proof. apply filter_app. Qed.

Ltac step_in H :=
  repeat (cbn [fst snd] in H;
          match type of H with
          | context [match ?r with Ok _ => _ | Raise _ => _ end] =>
              destruct r eqn:?
          | context [if ?b then _ else _] => destruct b eqn:?
          end).

Ltac close_trace :=
  cbn [trace record pending with_pending command_failures directories
       with_command_failures with_directory];
  repeat rewrite <- app_assoc;
  repeat split; try reflexivity.

Section Reporter.

Variable cfg : Config.

(** Classification only writes to the log. *)
Lemma classify_raised_error_logs err which_function w r w1 :
  classify_raised_error cfg err which_function w = (r, w1) ->
  exists logs,
    pending w1 = pending w
    /\ trace w1 = trace w ++ logs
    /\ (forall m, requests_of m logs = []).
Proof.
  unfold classify_raised_error, bind, lift, emit, ret.
  intros H. step_in H.
  all: inversion H; subst; clear H.
  all: first [ exists []; cbn [pending trace]; rewrite app_nil_r;
               repeat split; intros []; reflexivity
             | eexists; cbn [pending trace record];
               repeat rewrite <- app_assoc;
               repeat split; intros []; reflexivity ].
Qed.

(** The body that classification leaves is one of the two texts. *)
Lemma classify_raised_error_body err which_function w body w1 :
  classify_raised_error cfg err which_function w = (Ok body, w1) ->
  body = UPDATE_COMMENT_FOR_RAISED_ERRORS_BODY cfg
  \/ body = UPDATE_COMMENT_FOR_RAISED_ERRORS_NO_CHANGES_MADE cfg.
Proof.
  unfold classify_raised_error, bind, lift, emit, ret.
  intros H. step_in H.
  all: inversion H; subst; clear H; auto.
Qed.

(** [update_comment] sends one PATCH and never raises. *)
Lemma update_comment_run comment_url body token w :
  exists v evs w',
    update_comment cfg comment_url body token w = (Ok v, w')
    /\ trace w' = trace w ++ evs
    /\ requests_of PATCH evs = [comment_patch cfg comment_url token body].
Proof.
  unfold update_comment, handle_exceptions, try_except, bind, lift, emit,
    ret, raise, http_request.
  cbn [pending record].
  destruct (pending w) as [|[r|e] rest];
    [| destruct (raise_for_status r); [destruct (response_json r)|] |].
  all: do 3 eexists; split; [reflexivity|].
  all: cbn [trace record with_pending]; repeat rewrite <- app_assoc.
  all: split; reflexivity.
Qed.

(** The whole reporter: it logs, sends one PATCH with the body that
    classification chose (the generic one when classification raised), and
    raises. *)
Lemma update_comment_for_raised_errors_run
      err comment_url token which_function w :
  exists body evs w',
    update_comment_for_raised_errors cfg err comment_url token
                                     which_function w
    = (Raise (error RuntimeError "Error occurred"), w')
    /\ trace w' = trace w ++ evs
    /\ requests_of PATCH evs = [comment_patch cfg comment_url token body]
    /\ body = match fst (classify_raised_error cfg err which_function w) with
              | Ok chosen => chosen
              | Raise _ => UPDATE_COMMENT_FOR_RAISED_ERRORS_BODY cfg
              end
    /\ (forall e, fst (classify_raised_error cfg err which_function w)
                  = Raise e ->
                  In (ELog ERROR (lit "%s Error: %s")
                           [VStr which_function; value_of_exn e]) evs).
Proof.
  unfold update_comment_for_raised_errors, bind, try_except.
  destruct (classify_raised_error cfg err which_function w)
    as [[chosen|e] w1] eqn:Hc;
    destruct (classify_raised_error_logs _ _ _ Hc) as (logs & _ & Ht & Hr).
  - destruct (update_comment_run comment_url chosen token w1)
      as (v & evs & w' & Hu & Ht' & Hr').
    rewrite Hu. exists chosen, (logs ++ evs), w'.
    split; [reflexivity|]. split; [now rewrite Ht', Ht, app_assoc|].
    split; [now rewrite requests_of_app, Hr, Hr'|].
    split; [reflexivity|]. cbn [fst]. discriminate.
  - unfold emit, ret. cbn [fst].
    match goal with
    | |- context [update_comment cfg ?u ?b ?t ?w0] =>
        destruct (update_comment_run u b t w0)
          as (v & evs & w' & Hu & Ht' & Hr')
    end.
    rewrite Hu. cbn [trace record] in Ht'.
    eexists _, (logs ++ [_] ++ evs), w'.
    split; [reflexivity|].
    split; [rewrite Ht', Ht; now repeat rewrite <- app_assoc|].
    split; [now rewrite !requests_of_app, Hr, Hr'|].
    split; [reflexivity|].
    intros e' He'. inversion He'; subst.
    apply in_or_app; right. now left.
Qed.

(** On an exception object the validation test never succeeds: it fails on
    the status, or raises at [error["message"]]. *)
Lemma exception_is_never_no_commits (e : exn) :
  is_no_commits_validation (value_of_exn e) <> Ok true.
Proof.
  unfold is_no_commits_validation, rbind.
  destruct (getattr (value_of_exn e) "response"); [|discriminate].
  destruct (getattr a "status_code"); [|discriminate].
  destruct (negb (eq_int a0 422)); discriminate.
Qed.

Lemma classify_exception e which_function w :
  fst (classify_raised_error cfg (value_of_exn e) which_function w)
  <> Ok (UPDATE_COMMENT_FOR_RAISED_ERRORS_BODY cfg) ->
  exists e', fst (classify_raised_error cfg (value_of_exn e) which_function w)
             = Raise e'.
Proof.
  pose proof (exception_is_never_no_commits e) as Hn.
  unfold classify_raised_error, bind, lift, emit, ret.
  destruct (isinstance_HTTPError (value_of_exn e)); cbn [fst];
    [|intros H; now elim H].
  destruct (getattr (value_of_exn e) "response"); cbn [fst]; [|eauto].
  destruct (getattr a "status_code"); cbn [fst]; [|eauto].
  destruct (getattr a "text"); cbn [fst]; [|eauto].
  destruct (is_no_commits_validation (value_of_exn e)) as [[|]|e1];
    cbn [fst]; [now elim Hn| intros H; now elim H | eauto].
Qed.

(** Whatever exception the reporter is given, the comment gets the generic
    body. *)
Lemma exception_gets_generic_body e comment_url token which_function w :
  exists evs w',
    update_comment_for_raised_errors cfg (value_of_exn e) comment_url token
                                     which_function w
    = (Raise (error RuntimeError "Error occurred"), w')
    /\ trace w' = trace w ++ evs
    /\ requests_of PATCH evs
       = [comment_patch cfg comment_url token
                        (UPDATE_COMMENT_FOR_RAISED_ERRORS_BODY cfg)].
Proof.
  destruct (update_comment_for_raised_errors_run
              (value_of_exn e) comment_url token which_function w)
    as (body & evs & w' & Hrun & Ht & Hr & Hb & _).
  exists evs, w'. split; [exact Hrun|]. split; [exact Ht|].
  rewrite Hr. f_equal. f_equal. rewrite Hb.
  pose proof (classify_exception e which_function w) as Hc.
  destruct (fst (classify_raised_error cfg (value_of_exn e) which_function w))
    as [chosen|e1] eqn:E; [|reflexivity].
  destruct (list_eq_dec N.eq_dec chosen
                        (UPDATE_COMMENT_FOR_RAISED_ERRORS_BODY cfg))
    as [->|Hne]; [reflexivity|].
  destruct Hc as [e' He']; [congruence|discriminate].
Qed.

End Reporter.

(** The branch that chooses the other body is live code: an object that
    exposes [message] and [errors] reaches it, in the flat and in the nested
    shape. *)
Example no_changes_branch_is_reachable :
  fst (classify_raised_error sample_cfg
         (duck_typed_error (VList [no_commits_entry]))
         (lit "create_pull_request") (world_of []))
  = Ok (UPDATE_COMMENT_FOR_RAISED_ERRORS_NO_CHANGES_MADE sample_cfg)
  /\ fst (classify_raised_error sample_cfg
            (duck_typed_error (VList [VList [no_commits_entry]]))
            (lit "create_pull_request") (world_of []))
     = Ok (UPDATE_COMMENT_FOR_RAISED_ERRORS_NO_CHANGES_MADE sample_cfg).
Proof. split; vm_compute; reflexivity. Qed.

(** C5: [update_comment_for_raised_errors] never returns normally.  For every
    error value it sends the one PATCH that updates the comment and then
    raises [RuntimeError]; the body is one of the two texts; and when
    classification itself raises, that exception is logged and the body is the
    generic one. *)
Theorem update_comment_for_raised_errors_always_raises :
  forall cfg err comment_url token which_function w,
  exists body evs w',
    update_comment_for_raised_errors cfg err comment_url token
                                     which_function w
    = (Raise (error RuntimeError "Error occurred"), w')
    /\ trace w' = trace w ++ evs
    /\ requests_of PATCH evs = [comment_patch cfg comment_url token body]
    /\ (body = UPDATE_COMMENT_FOR_RAISED_ERRORS_BODY cfg
        \/ body = UPDATE_COMMENT_FOR_RAISED_ERRORS_NO_CHANGES_MADE cfg)
    /\ (forall e,
          fst (classify_raised_error cfg err which_function w) = Raise e ->
          body = UPDATE_COMMENT_FOR_RAISED_ERRORS_BODY cfg
          /\ In (ELog ERROR (lit "%s Error: %s")
                      [VStr which_function; value_of_exn e]) evs).
Proof.
  intros cfg err comment_url token which_function w.
  destruct (update_comment_for_raised_errors_run
              cfg err comment_url token which_function w)
    as (body & evs & w' & Hrun & Ht & Hr & Hb & Hlog).
  exists body, evs, w'.
  split; [exact Hrun|]. split; [exact Ht|]. split; [exact Hr|].
  destruct (classify_raised_error cfg err which_function w)
    as [[chosen|e0] w1] eqn:Hc; cbn [fst] in *.
  - split; [|discriminate].
    subst body. eapply classify_raised_error_body; eauto.
  - split; [now left|].
    intros e He. split; [exact Hb|]. now apply Hlog.
Qed.

(** An object of the HTTP error class that lacks even [response]: its
    classification raises, and the comment still gets the generic body. *)
Lemma update_comment_for_raised_errors_always_raises_witness :
  exists evs w',
    update_comment_for_raised_errors
      sample_cfg malformed_error sample_comment_url sample_token
      (lit "create_remote_branch") (world_of [])
    = (Raise (error RuntimeError "Error occurred"), w')
    /\ trace w' = trace (world_of []) ++ evs
    /\ requests_of PATCH evs
       = [comment_patch sample_cfg sample_comment_url sample_token
                        (UPDATE_COMMENT_FOR_RAISED_ERRORS_BODY sample_cfg)]
    /\ In (ELog ERROR (lit "%s Error: %s")
                [VStr (lit "create_remote_branch");
                 value_of_exn (error AttributeError "response")])
          evs.
Proof.
  destruct (update_comment_for_raised_errors_always_raises
              sample_cfg malformed_error sample_comment_url sample_token
              (lit "create_remote_branch") (world_of []))
    as (body & evs & w' & Hrun & Ht & Hr & _ & Hc).
  destruct (Hc (error AttributeError "response") eq_refl) as [Hb Hlog].
  exists evs, w'. rewrite Hb in Hr. repeat split; assumption.
Defined.

(** C4, at the input of the specification's scenario: status 422 with the body
    { message: Validation Failed, errors: [{ message: No commits between
    main and feature-1 }] }, the reporter does not choose the no-changes
    text.  The test reads [message] and [errors] from the exception object,
    which has neither, so it raises inside the [try] and the comment gets the
    generic body. *)
Theorem validation_failed_gets_generic_body :
  forall cfg comment_url token which_function w,
  is_no_commits_validation (value_of_exn (http_error validation_failed))
  = Raise (error TypeError "object is not subscriptable")
  /\ exists evs w',
      update_comment_for_raised_errors
        cfg (value_of_exn (http_error validation_failed)) comment_url token
        which_function w
      = (Raise (error RuntimeError "Error occurred"), w')
      /\ trace w' = trace w ++ evs
      /\ requests_of PATCH evs
         = [comment_patch cfg comment_url token
                          (UPDATE_COMMENT_FOR_RAISED_ERRORS_BODY cfg)].
Proof.
  intros. split; [reflexivity|]. apply exception_gets_generic_body.
Qed.


(* ================================================================== *)
(** * The ref resolver and the bootstrap *)
(* ================================================================== *)

Lemma keeps_pending_bind {A B} (m : M A) (k : A -> M B) :
  keeps_pending m -> (forall a, keeps_pending (k a)) -> keeps_pending (bind m k).
Proof.
  intros Hm Hk w r w'. unfold bind.
  destruct (m w) as [[a|e] w1] eqn:E; intros H.
  - rewrite (Hk a _ _ _ H). eapply Hm; eauto.
  - inversion H; subst. eapply Hm; eauto.
Qed.

Lemma keeps_pending_ret {A} (a : A) : keeps_pending (ret a).
Proof. intros w r w' H. now inversion H. Qed.

Lemma keeps_pending_emit ev : keeps_pending (emit ev).
Proof. intros w r w' H. now inversion H. Qed.

Lemma keeps_pending_run_command c d : keeps_pending (run_command c d).
Proof.
  intros w r w'. unfold run_command. cbn [command_failures record].
  destruct (command_failures w) as [|[e|] rest]; intros H; now inversion H.
Qed.

Lemma keeps_pending_initialize_repo cfg repo_path remote_url :
  keeps_pending (initialize_repo cfg repo_path remote_url).
Proof.
  unfold initialize_repo.
  repeat (apply keeps_pending_bind; [|intros ?]);
    try apply keeps_pending_run_command.
  - intros w r w' H. now inversion H.
  - destruct (negb a); [|apply keeps_pending_ret].
    intros w r w'. unfold makedirs.
    destruct repo_path; [|destruct (existsb _ _)]; intros H; now inversion H.
  - intros w r w'. unfold write_file.
    match goal with |- context [if ?b then _ else _] => destruct b end;
      intros H; now inversion H.
Qed.

(** The scratch directory of a repository has a name. *)
Lemma scratch_directory_is_named (s : str) : lit "/tmp/repo/" ++ s <> [].
Proof. cbn. discriminate. Qed.

(** In a directory that has a name, the file system never stands in the way
    of the bootstrap: the directory is made unless it is there, and the
    README is written into it.  What is left are the five commands. *)
Lemma initialize_repo_commands cfg repo_path remote_url w :
  repo_path <> [] ->
  initialize_repo cfg repo_path remote_url w
  = (run_command (lit "git init") repo_path ;;
     emit (EWriteFile (path_join repo_path (lit "README.md"))
                      (lit "# Initial commit by [" ++ PRODUCT_NAME cfg
                           ++ lit "](" ++ PRODUCT_URL cfg ++ lit ")"
                           ++ [10%N])) ;;
     run_command (lit "git add README.md") repo_path ;;
     run_command (lit "git commit -m " ++ [34%N] ++ lit "Initial commit"
                      ++ [34%N])
                 repo_path ;;
     run_command (lit "git remote add origin " ++ remote_url) repo_path ;;
     run_command (lit "git push -u origin main") repo_path)
      (if existsb (str_eqb repo_path) (directories w) then w
       else with_directory repo_path (record (EMakedirs repo_path) w)).
Proof.
  intros Hne.
  assert (Hexists : forall w0,
             path_exists repo_path w0
             = (Ok (existsb (str_eqb repo_path) (directories w0)), w0)).
  { intros w0. unfold path_exists. destruct repo_path; [now elim Hne|].
    reflexivity. }
  assert (Hmake : forall w0,
             existsb (str_eqb repo_path) (directories w0) = false ->
             makedirs repo_path w0
             = (Ok tt, with_directory repo_path (record (EMakedirs repo_path) w0))).
  { intros w0 Hd. unfold makedirs. destruct repo_path; [now elim Hne|].
    now rewrite Hd. }
  assert (Hwrite : forall name content w0,
             existsb (str_eqb repo_path) (directories w0) = true ->
             write_file repo_path name content w0
             = emit (EWriteFile (path_join repo_path name) content) w0).
  { intros name content w0 Hd. unfold write_file. destruct repo_path;
      [now elim Hne|]. now rewrite Hd. }
  assert (Hrun : forall command w0 r w1,
             run_command command repo_path w0 = (r, w1) ->
             directories w1 = directories w0).
  { intros command w0 r w1. unfold run_command.
    destruct w0 as [pd cf d t]. cbn [command_failures record].
    destruct cf as [|[e|] cf']; intros H; inversion H; reflexivity. }
  unfold initialize_repo, bind. rewrite Hexists.
  destruct (existsb (str_eqb repo_path) (directories w)) eqn:Hd;
    cbn [negb].
  - unfold ret.
    destruct (run_command (lit "git init") repo_path w) as [[[]|e] w1] eqn:Hinit;
      [|reflexivity].
    rewrite Hwrite; [reflexivity|].
    now rewrite (Hrun _ _ _ _ Hinit).
  - rewrite (Hmake w Hd).
    destruct (run_command (lit "git init") repo_path
                          (with_directory repo_path
                                          (record (EMakedirs repo_path) w)))
      as [[[]|e] w1] eqn:Hinit; [|reflexivity].
    rewrite Hwrite; [reflexivity|].
    rewrite (Hrun _ _ _ _ Hinit). cbn [directories with_directory existsb].
    now rewrite str_eqb_refl.
Qed.

Lemma bootstraps_app (a b : list event) :
  bootstraps (a ++ b) = (bootstraps a + bootstraps b)%nat.
Proof. unfold bootstraps. now rewrite filter_app, length_app. Qed.

Lemma commands_of_app (a b : list event) :
  commands_of (a ++ b) = commands_of a ++ commands_of b.
Proof.
  induction a as [|ev a IH]; [reflexivity|].
  destruct ev; cbn [commands_of app]; now rewrite IH.
Qed.

(** With its five commands succeeding, the bootstrap completes. *)
Lemma initialize_repo_succeeds cfg repo_path remote_url w :
  repo_path <> [] ->
  commands_succeed 5 w ->
  exists evs w',
    initialize_repo cfg repo_path remote_url w = (Ok tt, w')
    /\ pending w' = pending w
    /\ command_failures w' = skipn 5 (command_failures w)
    /\ trace w' = trace w ++ evs
    /\ bootstraps evs = 1%nat
    /\ commands_of evs = bootstrap_commands remote_url
    /\ (forall m, requests_of m evs = []).
Proof.
  intros Hne Hc. rewrite (initialize_repo_commands cfg remote_url w Hne).
  destruct w as [p cf d t]. unfold commands_succeed in Hc.
  cbn [command_failures directories] in Hc |- *.
  destruct cf as [|o1 [|o2 [|o3 [|o4 [|o5 cf]]]]]; cbn [firstn] in Hc;
    repeat match goal with
           | H : Forall _ (_ :: _) |- _ => inversion H; subst; clear H
           end.
  all: unfold bind, run_command, emit, ret.
  all: destruct (existsb (str_eqb repo_path) d).
  all: cbn [command_failures record with_directory pending trace directories
            with_command_failures skipn].
  all: do 2 eexists; split; [reflexivity|].
  all: cbn [command_failures record with_directory pending trace directories
            with_command_failures];
    repeat rewrite <- app_assoc.
  all: repeat split; try reflexivity; intros []; reflexivity.
Qed.

(** A command that fails ends the bootstrap with its exception. *)
Lemma initialize_repo_fails cfg repo_path remote_url w k e rest :
  repo_path <> [] ->
  (k < 5)%nat ->
  command_failures w = repeat None k ++ Some e :: rest ->
  exists evs w',
    initialize_repo cfg repo_path remote_url w = (Raise e, w')
    /\ trace w' = trace w ++ evs
    /\ commands_of evs = firstn (S k) (bootstrap_commands remote_url)
    /\ bootstraps evs = 1%nat
    /\ (forall m, requests_of m evs = [])
    /\ command_failures w' = rest
    /\ pending w' = pending w.
Proof.
  intros Hne Hk Hc. rewrite (initialize_repo_commands cfg remote_url w Hne).
  destruct w as [p c d t]. cbn [command_failures] in Hc. subst c.
  unfold bind, run_command, emit, ret. cbn [directories].
  destruct (existsb (str_eqb repo_path) d);
    (destruct k as [|[|[|[|[|k]]]]]; [| | | | |lia]).
  all: cbn [repeat app command_failures record with_directory pending trace
            directories with_command_failures].
  all: do 2 eexists; split; [reflexivity|].
  all: cbn [command_failures record with_directory pending trace directories
            with_command_failures];
    repeat rewrite <- app_assoc.
  all: repeat split; try reflexivity; intros []; reflexivity.
Qed.

Lemma commands_succeed_add a b w :
  commands_succeed (a + b) w ->
  commands_succeed a w
  /\ Forall (fun outcome => outcome = None)
            (firstn b (skipn a (command_failures w))).
Proof.
  unfold commands_succeed. generalize (command_failures w). clear w.
  induction a as [|a IH]; intros l H; [split; [constructor|exact H]|].
  destruct l as [|o l]; cbn [Nat.add firstn skipn] in *.
  - split; [constructor|]. destruct b; constructor.
  - inversion H as [|? ? Ho Hl]; subst.
    destruct (IH l Hl) as [Ha Hb]. split; [now constructor|exact Hb].
Qed.

Lemma commands_succeed_before_failure a k e (rest : list (option exn)) w :
  command_failures w = repeat None (a + k) ++ Some e :: rest ->
  commands_succeed a w
  /\ skipn a (command_failures w) = repeat None k ++ Some e :: rest.
Proof.
  unfold commands_succeed. intros ->.
  induction a as [|a [IH1 IH2]]; [split; [constructor|reflexivity]|].
  cbn [Nat.add repeat app firstn skipn]. split; [now constructor|exact IH2].
Qed.

Section Resolver.

Variable cfg : Config.
Variables owner repo branch comment_url unique_issue_id clone_url token : str.


(** A reply that resolves gives the commit. *)
Lemma request_branch_sha_resolves w ok sha rest :
  pending w = Responds ok :: rest ->
  resolves_to ok sha ->
  request_branch_sha cfg owner repo branch token w
  = (Ok sha,
     with_pending rest (record (ref_lookup cfg owner repo branch token) w)).
Proof.
  intros Hp (Hs & body & object & Hj & Ho & Hsha).
  unfold request_branch_sha, bind, lift, http_request, response_json.
  cbn [pending record]. rewrite Hp, Hs, Hj, Ho, Hsha. reflexivity.
Qed.

(** A reply that reports the empty repository raises the HTTP error on
    which the handler's test succeeds. *)
Lemma request_branch_sha_empty w r rest :
  pending w = Responds r :: rest ->
  reports_empty_repository r ->
  request_branch_sha cfg owner repo branch token w
  = (Raise (http_error r),
     with_pending rest (record (ref_lookup cfg owner repo branch token) w))
  /\ repository_is_empty (http_error r) = Ok true.
Proof.
  intros Hp (Hs & kvs & Hj & Hm).
  unfold request_branch_sha, bind, lift, http_request, raise_for_status,
    repository_is_empty, response_json, rbind, getitem.
  cbn [pending record exn_response http_error].
  rewrite Hp, Hs, Hj, Hm. split; reflexivity.
Qed.

(** One call of the function, case by case. *)
Lemma get_latest_remote_commit_sha_step depth w :
  get_latest_remote_commit_sha_rec
    cfg (S depth) owner repo branch comment_url unique_issue_id clone_url
    token w
  = match request_branch_sha cfg owner repo branch token w with
    | (Ok sha, w1) => (Ok sha, w1)
    | (Raise e, w1) =>
        if is_http_error e then
          match repository_is_empty e with
          | Ok true =>
              match initialize_repo
                      cfg (lit "/tmp/repo/" ++ owner ++ lit "-" ++ repo)
                      clone_url
                      (record (ELog INFO
                                    (lit "Repository is empty. So, creating an initial empty commit.")
                                    [])
                              w1)
              with
              | (Ok _, w2) =>
                  get_latest_remote_commit_sha_rec
                    cfg depth owner repo branch comment_url unique_issue_id
                    clone_url token w2
              | (Raise e2, w2) => (Raise e2, w2)
              end
          | Ok false => (Raise e, w1)
          | Raise e1 => (Raise e1, w1)
          end
        else
          match update_comment_for_raised_errors
                  cfg (value_of_exn e) comment_url token
                  (lit "get_latest_remote_commit_sha") w1
          with
          | (Ok _, w2) =>
              (Raise (error RuntimeError
                            "Error: Could not get the latest commit SHA in get_latest_remote_commit_sha"),
               w2)
          | (Raise e2, w2) => (Raise e2, w2)
          end
    end.
Proof.
  cbn [get_latest_remote_commit_sha_rec]. unfold try_except.
  destruct (request_branch_sha cfg owner repo branch token w)
    as [[sha|e] w1]; [reflexivity|].
  destruct (is_http_error e); [|reflexivity].
  unfold bind, lift, emit, raise.
  destruct (repository_is_empty e) as [[|]|e1]; reflexivity.
Qed.

(** Through the replies that report the empty repository, as long as the
    commands of the bootstraps succeed and calls are left: each costs one
    lookup, one bootstrap and one nested call. *)
Lemma bootstraps_follow_empty_reports rs :
  forall depth rest w,
    (List.length rs <= depth)%nat ->
    pending w = map Responds rs ++ rest ->
    Forall reports_empty_repository rs ->
    commands_succeed (5 * List.length rs) w ->
    exists evs w1,
      get_latest_remote_commit_sha_rec
        cfg depth owner repo branch comment_url unique_issue_id clone_url
        token w
      = get_latest_remote_commit_sha_rec
          cfg (depth - List.length rs) owner repo branch comment_url
          unique_issue_id clone_url token w1
      /\ pending w1 = rest
      /\ command_failures w1
         = skipn (5 * List.length rs) (command_failures w)
      /\ trace w1 = trace w ++ evs
      /\ bootstraps evs = List.length rs
      /\ requests_of GET evs
         = repeat (ref_lookup cfg owner repo branch token) (List.length rs)
      /\ requests_of PATCH evs = []
      /\ commands_of evs
         = List.concat (repeat (bootstrap_commands clone_url)
                               (List.length rs)).
Proof.
  induction rs as [|r rs IH]; intros depth rest w Hd Hp Hrs Hc.
  - exists [], w. cbn [List.length]. rewrite Nat.sub_0_r, app_nil_r.
    repeat split; assumption.
  - destruct depth as [|depth]; [simpl in Hd; lia|].
    rewrite get_latest_remote_commit_sha_step.
    cbn [map app] in Hp. inversion Hrs as [|? ? Hr Hrs']; subst.
    destruct (request_branch_sha_empty _ Hp Hr) as [Hreq Hempty].
    rewrite Hreq, Hempty. cbn [is_http_error http_error exn_class].
    cbn [List.length] in Hc.
    replace (5 * S (List.length rs))%nat
      with (5 + 5 * List.length rs)%nat in Hc by lia.
    apply commands_succeed_add in Hc as [Hc5 Hc'].
    match goal with
    | |- context [initialize_repo cfg ?p ?u ?w0] =>
        destruct (@initialize_repo_succeeds cfg p u w0)
          as (evs1 & w2 & Hinit & Hp2 & Hc2 & Ht2 & Hb2 & Hk2 & Hr2);
          [apply scratch_directory_is_named | exact Hc5 |]
    end.
    rewrite Hinit.
    cbn [pending record with_pending trace command_failures] in Hp2, Ht2, Hc2.
    destruct (IH depth rest w2)
      as (evs & w' & Hrun & Hrest & Hcf & Ht & Hb & Hg & Hpatch & Hk);
      [simpl in Hd; lia | exact Hp2 | exact Hrs'
      | unfold commands_succeed; rewrite Hc2; exact Hc' |].
    exists ([ref_lookup cfg owner repo branch token]
              ++ [ELog INFO
                       (lit "Repository is empty. So, creating an initial empty commit.")
                       []]
              ++ evs1 ++ evs), w'.
    split; [exact Hrun|].
    split; [exact Hrest|].
    split.
    { rewrite Hcf, Hc2, skipn_skipn. cbn [List.length]. f_equal. lia. }
    split; [rewrite Ht, Ht2; now repeat rewrite <- app_assoc|].
    split; [rewrite !bootstraps_app, Hb2, Hb; reflexivity|].
    split; [rewrite !requests_of_app, Hr2, Hg; reflexivity|].
    split; [rewrite !requests_of_app, Hr2, Hpatch; reflexivity|].
    rewrite !commands_of_app, Hk2, Hk. reflexivity.
Qed.

End Resolver.

(** C1, as the code has it: there is no bound of one bootstrap and no count
    of the bootstraps.  On every report of the empty repository the function
    starts [initialize_repo] and, when its commands have succeeded, calls
    itself, as far as the interpreter allows nested calls.  After [n] such
    reports with successful bootstraps, a lookup that resolves gives its
    commit; with [n = 1] this is the one bootstrap followed by the one
    re-resolution.  A lookup that still reports the empty repository starts
    the bootstrap once more, and the function raises there only because a
    shell command fails, as [git commit] does the second time in one
    directory: the caller gets that command's exception, after [n + 1]
    lookups and [n + 1] started bootstraps, and the comment is not
    updated. *)
Theorem empty_reports_are_bootstrapped_each_time :
  forall cfg recursion_limit owner repo branch comment_url unique_issue_id
         clone_url token rs last rest w,
    pending w = map Responds rs ++ Responds last :: rest ->
    Forall reports_empty_repository rs ->
    (List.length rs <= recursion_limit)%nat ->
    (forall sha,
        resolves_to last sha ->
        commands_succeed (5 * List.length rs) w ->
        exists evs w',
          get_latest_remote_commit_sha
            cfg recursion_limit owner repo branch comment_url unique_issue_id
            clone_url token w
          = (Ok sha, w')
          /\ trace w' = trace w ++ evs
          /\ bootstraps evs = List.length rs
          /\ requests_of GET evs
             = repeat (ref_lookup cfg owner repo branch token)
                      (S (List.length rs))
          /\ pending w' = rest)
    /\ (forall k e failures,
           reports_empty_repository last ->
           (k < 5)%nat ->
           command_failures w
           = repeat None (5 * List.length rs + k) ++ Some e :: failures ->
           exists evs w',
             get_latest_remote_commit_sha
               cfg recursion_limit owner repo branch comment_url
               unique_issue_id clone_url token w
             = (Raise e, w')
             /\ trace w' = trace w ++ evs
             /\ bootstraps evs = S (List.length rs)
             /\ requests_of GET evs
                = repeat (ref_lookup cfg owner repo branch token)
                         (S (List.length rs))
             /\ requests_of PATCH evs = []
             /\ commands_of evs
                = List.concat (repeat (bootstrap_commands clone_url)
                                      (List.length rs))
                    ++ firstn (S k) (bootstrap_commands clone_url)
             /\ pending w' = rest).
Proof.
  intros cfg recursion_limit owner repo branch comment_url unique_issue_id
         clone_url token rs last rest w Hp Hrs Hlim.
  unfold get_latest_remote_commit_sha.
  split.
  - intros sha Hok Hc.
    destruct (@bootstraps_follow_empty_reports
                cfg owner repo branch comment_url unique_issue_id clone_url
                token rs (S recursion_limit) (Responds last :: rest) w)
      as (evs & w1 & Hrun & Hp1 & Hc1 & Ht1 & Hb1 & Hg1 & Hpatch1 & Hk1);
      [lia | exact Hp | exact Hrs | exact Hc |].
    rewrite Hrun.
    replace (S recursion_limit - List.length rs)%nat
      with (S (recursion_limit - List.length rs)) by lia.
    rewrite get_latest_remote_commit_sha_step.
    rewrite (@request_branch_sha_resolves cfg owner repo branch token w1 last
                                          sha rest Hp1 Hok).
    exists (evs ++ [ref_lookup cfg owner repo branch token]). eexists.
    split; [reflexivity|].
    cbn [trace record with_pending pending].
    split; [rewrite Ht1; now rewrite <- app_assoc|].
    split; [rewrite bootstraps_app, Hb1; cbn; lia|].
    split; [|reflexivity].
    rewrite requests_of_app, Hg1. cbn [requests_of filter is_request ref_lookup].
    now rewrite <- repeat_cons.
  - intros k e failures Hempty Hk Hc.
    apply commands_succeed_before_failure in Hc as [Hc5 Hskip].
    destruct (@bootstraps_follow_empty_reports
                cfg owner repo branch comment_url unique_issue_id clone_url
                token rs (S recursion_limit) (Responds last :: rest) w)
      as (evs & w1 & Hrun & Hp1 & Hc1 & Ht1 & Hb1 & Hg1 & Hpatch1 & Hk1);
      [lia | exact Hp | exact Hrs | exact Hc5 |].
    rewrite Hrun.
    replace (S recursion_limit - List.length rs)%nat
      with (S (recursion_limit - List.length rs)) by lia.
    rewrite get_latest_remote_commit_sha_step.
    destruct (@request_branch_sha_empty cfg owner repo branch token w1 last
                                        rest Hp1 Hempty) as [Hreq Hem].
    rewrite Hreq, Hem. cbn [is_http_error http_error exn_class].
    match goal with
    | |- context [initialize_repo cfg ?p ?u ?w0] =>
        destruct (@initialize_repo_fails cfg p u w0 k e failures)
          as (evs2 & w2 & Hinit & Ht2 & Hk2 & Hb2 & Hr2 & Hcf2 & Hp2);
          [apply scratch_directory_is_named | exact Hk
          | cbn [command_failures record with_pending]; rewrite Hc1;
            exact Hskip |]
    end.
    rewrite Hinit.
    cbn [pending record with_pending trace] in Hp2, Ht2.
    exists (evs ++ [ref_lookup cfg owner repo branch token]
                ++ [ELog INFO
                         (lit "Repository is empty. So, creating an initial empty commit.")
                         []]
                ++ evs2), w2.
    split; [reflexivity|].
    split; [rewrite Ht2, Ht1; now repeat rewrite <- app_assoc|].
    split; [rewrite !bootstraps_app, Hb1, Hb2; cbn; lia|].
    split.
    { rewrite !requests_of_app, Hg1, Hr2.
      cbn [requests_of filter is_request ref_lookup app].
      now rewrite <- repeat_cons. }
    split; [rewrite !requests_of_app, Hpatch1, Hr2; reflexivity|].
    split; [|exact Hp2].
    rewrite !commands_of_app, Hk1, Hk2. reflexivity.
Qed.

Lemma empty_repository_reports_empty :
  reports_empty_repository empty_repository.
Proof. split; [reflexivity|]. eexists. split; reflexivity. Qed.

Lemma ref_found_resolves (sha : str) : resolves_to (ref_found sha) (VStr sha).
Proof. split; [reflexivity|]. do 2 eexists. repeat split. Qed.

(** One empty report: after the bootstrap the second lookup gives the
    commit.  Two empty reports, in the directory of the first bootstrap: the
    second bootstrap is started, its [git commit] fails, and that failure is
    what the caller gets. *)
Lemma empty_reports_are_bootstrapped_each_time_witness :
  (exists evs w',
      get_latest_remote_commit_sha
        sample_cfg sample_recursion_limit octocat hello (lit "main")
        sample_comment_url sample_issue_id sample_clone_url sample_token
        (world_of [Responds empty_repository; Responds (ref_found (lit "abc"))])
      = (Ok (VStr (lit "abc")), w')
      /\ trace w'
         = trace (world_of [Responds empty_repository;
                            Responds (ref_found (lit "abc"))]) ++ evs
      /\ bootstraps evs = 1%nat
      /\ requests_of GET evs
         = repeat (ref_lookup sample_cfg octocat hello (lit "main")
                              sample_token) 2
      /\ pending w' = [])
  /\ (exists evs w',
         get_latest_remote_commit_sha
           sample_cfg sample_recursion_limit octocat hello (lit "main")
           sample_comment_url sample_issue_id sample_clone_url sample_token
           (world_with [Responds empty_repository; Responds empty_repository;
                        Responds (ref_found (lit "abc"))]
                       second_commit_fails)
         = (Raise nothing_to_commit, w')
         /\ trace w'
            = trace (world_with [Responds empty_repository;
                                 Responds empty_repository;
                                 Responds (ref_found (lit "abc"))]
                                second_commit_fails) ++ evs
         /\ bootstraps evs = 2%nat
         /\ requests_of GET evs
            = repeat (ref_lookup sample_cfg octocat hello (lit "main")
                                 sample_token) 2
         /\ requests_of PATCH evs = []
         /\ commands_of evs
            = List.concat (repeat (bootstrap_commands sample_clone_url) 1)
                ++ firstn 3 (bootstrap_commands sample_clone_url)
         /\ pending w' = [Responds (ref_found (lit "abc"))]).
Proof.
  split.
  - apply (proj1 (@empty_reports_are_bootstrapped_each_time
                    sample_cfg sample_recursion_limit octocat hello (lit "main")
                    sample_comment_url sample_issue_id sample_clone_url
                    sample_token
                    [empty_repository] (ref_found (lit "abc")) []
                    (world_of [Responds empty_repository;
                               Responds (ref_found (lit "abc"))])
                    eq_refl
                    (Forall_cons _ empty_repository_reports_empty
                                 (Forall_nil _))
                    ltac:(unfold sample_recursion_limit; simpl; lia))).
    + apply ref_found_resolves.
    + constructor.
  - apply (proj2 (@empty_reports_are_bootstrapped_each_time
                    sample_cfg sample_recursion_limit octocat hello (lit "main")
                    sample_comment_url sample_issue_id sample_clone_url
                    sample_token
                    [empty_repository] empty_repository
                    [Responds (ref_found (lit "abc"))]
                    (world_with [Responds empty_repository;
                                 Responds empty_repository;
                                 Responds (ref_found (lit "abc"))]
                                second_commit_fails)
                    eq_refl
                    (Forall_cons _ empty_repository_reports_empty
                                 (Forall_nil _))
                    ltac:(unfold sample_recursion_limit; simpl; lia))
                 2%nat nothing_to_commit []).
    + exact empty_repository_reports_empty.
    + lia.
    + reflexivity.
Defined.

(** C1, as the specification states it, does not hold: the code has no bound
    of one bootstrap.  When the re-resolution still reports the empty
    repository, the bootstrap is started a second time; the run below is the
    one that git gives in the directory of the first bootstrap, where the
    second [git commit] fails. *)
Lemma second_empty_report_starts_another_bootstrap :
  ~ (forall cfg recursion_limit owner repo branch comment_url unique_issue_id
            clone_url token r1 r2 rest w,
        pending w = Responds r1 :: Responds r2 :: rest ->
        reports_empty_repository r1 ->
        reports_empty_repository r2 ->
        commands_succeed 5 w ->
        (exists e,
            fst (get_latest_remote_commit_sha
                   cfg recursion_limit owner repo branch comment_url
                   unique_issue_id clone_url token w) = Raise e)
        /\ (bootstraps
              (trace (snd (get_latest_remote_commit_sha
                             cfg recursion_limit owner repo branch comment_url
                             unique_issue_id clone_url token w)))
            <= bootstraps (trace w) + 1)%nat).
Proof.
  intros H.
  destruct (H sample_cfg sample_recursion_limit octocat hello (lit "main")
              sample_comment_url sample_issue_id sample_clone_url sample_token
              empty_repository empty_repository
              [Responds (ref_found (lit "abc"))]
              (world_with [Responds empty_repository; Responds empty_repository;
                           Responds (ref_found (lit "abc"))]
                          second_commit_fails)
              eq_refl empty_repository_reports_empty
              empty_repository_reports_empty)
    as [_ Hb].
  - unfold commands_succeed. cbn. repeat constructor.
  - vm_compute in Hb. lia.
Qed.

Example second_empty_report_run :
  let run :=
    get_latest_remote_commit_sha
      sample_cfg sample_recursion_limit octocat hello (lit "main")
      sample_comment_url sample_issue_id sample_clone_url sample_token
      (world_with [Responds empty_repository; Responds empty_repository;
                   Responds (ref_found (lit "abc"))]
                  second_commit_fails) in
  fst run = Raise nothing_to_commit
  /\ bootstraps (trace (snd run)) = 2%nat
  /\ List.length (requests_of GET (trace (snd run))) = 2%nat
  /\ requests_of PATCH (trace (snd run)) = [].
Proof. vm_compute. repeat split. Qed.

(** The interpreter's limit is what ends the recursion when neither the
    network nor git does: with one empty report more than there are nested
    calls, and every command succeeding, the last nested call is refused
    with [RecursionError], after as many bootstraps as there were reports. *)
Lemma recursion_limit_ends_the_bootstraps :
  forall cfg recursion_limit owner repo branch comment_url unique_issue_id
         clone_url token rs rest w,
    pending w = map Responds rs ++ rest ->
    Forall reports_empty_repository rs ->
    List.length rs = S recursion_limit ->
    commands_succeed (5 * List.length rs) w ->
    exists evs w',
      get_latest_remote_commit_sha
        cfg recursion_limit owner repo branch comment_url unique_issue_id
        clone_url token w
      = (Raise (error RecursionError "maximum recursion depth exceeded"), w')
      /\ trace w' = trace w ++ evs
      /\ bootstraps evs = S recursion_limit
      /\ pending w' = rest.
Proof.
  intros cfg recursion_limit owner repo branch comment_url unique_issue_id
         clone_url token rs rest w Hp Hrs Hlen Hc.
  unfold get_latest_remote_commit_sha.
  destruct (@bootstraps_follow_empty_reports
              cfg owner repo branch comment_url unique_issue_id clone_url
              token rs (S recursion_limit) rest w)
    as (evs & w1 & Hrun & Hp1 & Hc1 & Ht1 & Hb1 & Hg1 & Hpatch1 & Hk1);
    [lia | exact Hp | exact Hrs | exact Hc |].
  rewrite Hrun, Hlen, Nat.sub_diag.
  exists evs, w1. repeat split; try assumption. now rewrite Hb1.
Qed.

Example recursion_limit_of_one :
  fst (get_latest_remote_commit_sha
         sample_cfg 1 octocat hello (lit "main") sample_comment_url
         sample_issue_id sample_clone_url sample_token
         (world_of [Responds empty_repository; Responds empty_repository;
                    Responds (ref_found (lit "abc"))]))
  = Raise (error RecursionError "maximum recursion depth exceeded").
Proof. vm_compute. reflexivity. Qed.




Example not_found_run :
  let run :=
    get_latest_remote_commit_sha
      sample_cfg sample_recursion_limit octocat hello (lit "gone")
      sample_comment_url
      sample_issue_id sample_clone_url
      sample_token (world_of [Responds not_found]) in
  fst run = Raise (http_error not_found)
  /\ requests_of PATCH (trace (snd run)) = []
  /\ requests_of GET (trace (snd run))
     = [ref_lookup sample_cfg octocat hello (lit "gone")
                   sample_token].
Proof. vm_compute. repeat split. Qed.


(* ================================================================== *)
(** * The content mutation engine *)
(* ================================================================== *)

Section Engine.

Variable cfg : Config.
Variable apply_patch : str -> str -> result str.
Variables branch commit_message diff_text file_path owner repo token : str.

(** A patch result that is the empty text: the function returns after the
    read. *)
Lemma commit_changes_noop w r rest original_text sha :
  pending w = Responds r :: rest ->
  read_baseline r = Ok (original_text, sha) ->
  apply_patch original_text diff_text = Ok [] ->
  commit_changes_to_remote_branch
    cfg apply_patch branch commit_message diff_text file_path owner repo
    token w
  = (Ok tt, after_read cfg owner repo file_path token r rest w).
Proof.
  intros Hp Hr Ha.
  unfold commit_changes_to_remote_branch, commit_changes_to_remote_branch_body,
    handle_exceptions, try_except, bind, lift, emit, ret, http_request.
  cbn [pending record]. rewrite Hp, Hr. cbn [fst snd]. rewrite Ha.
  reflexivity.
Qed.



End Engine.

(** C10: when the patch yields the empty text, the function returns after
    the read without a write, whatever the baseline was; a patch that removes
    all the content of a file that has some is dropped without a trace beyond
    the read and the printed status. *)
Theorem empty_patch_result_is_never_written :
  forall cfg apply_patch branch commit_message diff_text file_path owner repo
         token w r rest original_text sha,
    pending w = Responds r :: rest ->
    read_baseline r = Ok (original_text, sha) ->
    apply_patch original_text diff_text = Ok [] ->
    exists w',
      commit_changes_to_remote_branch
        cfg apply_patch branch commit_message diff_text file_path owner repo
        token w
      = (Ok tt, w')
      /\ trace w'
         = trace w
             ++ [file_read cfg owner repo file_path token;
                 EPrint [VStr (lit "response.status_code=");
                         VInt (status_code r)]]
      /\ requests_of PUT (trace w') = requests_of PUT (trace w)
      /\ pending w' = rest.
Proof.
  intros cfg apply_patch branch commit_message diff_text file_path owner repo
         token w r rest original_text sha Hp Hr Ha.
  eexists. split; [eapply commit_changes_noop; eauto|].
  unfold after_read. cbn [trace record with_pending pending].
  rewrite <- app_assoc. repeat split.
  now rewrite !requests_of_app, !app_nil_r.
Qed.

(** A file that holds "hi", and a patch that removes it all. *)
Lemma empty_patch_result_is_never_written_witness :
  exists w',
    commit_changes_to_remote_branch
      sample_cfg erase_patch (lit "feature-1") (lit "Update greeting.txt")
      (lit "-hi") (lit "greeting.txt") octocat hello sample_token
      (world_of [Responds (file_found (lit "aGk=") (lit "abc"))])
    = (Ok tt, w')
    /\ trace w'
       = trace (world_of [Responds (file_found (lit "aGk=") (lit "abc"))])
           ++ [file_read sample_cfg octocat hello (lit "greeting.txt")
                         sample_token;
               EPrint [VStr (lit "response.status_code=");
                       VInt (status_code (file_found (lit "aGk=") (lit "abc")))]]
    /\ requests_of PUT (trace w')
       = requests_of PUT
           (trace (world_of [Responds (file_found (lit "aGk=") (lit "abc"))]))
    /\ pending w' = [].
Proof.
  apply (@empty_patch_result_is_never_written
           sample_cfg erase_patch (lit "feature-1") (lit "Update greeting.txt")
           (lit "-hi") (lit "greeting.txt") octocat hello sample_token
           (world_of [Responds (file_found (lit "aGk=") (lit "abc"))])
           (file_found (lit "aGk=") (lit "abc")) []
           (lit "hi") (VStr (lit "abc"))).
  - reflexivity.
  - reflexivity.
  - reflexivity.
Defined.

(** C3, as the code has it.  After a read that gave a baseline, what decides
    the write is the patch result alone, and not whether it differs from the
    baseline.  Nothing is written when the patch helper raises, when it
    yields the empty text, and when it yields a text that UTF-8 cannot
    encode; every other result is written with one PUT that carries the
    version tag of the read, also when the result equals the baseline.  So a
    second application of a diff performs no write only if the patch helper
    then yields one of the three. *)
Theorem write_is_decided_by_the_patch_result :
  forall cfg apply_patch branch commit_message diff_text file_path owner repo
         token w r rest original_text sha,
    pending w = Responds r :: rest ->
    read_baseline r = Ok (original_text, sha) ->
    exists evs w',
      commit_changes_to_remote_branch
        cfg apply_patch branch commit_message diff_text file_path owner repo
        token w
      = (Ok tt, w')
      /\ trace w'
         = trace (after_read cfg owner repo file_path token r rest w) ++ evs
      /\ requests_of PUT evs
         = match apply_patch original_text diff_text with
           | Ok (c :: m) =>
               match utf8_encode (c :: m) with
               | Ok encoded =>
                   [file_write cfg owner repo file_path token
                               (put_data commit_message (b64encode encoded)
                                         branch sha)]
               | Raise _ => []
               end
           | Ok [] => []
           | Raise _ => []
           end
      /\ requests_of GET evs = []
      /\ requests_of POST evs = []
      /\ requests_of PATCH evs = [].
Proof.
  intros cfg apply_patch branch commit_message diff_text file_path owner repo
         token w r rest original_text sha Hp Hr.
  destruct w as [p cf d t]. cbn [pending] in Hp. subst p.
  unfold commit_changes_to_remote_branch, commit_changes_to_remote_branch_body,
    handle_exceptions, try_except, bind, lift, emit, ret, raise, http_request.
  cbn [pending record with_pending]. rewrite Hr. cbn [fst snd].
  destruct (apply_patch original_text diff_text) as [[|c m]|e1].
  2: destruct (utf8_encode (c :: m)) as [encoded|e2];
    cbn [pending record with_pending].
  2: destruct rest as [|[r2|e2] rest2];
    [| destruct (raise_for_status r2) as [[]|e3] |].
  all: do 2 eexists; split; [reflexivity|].
  all: unfold after_read, file_write, file_read;
    cbn [trace record with_pending]; repeat rewrite <- app_assoc.
  all: split; [repeat f_equal; try reflexivity; symmetry; apply app_nil_r|].
  all: repeat split; reflexivity.
Qed.

(** The diff is already applied and the patch helper hands the text back as
    it is: the text is written again. *)
Lemma write_is_decided_by_the_patch_result_witness :
  exists evs w',
    commit_changes_to_remote_branch
      sample_cfg keep_patch (lit "feature-1") (lit "Update greeting.txt")
      (lit "+hi") (lit "greeting.txt") octocat hello sample_token
      (world_of [Responds (file_found (lit "aGk=") (lit "abc"));
                 Responds file_written])
    = (Ok tt, w')
    /\ trace w'
       = trace (after_read sample_cfg octocat hello (lit "greeting.txt")
                           sample_token (file_found (lit "aGk=") (lit "abc"))
                           [Responds file_written]
                           (world_of [Responds (file_found (lit "aGk=") (lit "abc"));
                                      Responds file_written]))
           ++ evs
    /\ requests_of PUT evs
       = [file_write sample_cfg octocat hello (lit "greeting.txt")
                     sample_token
                     (VDict [(lit "message", VStr (lit "Update greeting.txt"));
                             (lit "content", VStr (lit "aGk="));
                             (lit "branch", VStr (lit "feature-1"));
                             (lit "sha", VStr (lit "abc"))])]
    /\ requests_of GET evs = []
    /\ requests_of POST evs = []
    /\ requests_of PATCH evs = [].
Proof.
  exact (@write_is_decided_by_the_patch_result
           sample_cfg keep_patch (lit "feature-1")
           (lit "Update greeting.txt") (lit "+hi") (lit "greeting.txt")
           octocat hello sample_token
           (world_of [Responds (file_found (lit "aGk=") (lit "abc"));
                      Responds file_written])
           (file_found (lit "aGk=") (lit "abc")) [Responds file_written]
           (lit "hi") (VStr (lit "abc")) eq_refl eq_refl).
Defined.

(** The three results that are not written: the empty text, a text with a
    lone surrogate, and a patch helper that raises. *)
Example results_that_are_not_written :
  let puts patch :=
    requests_of PUT
      (trace (snd (commit_changes_to_remote_branch
                     sample_cfg patch (lit "feature-1")
                     (lit "Update greeting.txt") (lit "+hi")
                     (lit "greeting.txt") octocat hello sample_token
                     (world_of [Responds (file_found (lit "aGk=") (lit "abc"));
                                Responds file_written])))) in
  puts erase_patch = [] /\ puts surrogate_patch = [] /\ puts failing_patch = [].
Proof. vm_compute. repeat split. Qed.

(** C3, as the specification states it, does not hold:
    a patch application that yields no
    change, the result being the baseline itself, is followed by a write. *)
Lemma unchanged_text_is_written_again :
  ~ (forall cfg apply_patch branch commit_message diff_text file_path owner
            repo token w r rest original_text sha,
        pending w = Responds r :: rest ->
        read_baseline r = Ok (original_text, sha) ->
        apply_patch original_text diff_text = Ok original_text ->
        requests_of PUT
          (trace (snd (commit_changes_to_remote_branch
                         cfg apply_patch branch commit_message diff_text
                         file_path owner repo token w)))
        = requests_of PUT (trace w)).
Proof.
  intros H.
  specialize (H sample_cfg keep_patch (lit "feature-1")
                (lit "Update greeting.txt") (lit "+hi") (lit "greeting.txt")
                octocat hello sample_token
                (world_of [Responds (file_found (lit "aGk=") (lit "abc"));
                           Responds file_written])
                (file_found (lit "aGk=") (lit "abc")) [Responds file_written]
                (lit "hi") (VStr (lit "abc")) eq_refl eq_refl eq_refl).
  vm_compute in H. discriminate H.
Qed.




(** What that write carries is the three lines, and nothing else. *)
Example readme_content_is_the_three_lines :
  (let* raw := b64decode (VStr (lit "IyBUaXRsZQoKSGVsbG8K")) in
   utf8_decode Strict raw) = Ok readme_text
  /\ split_lines readme_text [] = [lit "# Title"; []; lit "Hello"].
Proof. split; reflexivity. Qed.

(** A file that exists: the write carries the [sha] that the read saw. *)
Example existing_file_write_carries_sha :
  requests_of PUT
    (trace (snd (commit_changes_to_remote_branch
                   sample_cfg append_patch (lit "feature-1")
                   (lit "Update notes.txt") notes_diff (lit "notes.txt")
                   octocat hello sample_token
                   (world_of [Responds (file_found (lit "aGk=") (lit "abc"));
                              Responds file_written]))))
  = [file_write sample_cfg octocat hello (lit "notes.txt") sample_token
       (VDict [(lit "message", VStr (lit "Update notes.txt"));
               (lit "content", VStr (lit "aGlub3RlCg=="));
               (lit "branch", VStr (lit "feature-1"));
               (lit "sha", VStr (lit "abc"))])].
Proof. vm_compute. reflexivity. Qed.

(* ------------------------------------------------------------------ *)
(** ** The batch *)

Section Batch.

Variable cfg : Config.
Variable apply_patch : str -> str -> result str.
Variable extract_file_name : str -> result str.
Variables new_branch owner repo token : str.


End Batch.



Example batch_after_a_failed_commit_run :
  let run :=
    commit_multiple_changes_to_remote_branch
      sample_cfg append_patch sample_extract_file_name
      [readme_diff; notes_diff] (lit "feature-1") octocat hello sample_token
      (world_of [Responds server_error; Responds not_found;
                 Responds file_written]) in
  fst run = Ok tt
  /\ requests_of GET (trace (snd run))
     = [file_read sample_cfg octocat hello (lit "README.md") sample_token;
        file_read sample_cfg octocat hello (lit "notes.txt") sample_token]
  /\ requests_of PUT (trace (snd run))
     = [file_write sample_cfg octocat hello (lit "notes.txt") sample_token
          (VDict [(lit "message", VStr (lit "Update notes.txt"));
                  (lit "content", VStr (lit "bm90ZQo="));
                  (lit "branch", VStr (lit "feature-1"))])].
Proof. vm_compute. repeat split. Qed.


(* ================================================================== *)
(** * Decoding of remote file content *)
(* ================================================================== *)

(** The read step of the mutation engine decodes with [errors="replace"]: no
    content makes its decoding raise. *)
Lemma read_baseline_decoding_never_raises (raw : bytes) :
  exists original_text, utf8_decode Replace raw = Ok original_text.
Proof. apply utf8_decode_replace_total. Qed.

(** C9 at its failing input: a file whose content is the byte 0xFF.  The
    read step of the mutation engine decodes it to U+FFFD;
    [get_remote_file_content] decodes without a replacement policy, the
    decoding raises [UnicodeDecodeError], and the decorator turns that into
    the default return value, the empty text. *)
Theorem get_remote_file_content_decodes_strictly :
  forall cfg describe_image,
    b64decode (VStr (lit "/w==")) = Ok [xff]
    /\ read_baseline undecodable_file = Ok ([65533%N], VStr (lit "abc"))
    /\ utf8_decode Strict [xff]
       = Raise (error UnicodeDecodeError "invalid utf-8")
    /\ get_remote_file_content
         cfg describe_image (lit "data.bin") octocat (lit "main") hello
         sample_token (world_of [Responds undecodable_file])
       = (Ok (VStr []),
          {| pending := [];
             command_failures := [];
             directories := [];
             trace :=
               [EHttp GET
                      (contents_url cfg octocat hello (lit "data.bin")
                         ++ lit "?ref=" ++ lit "main")
                      (create_headers cfg sample_token) None;
                ELog ERROR (lit "handle_exceptions: %s")
                     [value_of_exn
                        (error UnicodeDecodeError "invalid utf-8")]] |}).
Proof.
  intros cfg describe_image. repeat split.
Qed.


(* ================================================================== *)
(** * The signature verifier *)
(* ================================================================== *)

Section Verifier.

Variable hmac_sha256 : bytes -> bytes -> bytes.

Lemma expected_signature_is_ascii key body :
  is_ascii (expected_signature hmac_sha256 key body) = true.
Proof.
  unfold expected_signature. rewrite is_ascii_app, hex_is_ascii.
  reflexivity.
Qed.

(** What the verifier does once the header and the key are there. *)
Lemma verify_webhook_signature_compared request secret key signature w :
  headers_get request "X-Hub-Signature-256" = Some signature ->
  utf8_encode secret = Ok key ->
  verify_webhook_signature hmac_sha256 request secret w
  = handle_exceptions tt true
      (same <- lift (compare_digest
                       signature
                       (expected_signature hmac_sha256 key (raw_body request))) ;;
       if negb same
       then raise (error ValueError "Invalid webhook signature")
       else ret tt) w.
Proof.
  intros Hh Hk.
  unfold verify_webhook_signature, handle_exceptions, try_except.
  rewrite Hh. unfold bind at 1. unfold lift at 1. rewrite Hk. reflexivity.
Qed.

End Verifier.

(** C7, as the code has it.  Without the header the verifier raises the
    signature-missing error.  With a header equal to "sha256=" followed by the
    hex HMAC it returns.  With any other header it raises: the
    signature-invalid error when the header is ASCII, and the [TypeError] of
    [hmac.compare_digest] when the header holds a character outside ASCII. *)
Theorem signature_verification :
  forall hmac_sha256 request secret key w,
    utf8_encode secret = Ok key ->
    (headers_get request "X-Hub-Signature-256" = None ->
     fst (verify_webhook_signature hmac_sha256 request secret w)
     = Raise (error ValueError "Missing webhook signature"))
    /\ (forall signature,
          headers_get request "X-Hub-Signature-256" = Some signature ->
          (signature = expected_signature hmac_sha256 key (raw_body request) ->
           verify_webhook_signature hmac_sha256 request secret w = (Ok tt, w))
          /\ (signature <> expected_signature hmac_sha256 key (raw_body request) ->
              is_ascii signature = true ->
              fst (verify_webhook_signature hmac_sha256 request secret w)
              = Raise (error ValueError "Invalid webhook signature"))
          /\ (is_ascii signature = false ->
              fst (verify_webhook_signature hmac_sha256 request secret w)
              = Raise (error TypeError
                             "comparing strings with non-ASCII characters is not supported"))).
Proof.
  intros hmac_sha256 request secret key w Hk. split.
  - intros Hh.
    unfold verify_webhook_signature, handle_exceptions, try_except.
    rewrite Hh. reflexivity.
  - intros signature Hh.
    rewrite (verify_webhook_signature_compared hmac_sha256 request secret w Hh Hk).
    unfold handle_exceptions, try_except, bind, lift, emit, raise, ret,
      compare_digest.
    rewrite expected_signature_is_ascii.
    repeat split.
    + intros ->. rewrite expected_signature_is_ascii, str_eqb_refl.
      reflexivity.
    + intros Hne Ha. rewrite Ha, (str_eqb_neq Hne). reflexivity.
    + intros Ha. rewrite Ha. reflexivity.
Qed.

(** A delivery that carries the expected signature passes. *)
Lemma signature_verification_witness :
  verify_webhook_signature sample_mac signed_request (lit "s") (world_of [])
  = (Ok tt, world_of []).
Proof.
  apply (proj1 (proj2 (@signature_verification
                         sample_mac signed_request (lit "s") [x73]
                         (world_of []) eq_refl)
                      _ eq_refl)).
  reflexivity.
Defined.

Example signed_request_passes :
  headers_get signed_request "X-Hub-Signature-256"
  = Some (expected_signature sample_mac [x73] (raw_body signed_request))
  /\ verify_webhook_signature sample_mac signed_request (lit "s") (world_of [])
     = (Ok tt, world_of []).
Proof. split; reflexivity. Qed.

(** C7, as the specification states it, does not hold:
    a signature header that differs from
    the expected one does not always give the signature-invalid error.  A
    header with the byte 0xE9 is decoded to a character outside ASCII, and
    the comparison raises [TypeError]. *)
Lemma non_ascii_signature_is_a_type_error :
  ~ (forall hmac_sha256 request secret key signature w,
        utf8_encode secret = Ok key ->
        headers_get request "X-Hub-Signature-256" = Some signature ->
        signature <> expected_signature hmac_sha256 key (raw_body request) ->
        fst (verify_webhook_signature hmac_sha256 request secret w)
        = Raise (error ValueError "Invalid webhook signature")).
Proof.
  intros H.
  specialize (H sample_mac latin1_request (lit "s") [x73] [233%N] (world_of [])
                eq_refl eq_refl).
  assert (Hne : [233%N]
                <> expected_signature sample_mac [x73] (raw_body latin1_request)).
  { intros Heq. vm_compute in Heq. discriminate Heq. }
  specialize (H Hne). vm_compute in H. discriminate H.
Qed.

Example non_ascii_signature_run :
  fst (verify_webhook_signature sample_mac latin1_request (lit "s")
                                (world_of []))
  = Raise (error TypeError
                 "comparing strings with non-ASCII characters is not supported").
Proof. reflexivity. Qed.


(* ================================================================== *)
(** * Round trips of the codecs *)
(* ================================================================== *)

Lemma byte_of_to_N (b : byte) : byte_of_N (Byte.to_N b) = b.
Proof. unfold byte_of_N. now rewrite Byte.of_to_N. Qed.

Lemma byte_to_of_N (n : N) : (n < 256)%N -> Byte.to_N (byte_of_N n) = n.
Proof.
  intros H. unfold byte_of_N.
  destruct (Byte.of_N n) as [b|] eqn:E.
  - now apply Byte.to_of_N.
  - apply Byte.of_N_None_iff in E. lia.
Qed.

Lemma b64_value_char (n : N) : (n < 64)%N -> b64_value (b64_char n) = Some n.
Proof.
  intros H. unfold b64_char, b64_value.
  repeat match goal with
         | |- context [N.ltb ?a ?b] => destruct (N.ltb_spec a b)
         | |- context [N.leb ?a ?b] => destruct (N.leb_spec a b)
         | |- context [N.eqb ?a ?b] => destruct (N.eqb_spec a b)
         end; cbn [andb]; try (f_equal; lia); try lia.
Qed.

Lemma b64_char_not_pad (n : N) : N.eqb (b64_char n) 61 = false.
Proof.
  apply N.eqb_neq. unfold b64_char.
  repeat match goal with
         | |- context [N.ltb ?a ?b] => destruct (N.ltb_spec a b)
         | |- context [N.eqb ?a ?b] => destruct (N.eqb_spec a b)
         end; lia.
Qed.

Lemma b64_char_ascii (n : N) : (n < 64)%N -> N.ltb (b64_char n) 128 = true.
Proof.
  intros H. apply N.ltb_lt. unfold b64_char.
  repeat match goal with
         | |- context [N.ltb ?a ?b] => destruct (N.ltb_spec a b)
         | |- context [N.eqb ?a ?b] => destruct (N.eqb_spec a b)
         end; lia.
Qed.

(** Division and remainder by constants, for [lia]. *)
Ltac div_lia :=
  zify; Z.to_euclidean_division_equations; lia.

Lemma b64_quad_values (A B C : N) :
  (A < 256)%N -> (B < 256)%N -> (C < 256)%N ->
  (A / 4 < 64 /\ A mod 4 * 16 + B / 16 < 64
   /\ B mod 16 * 4 + C / 64 < 64 /\ C mod 64 < 64
   /\ A / 4 * 4 + (A mod 4 * 16 + B / 16) / 16 = A
   /\ (A mod 4 * 16 + B / 16) mod 16 * 16 + (B mod 16 * 4 + C / 64) / 4 = B
   /\ (B mod 16 * 4 + C / 64) mod 4 * 64 + C mod 64 = C)%N.
Proof. intros HA HB HC. repeat split; div_lia. Qed.

Lemma list_ind_by_three {A} (P : list A -> Prop) :
  P [] ->
  (forall a, P [a]) ->
  (forall a b, P [a; b]) ->
  (forall a b c l, P l -> P (a :: b :: c :: l)) ->
  forall l, P l.
Proof.
  intros H0 H1 H2 H3.
  assert (H : forall l, P l /\ (forall a, P (a :: l))
                        /\ (forall a b, P (a :: b :: l))).
  { induction l as [|x l (IH0 & IH1 & IH2)]; repeat split; auto. }
  intros l. apply H.
Qed.

(** One quad of the encoder read back by the decoder. *)
Lemma a2b_base64_quad (a b c : byte) (cs : str) (out : bytes) :
  a2b_base64
    (b64_char (Byte.to_N a / 4)
       :: b64_char (Byte.to_N a mod 4 * 16 + Byte.to_N b / 16)
       :: b64_char (Byte.to_N b mod 16 * 4 + Byte.to_N c / 64)
       :: b64_char (Byte.to_N c mod 64) :: cs)
    0 0 0 out
  = a2b_base64 cs 0 0 0 (c :: b :: a :: out).
Proof.
  destruct (b64_quad_values (byte_to_N_bound a) (byte_to_N_bound b)
                            (byte_to_N_bound c))
    as (H0 & H1 & H2 & H3 & Ha & Hb & Hc).
  cbn [a2b_base64].
  rewrite !b64_char_not_pad.
  rewrite (b64_value_char H0), (b64_value_char H1), (b64_value_char H2),
    (b64_value_char H3).
  rewrite Ha, Hb, Hc, !byte_of_to_N. reflexivity.
Qed.

(** Decoding what the encoder produced gives the bytes back. *)
Lemma a2b_base64_b64encode (bs : bytes) :
  forall out, a2b_base64 (b64encode bs) 0 0 0 out = Ok (rev out ++ bs).
Proof.
  induction bs as [|a|a b|a b c l IH] using list_ind_by_three; intros out.
  - cbn. now rewrite app_nil_r.
  - destruct (b64_quad_values (byte_to_N_bound a) (byte_to_N_bound x00)
                              (byte_to_N_bound x00))
      as (H0 & H1 & _ & _ & Ha & _ & _).
    cbn [b64encode a2b_base64].
    change (Byte.to_N x00) with 0%N in *.
    rewrite N.add_0_r in H1, Ha.
    rewrite !b64_char_not_pad, (b64_value_char H0), (b64_value_char H1).
    cbn [N.eqb Pos.eqb Nat.leb Nat.add].
    rewrite Ha, byte_of_to_N. cbn [rev]. now rewrite <- ?app_assoc.
  - destruct (b64_quad_values (byte_to_N_bound a) (byte_to_N_bound b)
                              (byte_to_N_bound x00))
      as (H0 & H1 & H2 & _ & Ha & Hb & _).
    cbn [b64encode a2b_base64].
    change (Byte.to_N x00) with 0%N in *.
    rewrite N.add_0_r in H2, Hb.
    rewrite !b64_char_not_pad, (b64_value_char H0), (b64_value_char H1),
      (b64_value_char H2).
    cbn [N.eqb Pos.eqb Nat.leb Nat.add].
    rewrite Ha, Hb, !byte_of_to_N. cbn [rev]. now rewrite <- ?app_assoc.
  - cbn [b64encode]. rewrite a2b_base64_quad, IH.
    cbn [rev]. now rewrite <- ?app_assoc.
Qed.

Lemma b64encode_is_ascii (bs : bytes) : is_ascii (b64encode bs) = true.
Proof.
  induction bs as [|a|a b|a b c l IH] using list_ind_by_three.
  - reflexivity.
  - destruct (b64_quad_values (byte_to_N_bound a) (byte_to_N_bound x00)
                              (byte_to_N_bound x00))
      as (H0 & H1 & _).
    change (Byte.to_N x00) with 0%N in *. rewrite N.add_0_r in H1.
    cbn [b64encode is_ascii forallb].
    now rewrite (b64_char_ascii H0), (b64_char_ascii H1).
  - destruct (b64_quad_values (byte_to_N_bound a) (byte_to_N_bound b)
                              (byte_to_N_bound x00))
      as (H0 & H1 & H2 & _).
    change (Byte.to_N x00) with 0%N in *. rewrite N.add_0_r in H2.
    cbn [b64encode is_ascii forallb].
    now rewrite (b64_char_ascii H0), (b64_char_ascii H1), (b64_char_ascii H2).
  - destruct (b64_quad_values (byte_to_N_bound a) (byte_to_N_bound b)
                              (byte_to_N_bound c))
      as (H0 & H1 & H2 & H3 & _).
    cbn [b64encode is_ascii forallb]. fold (is_ascii (b64encode l)).
    now rewrite (b64_char_ascii H0), (b64_char_ascii H1), (b64_char_ascii H2),
      (b64_char_ascii H3), IH.
Qed.

Ltac bool_arith :=
  repeat (match goal with
          | |- context [N.ltb ?a ?b] => destruct (N.ltb_spec a b)
          | |- context [N.leb ?a ?b] => destruct (N.leb_spec a b)
          | |- context [N.eqb ?a ?b] => destruct (N.eqb_spec a b)
          end;
          try (exfalso; div_lia);
          cbn [andb orb negb]).

(** The strict encoder refuses exactly the code points that are not scalar
    values. *)
Lemma utf8_encode_char_scalar (c : N) :
  is_scalar c = true <-> exists enc, utf8_encode_char c = Some enc.
Proof.
  unfold is_scalar, utf8_encode_char. split.
  - bool_arith; intros Hs; try discriminate Hs; eexists; reflexivity.
  - intros [enc Hs]. revert Hs. bool_arith; intros Hs; try reflexivity;
      discriminate Hs.
Qed.

Lemma utf8_decode_one_byte errors c rest :
  (c < 128)%N ->
  utf8_decode errors (byte_of_N c :: rest)
  = result_map (cons c) (utf8_decode errors rest).
Proof.
  intros H. cbn [utf8_decode]. rewrite byte_to_of_N by lia.
  apply N.ltb_lt in H. now rewrite H.
Qed.

Lemma utf8_decode_two_bytes errors c rest :
  (128 <= c < 2048)%N ->
  utf8_decode errors
    (byte_of_N (192 + c / 64) :: byte_of_N (128 + c mod 64) :: rest)
  = result_map (cons c) (utf8_decode errors rest).
Proof.
  intros H. cbn [utf8_decode]. cbv zeta.
  rewrite !byte_to_of_N by div_lia.
  unfold is_continuation.
  bool_arith; f_equal; f_equal; div_lia.
Qed.

Lemma utf8_decode_three_bytes errors c rest :
  (2048 <= c < 65536)%N ->
  (c < 55296 \/ 57343 < c)%N ->
  utf8_decode errors
    (byte_of_N (224 + c / 4096) :: byte_of_N (128 + (c / 64) mod 64)
       :: byte_of_N (128 + c mod 64) :: rest)
  = result_map (cons c) (utf8_decode errors rest).
Proof.
  intros H Hs. cbn [utf8_decode]. cbv zeta.
  rewrite !byte_to_of_N by div_lia.
  unfold second_of_three, is_continuation.
  bool_arith; f_equal; f_equal; div_lia.
Qed.

Lemma utf8_decode_four_bytes errors c rest :
  (65536 <= c <= 1114111)%N ->
  utf8_decode errors
    (byte_of_N (240 + c / 262144) :: byte_of_N (128 + (c / 4096) mod 64)
       :: byte_of_N (128 + (c / 64) mod 64) :: byte_of_N (128 + c mod 64)
       :: rest)
  = result_map (cons c) (utf8_decode errors rest).
Proof.
  intros H. cbn [utf8_decode]. cbv zeta.
  rewrite !byte_to_of_N by div_lia.
  unfold second_of_four, is_continuation.
  bool_arith; f_equal; f_equal; div_lia.
Qed.

(** One encoded code point in front of any bytes is decoded to that code
    point, under either policy. *)
Lemma utf8_decode_encoded_char (errors : error_policy) (c : N)
      (enc rest : bytes) :
  utf8_encode_char c = Some enc ->
  utf8_decode errors (enc ++ rest)
  = result_map (cons c) (utf8_decode errors rest).
Proof.
  unfold utf8_encode_char.
  destruct (N.ltb_spec c 128) as [H1|H1];
    [|destruct (N.ltb_spec c 2048) as [H2|H2];
      [|destruct (N.leb_spec 55296 c) as [Hs1|Hs1];
        [destruct (N.leb_spec c 57343) as [Hs2|Hs2]|];
        cbn [andb];
        [discriminate| |];
        (destruct (N.ltb_spec c 65536) as [H3|H3];
         [|destruct (N.leb_spec c 1114111) as [H4|H4]; [|discriminate]])]];
    intros [= <-]; cbn [app].
  - now apply utf8_decode_one_byte.
  - apply utf8_decode_two_bytes. lia.
  - apply utf8_decode_three_bytes; lia.
  - apply utf8_decode_four_bytes. lia.
  - apply utf8_decode_three_bytes; lia.
  - apply utf8_decode_four_bytes. lia.
Qed.

(** Encoding succeeds on a text of scalar values, and decoding gives the
    text back under either policy. *)
Lemma utf8_round_trip (errors : error_policy) (s : str) :
  forallb is_scalar s = true ->
  exists encoded,
    utf8_encode s = Ok encoded /\ utf8_decode errors encoded = Ok s.
Proof.
  induction s as [|c s IH]; intros H.
  - exists []. split; reflexivity.
  - cbn [forallb] in H. apply andb_true_iff in H as [Hc Hs].
    destruct (IH Hs) as (encoded & He & Hd).
    apply utf8_encode_char_scalar in Hc as [enc Henc].
    exists (enc ++ encoded). cbn [utf8_encode]. rewrite Henc, He.
    split; [reflexivity|].
    rewrite (utf8_decode_encoded_char errors c encoded Henc), Hd.
    reflexivity.
Qed.

(** The strict encoder fails exactly on a text that holds a code point that
    is not a scalar value. *)
Lemma utf8_encode_fails_on_non_scalar (s : str) :
  forallb is_scalar s = false <->
  utf8_encode s = Raise (error UnicodeEncodeError "surrogates not allowed").
Proof.
  induction s as [|c s IH]; cbn [forallb utf8_encode].
  - split; discriminate.
  - destruct (is_scalar c) eqn:Hc; cbn [andb].
    + apply utf8_encode_char_scalar in Hc as [enc ->].
      rewrite IH. destruct (utf8_encode s); cbn [result_map];
        split; intros H; try discriminate H; exact H.
    + destruct (utf8_encode_char c) as [enc|] eqn:He; [|tauto].
      assert (is_scalar c = true) by (apply utf8_encode_char_scalar; eauto).
      congruence.
Qed.

(** Where the strict decoder succeeds, the replacing decoder gives the same
    text: the replacement policy changes nothing on content that is UTF-8. *)
Lemma utf8_decode_replace_extends_strict (bs : bytes) (s : str) :
  utf8_decode Strict bs = Ok s -> utf8_decode Replace bs = Ok s.
Proof.
  assert (H : forall n bs s, (List.length bs <= n)%nat ->
                             utf8_decode Strict bs = Ok s ->
                             utf8_decode Replace bs = Ok s).
  { clear bs s. induction n as [|n IH]; intros bs s Hlen.
    - destruct bs; [intros H; exact H|simpl in Hlen; lia].
    - destruct bs as [|b0 r0]; [intros H; exact H|].
      cbn [utf8_decode]. cbv zeta.
      repeat match goal with
             | |- context [if ?c then _ else _] => destruct c
             | |- context [match ?l with [] => _ | _ :: _ => _ end] =>
                 is_var l; destruct l
             end;
        unfold on_undecodable; intros H; try discriminate H;
        match type of H with
        | result_map _ (utf8_decode Strict ?r) = Ok _ =>
            let t := fresh "t" in
            let Ht := fresh "Ht" in
            destruct (utf8_decode Strict r) as [t|] eqn:Ht;
              [|discriminate H];
              rewrite (IH r t); [exact H|simpl in *; lia|exact Ht]
        end. }
  apply (H (List.length bs)). lia.
Qed.

Lemma utf8_encode_scalar (s : str) (encoded : bytes) :
  utf8_encode s = Ok encoded -> forallb is_scalar s = true.
Proof.
  intros H. destruct (forallb is_scalar s) eqn:E; [reflexivity|].
  apply utf8_encode_fails_on_non_scalar in E. congruence.
Qed.

(** Whatever the encoder accepted is decoded back, under either policy. *)
Lemma utf8_encode_decode (errors : error_policy) (s : str) (encoded : bytes) :
  utf8_encode s = Ok encoded -> utf8_decode errors encoded = Ok s.
Proof.
  intros H.
  destruct (utf8_round_trip errors s (utf8_encode_scalar s H))
    as (encoded' & He & Hd).
  congruence.
Qed.

Lemma b64decode_b64encode (bs : bytes) :
  b64decode (VStr (b64encode bs)) = Ok bs.
Proof.
  unfold b64decode. rewrite b64encode_is_ascii, a2b_base64_b64encode.
  reflexivity.
Qed.

(** X1: base64 round trip.  What [base64.b64encode] produces for any bytes,
    [base64.b64decode] reads back to the same bytes, and it is ASCII. *)
Theorem base64_round_trip :
  forall bs : bytes,
    b64decode (VStr (b64encode bs)) = Ok bs
    /\ is_ascii (b64encode bs) = true.
Proof.
  intros bs. split; [apply b64decode_b64encode|apply b64encode_is_ascii].
Qed.

(** X2: UTF-8 round trip.  [str.encode] succeeds exactly on the texts that
    hold no surrogate (and nothing above U+10FFFF); what it produces is
    decoded back to the text by the strict and by the replacing decoder. *)
Theorem utf8_encode_round_trip :
  forall s : str,
    (forallb is_scalar s = true ->
     exists encoded,
       utf8_encode s = Ok encoded
       /\ utf8_decode Strict encoded = Ok s
       /\ utf8_decode Replace encoded = Ok s)
    /\ (forallb is_scalar s = false ->
        utf8_encode s
        = Raise (error UnicodeEncodeError "surrogates not allowed")).
Proof.
  intros s. split.
  - intros H. destruct (utf8_round_trip Strict s H) as (encoded & He & Hd).
    exists encoded. split; [exact He|]. split; [exact Hd|].
    now apply utf8_encode_decode.
  - apply utf8_encode_fails_on_non_scalar.
Qed.

(** "a", the euro sign and an emoji: one, three and four bytes. *)
Lemma utf8_encode_round_trip_witness :
  exists encoded,
    utf8_encode [97; 8364; 127881]%N = Ok encoded
    /\ utf8_decode Strict encoded = Ok [97; 8364; 127881]%N
    /\ utf8_decode Replace encoded = Ok [97; 8364; 127881]%N.
Proof.
  apply (proj1 (@utf8_encode_round_trip [97; 8364; 127881]%N)).
  reflexivity.
Defined.

(** X3: on content that is UTF-8 the two decode sites agree.  Where the
    strict decoding of [get_remote_file_content] succeeds, the replacing
    decoding of the engine's read step gives the same text. *)
Theorem replace_policy_keeps_valid_text :
  forall (bs : bytes) (s : str),
    utf8_decode Strict bs = Ok s -> utf8_decode Replace bs = Ok s.
Proof. exact utf8_decode_replace_extends_strict. Qed.

Lemma replace_policy_keeps_valid_text_witness :
  utf8_decode Replace [x68; xc3; xa9] = Ok [104; 233]%N.
Proof.
  apply (@replace_policy_keeps_valid_text [x68; xc3; xa9] [104; 233]%N).
  reflexivity.
Defined.


(* ================================================================== *)
(** * Write, then read *)
(* ================================================================== *)

(** X4: what the engine writes, its read step reads back.  For a text that
    [commit_changes_to_remote_branch] encodes into the [content] of its
    write, a later 200 whose [content] is that string and whose [sha] is any
    tag leaves exactly that text and that tag as the baseline. *)
Theorem written_text_is_read_back :
  forall (modified_text : str) (encoded : bytes) (r : response)
         (kvs : list (str * value)) (sha : value),
    utf8_encode modified_text = Ok encoded ->
    status_code r = 200%Z ->
    json r = Some (VDict kvs) ->
    assoc str_eqb (lit "content") kvs = Some (VStr (b64encode encoded)) ->
    assoc str_eqb (lit "sha") kvs = Some sha ->
    read_baseline r = Ok (modified_text, sha).
Proof.
  intros modified_text encoded r kvs sha He Hs Hj Hc Hsha.
  unfold read_baseline, rbind, response_json, dict_get, getitem.
  rewrite Hs, Hj, Hc, Hsha, b64decode_b64encode.
  rewrite (utf8_encode_decode Replace modified_text He). reflexivity.
Qed.

Lemma written_text_is_read_back_witness :
  read_baseline (file_found (b64encode readme_bytes) (lit "abc"))
  = Ok (readme_text, VStr (lit "abc")).
Proof.
  apply (@written_text_is_read_back
           readme_text readme_bytes
           (file_found (b64encode readme_bytes) (lit "abc"))
           [(lit "content", VStr (b64encode readme_bytes));
            (lit "sha", VStr (lit "abc"))]
           (VStr (lit "abc")));
    reflexivity.
Defined.

(** X5: [get_remote_file_content] returns the text of a file.  For a path
    that is not an image and a successful response whose [content] is the
    base64 of the UTF-8 of a text, the function returns that text after its
    one GET. *)
Theorem get_remote_file_content_returns_the_text :
  forall cfg describe_image file_path owner ref repo token w r rest body
         text_of_file encoded,
    is_image_path file_path = false ->
    pending w = Responds r :: rest ->
    raise_for_status r = Ok tt ->
    json r = Some body ->
    getitem body (VStr (lit "content")) = Ok (VStr (b64encode encoded)) ->
    utf8_encode text_of_file = Ok encoded ->
    get_remote_file_content cfg describe_image file_path owner ref repo token w
    = (Ok (VStr text_of_file),
       with_pending rest
         (record (EHttp GET
                        (contents_url cfg owner repo file_path
                                      ++ lit "?ref=" ++ ref)
                        (create_headers cfg token) None)
                 w)).
Proof.
  intros cfg describe_image file_path owner ref repo token w r rest body
         text_of_file encoded Hi Hp Hs Hj Hc He.
  unfold get_remote_file_content, handle_exceptions, try_except, bind, lift,
    ret, http_request, response_json.
  cbn [pending record]. rewrite Hp, Hs, Hj, Hc, Hi, b64decode_b64encode.
  rewrite (utf8_encode_decode Strict text_of_file He). reflexivity.
Qed.

Lemma get_remote_file_content_returns_the_text_witness :
  get_remote_file_content
    sample_cfg sample_describe_image (lit "README.md") octocat (lit "main")
    hello sample_token
    (world_of [Responds (file_found (b64encode readme_bytes) (lit "abc"))])
  = (Ok (VStr readme_text),
     with_pending []
       (record (EHttp GET
                      (contents_url sample_cfg octocat hello (lit "README.md")
                                    ++ lit "?ref=" ++ lit "main")
                      (create_headers sample_cfg sample_token) None)
               (world_of [Responds (file_found (b64encode readme_bytes)
                                               (lit "abc"))]))).
Proof.
  apply (@get_remote_file_content_returns_the_text
           sample_cfg sample_describe_image (lit "README.md") octocat
           (lit "main") hello sample_token
           (world_of [Responds (file_found (b64encode readme_bytes)
                                           (lit "abc"))])
           (file_found (b64encode readme_bytes) (lit "abc")) []
           (VDict [(lit "content", VStr (b64encode readme_bytes));
                   (lit "sha", VStr (lit "abc"))])
           readme_text readme_bytes);
    reflexivity.
Defined.


(* ================================================================== *)
(** * More of the reporter and of its callers *)
(* ================================================================== *)

(** X6: the match that chooses the no-changes text is a substring test with
    the base branch fixed to [main].  For an object that exposes the
    validation fields, with the errors flat or nested, the no-changes text is
    chosen exactly when the first error's message contains "No commits
    between main and"; any other message, one about another base branch
    included, gets the generic text. *)
Theorem no_commits_match_has_main_fixed :
  forall cfg m which_function w,
    fst (classify_raised_error
           cfg (duck_typed_error (VList [message_entry m])) which_function w)
    = Ok (if Z.eqb (str_find m (lit "No commits between main and")) (-1)
          then UPDATE_COMMENT_FOR_RAISED_ERRORS_BODY cfg
          else UPDATE_COMMENT_FOR_RAISED_ERRORS_NO_CHANGES_MADE cfg)
    /\ fst (classify_raised_error
              cfg (duck_typed_error (VList [VList [message_entry m]]))
              which_function w)
       = Ok (if Z.eqb (str_find m (lit "No commits between main and")) (-1)
             then UPDATE_COMMENT_FOR_RAISED_ERRORS_BODY cfg
             else UPDATE_COMMENT_FOR_RAISED_ERRORS_NO_CHANGES_MADE cfg).
Proof.
  intros cfg m which_function w.
  destruct (Z.eqb (str_find m (lit "No commits between main and")) (-1)) eqn:E;
    split; vm_compute; vm_compute in E; rewrite E; reflexivity.
Qed.

Example no_commits_on_another_base_is_generic :
  fst (classify_raised_error
         sample_cfg
         (duck_typed_error
            (VList [message_entry
                      (lit "No commits between develop and feature-1")]))
         (lit "create_pull_request") (world_of []))
  = Ok (UPDATE_COMMENT_FOR_RAISED_ERRORS_BODY sample_cfg).
Proof. vm_compute. reflexivity. Qed.

(** X7: a status other than 422 always gets the generic text.  For an object
    of the HTTP error class whose response has a status that is not 422 and a
    text, classification logs the error twice and leaves the generic body,
    whatever else the object holds. *)
Theorem other_statuses_get_generic_body :
  forall cfg attrs items resp_http resp_attrs resp_items status txt
         which_function w,
    assoc String.eqb "response"%string attrs
    = Some (VObj resp_http resp_attrs resp_items) ->
    assoc String.eqb "status_code"%string resp_attrs = Some (VInt status) ->
    assoc String.eqb "text"%string resp_attrs = Some txt ->
    status <> 422%Z ->
    classify_raised_error cfg (VObj true attrs items) which_function w
    = (Ok (UPDATE_COMMENT_FOR_RAISED_ERRORS_BODY cfg),
       record (ELog ERROR (lit "%s HTTP Error: %s - %s")
                    [VStr which_function; VInt status; txt])
              (record (ELog ERROR (lit "%s HTTP Error: %s - %s")
                            [VStr which_function; VInt status; txt])
                      w)).
Proof.
  intros cfg attrs items resp_http resp_attrs resp_items status txt
         which_function w Hr Hs Ht Hne.
  unfold classify_raised_error, bind, lift, emit, ret,
    is_no_commits_validation, rbind, getattr.
  cbn [isinstance_HTTPError]. rewrite Hr, Hs, Ht.
  cbn [eq_int]. apply Z.eqb_neq in Hne. rewrite Hne. reflexivity.
Qed.

Lemma other_statuses_get_generic_body_witness :
  classify_raised_error
    sample_cfg (value_of_exn (http_error not_found)) (lit "create_remote_branch")
    (world_of [])
  = (Ok (UPDATE_COMMENT_FOR_RAISED_ERRORS_BODY sample_cfg),
     record (ELog ERROR (lit "%s HTTP Error: %s - %s")
                  [VStr (lit "create_remote_branch"); VInt 404;
                   VStr (text not_found)])
            (record (ELog ERROR (lit "%s HTTP Error: %s - %s")
                          [VStr (lit "create_remote_branch"); VInt 404;
                           VStr (text not_found)])
                    (world_of []))).
Proof.
  apply (@other_statuses_get_generic_body
           sample_cfg
           [("args"%string, VList [VStr (lit "HTTP Error")]);
            ("response"%string, value_of_response not_found)]
           None false
           [("status_code"%string, VInt 404);
            ("text"%string, VStr (text not_found))]
           None 404%Z (VStr (text not_found)) (lit "create_remote_branch")
           (world_of []));
    try reflexivity.
  discriminate.
Defined.

(* ------------------------------------------------------------------ *)
(** ** Creating a branch *)

Section NewBranch.

Variable cfg : Config.
Variables branch_name owner repo sha comment_url token : str.

Lemma request_new_ref_run w r w1 :
  request_new_ref cfg branch_name owner repo sha token w = (r, w1) ->
  trace w1
  = trace w ++ [new_ref_request cfg branch_name owner repo sha token].
Proof.
  destruct w as [p c d t].
  unfold request_new_ref, bind, lift, http_request.
  cbn [pending record trace].
  destruct p as [|[resp|e] rest]; intros H; step_in H.
  all: inversion H; subst; reflexivity.
Qed.

End NewBranch.

(** X8: [create_remote_branch] reports every failure.  After a successful
    POST of the reference it returns without touching the comment.  When the
    request fails, an HTTP error status included, the comment gets one
    PATCH with the generic text and the function raises [RuntimeError]; it
    never returns after a failure. *)
Theorem create_remote_branch_reports_every_failure :
  forall cfg branch_name owner repo sha comment_url token w,
    (forall r rest,
        pending w = Responds r :: rest ->
        raise_for_status r = Ok tt ->
        create_remote_branch cfg branch_name owner repo sha comment_url token w
        = (Ok tt,
           with_pending rest
             (record (new_ref_request cfg branch_name owner repo sha token) w)))
    /\ ((forall r rest,
            pending w = Responds r :: rest -> raise_for_status r <> Ok tt) ->
        exists evs w',
          create_remote_branch cfg branch_name owner repo sha comment_url
                               token w
          = (Raise (error RuntimeError "Error occurred"), w')
          /\ trace w'
             = trace w
                 ++ new_ref_request cfg branch_name owner repo sha token :: evs
          /\ requests_of PATCH evs
             = [comment_patch cfg comment_url token
                              (UPDATE_COMMENT_FOR_RAISED_ERRORS_BODY cfg)]).
Proof.
  intros cfg branch_name owner repo sha comment_url token w. split.
  - intros r rest Hp Hs.
    unfold create_remote_branch, try_except, request_new_ref, bind, lift,
      http_request.
    cbn [pending record]. rewrite Hp, Hs. reflexivity.
  - intros Hfail. unfold create_remote_branch, try_except.
    destruct (request_new_ref cfg branch_name owner repo sha token w)
      as [[[]|e] w1] eqn:Hreq.
    + exfalso. revert Hreq.
      unfold request_new_ref, bind, lift, http_request. cbn [pending record].
      destruct (pending w) as [|[r|e] rest] eqn:Hp; try discriminate.
      destruct (raise_for_status r) as [[]|e] eqn:Hs; [|discriminate].
      now elim (Hfail r rest).
    + pose proof (request_new_ref_run _ _ _ _ _ _ _ Hreq) as Ht1.
      destruct (exception_gets_generic_body
                  cfg e comment_url token (lit "create_remote_branch") w1)
        as (evs & w' & Hrun & Ht & Hr).
      unfold bind. rewrite Hrun. exists evs, w'.
      split; [reflexivity|]. split; [|exact Hr].
      rewrite Ht, Ht1. now rewrite <- app_assoc.
Qed.

(** The branch is there already: the 422 is reported and raised. *)
Lemma create_remote_branch_reports_every_failure_witness :
  exists evs w',
    create_remote_branch sample_cfg (lit "feature-1") octocat hello (lit "abc")
                         sample_comment_url sample_token
                         (world_of [Responds reference_exists])
    = (Raise (error RuntimeError "Error occurred"), w')
    /\ trace w'
       = trace (world_of [Responds reference_exists])
           ++ new_ref_request sample_cfg (lit "feature-1") octocat hello
                (lit "abc") sample_token
           :: evs
    /\ requests_of PATCH evs
       = [comment_patch sample_cfg sample_comment_url sample_token
                        (UPDATE_COMMENT_FOR_RAISED_ERRORS_BODY sample_cfg)].
Proof.
  apply (proj2 (@create_remote_branch_reports_every_failure
                  sample_cfg (lit "feature-1") octocat hello (lit "abc")
                  sample_comment_url sample_token
                  (world_of [Responds reference_exists]))).
  intros r rest H. injection H as <- <-. vm_compute. discriminate.
Defined.


(* ------------------------------------------------------------------ *)
(** ** The file tree *)

Section FileTree.

Variable cfg : Config.
Variables owner repo ref comment_url token : str.

Lemma request_tree_paths_run w r w1 :
  request_tree_paths cfg owner repo ref token w = (r, w1) ->
  trace w1 = trace w ++ [tree_request cfg owner repo ref token].
Proof.
  destruct w as [p c d t].
  unfold request_tree_paths, bind, lift, ret, http_request.
  cbn [pending record trace].
  destruct p as [|[resp|e] rest]; intros H; step_in H.
  all: inversion H; subst; reflexivity.
Qed.

End FileTree.

(** X9: how [get_remote_file_tree] fails.  An HTTP error status gives the
    empty list, silently for 409 and with one error log for any other
    status, and the comment is not touched.  Any failure that is not an HTTP
    error (no connection, a body that is not JSON, no [tree], an item without
    [path]) updates the comment with the generic text and raises
    [RuntimeError]: the function does not return an empty list then. *)
Theorem get_remote_file_tree_failures :
  forall cfg owner repo ref comment_url token w,
    (forall r rest,
        pending w = Responds r :: rest ->
        (400 <= status_code r < 600)%Z ->
        get_remote_file_tree cfg owner repo ref comment_url token w
        = (Ok (VList []),
           if Z.eqb (status_code r) 409
           then with_pending rest
                  (record (tree_request cfg owner repo ref token) w)
           else record (ELog ERROR
                             (lit "get_remote_file_tree HTTP Error: %s - %s")
                             [VInt (status_code r); VStr (text r)])
                       (with_pending rest
                          (record (tree_request cfg owner repo ref token) w))))
    /\ (forall e w1,
          request_tree_paths cfg owner repo ref token w = (Raise e, w1) ->
          is_http_error e = false ->
          exists evs w',
            get_remote_file_tree cfg owner repo ref comment_url token w
            = (Raise (error RuntimeError "Error occurred"), w')
            /\ trace w'
               = trace w ++ tree_request cfg owner repo ref token :: evs
            /\ requests_of PATCH evs
               = [comment_patch cfg comment_url token
                                (UPDATE_COMMENT_FOR_RAISED_ERRORS_BODY cfg)]).
Proof.
  intros cfg owner repo ref comment_url token w. split.
  - intros r rest Hp [Hlo Hhi].
    unfold get_remote_file_tree, try_except, request_tree_paths, bind, lift,
      emit, ret, http_request, raise_for_status.
    cbn [pending record]. rewrite Hp.
    apply Z.leb_le in Hlo. apply Z.ltb_lt in Hhi. rewrite Hlo, Hhi.
    cbn [andb is_http_error http_error exn_class exn_response].
    destruct (Z.eqb (status_code r) 409); reflexivity.
  - intros e w1 Hreq Hhttp.
    unfold get_remote_file_tree, try_except. rewrite Hreq, Hhttp.
    pose proof (request_tree_paths_run _ _ _ _ _ _ Hreq) as Ht1.
    destruct (exception_gets_generic_body
                cfg e comment_url token (lit "get_remote_file_tree") w1)
      as (evs & w' & Hrun & Ht & Hr).
    unfold bind. rewrite Hrun. exists evs, w'.
    split; [reflexivity|]. split; [|exact Hr].
    rewrite Ht, Ht1. now rewrite <- app_assoc.
Qed.

(** With no connection the comment is updated and the function raises. *)
Lemma get_remote_file_tree_failures_witness :
  exists evs w',
    get_remote_file_tree sample_cfg octocat hello (lit "main")
                         sample_comment_url sample_token (world_of [])
    = (Raise (error RuntimeError "Error occurred"), w')
    /\ trace w'
       = trace (world_of [])
           ++ tree_request sample_cfg octocat hello (lit "main") sample_token
           :: evs
    /\ requests_of PATCH evs
       = [comment_patch sample_cfg sample_comment_url sample_token
                        (UPDATE_COMMENT_FOR_RAISED_ERRORS_BODY sample_cfg)].
Proof.
  apply (proj2 (@get_remote_file_tree_failures
                  sample_cfg octocat hello (lit "main") sample_comment_url
                  sample_token (world_of []))
               (error ConnectionError "connection failed")
               (record (tree_request sample_cfg octocat hello (lit "main")
                                     sample_token)
                       (world_of []))).
  - reflexivity.
  - reflexivity.
Defined.

Example get_remote_file_tree_runs :
  fst (get_remote_file_tree sample_cfg octocat hello (lit "main")
                            sample_comment_url sample_token
                            (world_of [Responds (tree_found [lit "README.md";
                                                             lit "src/main.py"])]))
  = Ok (VList [VStr (lit "README.md"); VStr (lit "src/main.py")])
  /\ get_remote_file_tree sample_cfg octocat hello (lit "main")
                          sample_comment_url sample_token
                          (world_of [Responds empty_repository])
     = (Ok (VList []),
        with_pending []
          (record (tree_request sample_cfg octocat hello (lit "main")
                                sample_token)
                  (world_of [Responds empty_repository]))).
Proof. split; vm_compute; reflexivity. Qed.

(* ------------------------------------------------------------------ *)
(** ** The bootstrap and its commands *)



(** A directory without a name cannot be made: [os.makedirs] raises before
    any command is run and before anything is written. *)
Lemma initialize_repo_needs_a_directory cfg remote_url w :
  initialize_repo cfg [] remote_url w
  = (Raise (error (OtherError "FileNotFoundError") "No such file or directory"),
     w).
Proof. reflexivity. Qed.

(** X11: a failed bootstrap is not retried and not reported.  When the
    lookup reports the empty repository and a command of the bootstrap fails,
    [get_latest_remote_commit_sha] raises that command's exception: there is
    no second lookup and no update of the comment. *)
Theorem failed_bootstrap_is_raised :
  forall cfg recursion_limit owner repo branch comment_url unique_issue_id
         clone_url token w r rest k e failures,
    pending w = Responds r :: rest ->
    reports_empty_repository r ->
    (k < 5)%nat ->
    command_failures w = repeat None k ++ Some e :: failures ->
    exists evs w',
      get_latest_remote_commit_sha
        cfg recursion_limit owner repo branch comment_url unique_issue_id
        clone_url token w
      = (Raise e, w')
      /\ trace w' = trace w ++ evs
      /\ requests_of GET evs = [ref_lookup cfg owner repo branch token]
      /\ requests_of PATCH evs = []
      /\ commands_of evs = firstn (S k) (bootstrap_commands clone_url)
      /\ pending w' = rest.
Proof.
  intros cfg recursion_limit owner repo branch comment_url unique_issue_id
         clone_url token w r rest k e failures Hp Hr Hk Hc.
  unfold get_latest_remote_commit_sha.
  rewrite get_latest_remote_commit_sha_step.
  destruct (request_branch_sha_empty cfg owner repo branch token w Hp Hr)
    as [Hreq Hempty].
  rewrite Hreq, Hempty. cbn [is_http_error http_error exn_class].
  match goal with
  | |- context [initialize_repo cfg ?p ?u ?w0] =>
      destruct (@initialize_repo_fails cfg p u w0 k e failures)
        as (evs & w' & Hinit & Ht & Hcmd & _ & Hreqs & _ & Hp');
        [apply scratch_directory_is_named | exact Hk | exact Hc |]
  end.
  rewrite Hinit. cbn [pending record with_pending trace] in Hp', Ht.
  exists ([ref_lookup cfg owner repo branch token]
            ++ [ELog INFO
                     (lit "Repository is empty. So, creating an initial empty commit.")
                     []]
            ++ evs), w'.
  split; [reflexivity|].
  split; [rewrite Ht; now repeat rewrite <- app_assoc|].
  split; [rewrite !requests_of_app, Hreqs; reflexivity|].
  split; [rewrite !requests_of_app, Hreqs; reflexivity|].
  split; [rewrite !commands_of_app, Hcmd; reflexivity|exact Hp'].
Qed.

(** The repository is empty and the push fails. *)
Lemma failed_bootstrap_is_raised_witness :
  exists evs w',
    get_latest_remote_commit_sha
      sample_cfg sample_recursion_limit octocat hello (lit "main")
      sample_comment_url sample_issue_id sample_clone_url sample_token
      {| pending := [Responds empty_repository;
                     Responds (ref_found (lit "abc"))];
         command_failures :=
           [None; None; None; None; Some (error ValueError "Command failed")];
         directories := [];
         trace := [] |}
    = (Raise (error ValueError "Command failed"), w')
    /\ trace w' = [] ++ evs
    /\ requests_of GET evs
       = [ref_lookup sample_cfg octocat hello (lit "main") sample_token]
    /\ requests_of PATCH evs = []
    /\ commands_of evs = firstn 5 (bootstrap_commands sample_clone_url)
    /\ pending w' = [Responds (ref_found (lit "abc"))].
Proof.
  apply (@failed_bootstrap_is_raised
           sample_cfg sample_recursion_limit octocat hello (lit "main")
           sample_comment_url sample_issue_id sample_clone_url sample_token
           {| pending := [Responds empty_repository;
                          Responds (ref_found (lit "abc"))];
              command_failures :=
                [None; None; None; None;
                 Some (error ValueError "Command failed")];
              directories := [];
              trace := [] |}
           empty_repository [Responds (ref_found (lit "abc"))]
           4%nat (error ValueError "Command failed") []).
  - reflexivity.
  - exact empty_repository_reports_empty.
  - lia.
  - reflexivity.
Defined.


(* ================================================================== *)
(** * More of the content mutation engine *)
(* ================================================================== *)

Section Engine2.

Variable cfg : Config.
Variable apply_patch : str -> str -> result str.
Variables branch commit_message diff_text file_path owner repo token : str.


End Engine2.


(** X13: a failed read is never followed by a write.  When the read gets an
    error status other than 404, the function logs the HTTP error and
    returns; the trace holds the read, the printed status and the log, and
    no write. *)
Theorem failed_read_writes_nothing :
  forall cfg apply_patch branch commit_message diff_text file_path owner repo
         token w r rest,
    pending w = Responds r :: rest ->
    (400 <= status_code r < 600)%Z ->
    status_code r <> 404%Z ->
    commit_changes_to_remote_branch
      cfg apply_patch branch commit_message diff_text file_path owner repo
      token w
    = (Ok tt,
       record (ELog ERROR (lit "handle_exceptions: %s")
                    [value_of_exn (http_error r)])
              (after_read cfg owner repo file_path token r rest w)).
Proof.
  intros cfg apply_patch branch commit_message diff_text file_path owner repo
         token w r rest Hp [Hlo Hhi] H404.
  assert (H200 : Z.eqb (status_code r) 200 = false) by (apply Z.eqb_neq; lia).
  apply Z.eqb_neq in H404. apply Z.leb_le in Hlo. apply Z.ltb_lt in Hhi.
  unfold commit_changes_to_remote_branch, commit_changes_to_remote_branch_body,
    handle_exceptions, try_except, bind, lift, emit, ret, raise, http_request,
    read_baseline, rbind, raise_for_status.
  cbn [pending record]. rewrite Hp, H200, H404, Hlo, Hhi. reflexivity.
Qed.

Lemma failed_read_writes_nothing_witness :
  commit_changes_to_remote_branch
    sample_cfg append_patch (lit "feature-1") (lit "Update README.md")
    readme_diff (lit "README.md") octocat hello sample_token
    (world_of [Responds server_error; Responds file_written])
  = (Ok tt,
     record (ELog ERROR (lit "handle_exceptions: %s")
                  [value_of_exn (http_error server_error)])
            (after_read sample_cfg octocat hello (lit "README.md") sample_token
                        server_error [Responds file_written]
                        (world_of [Responds server_error;
                                   Responds file_written]))).
Proof.
  apply (@failed_read_writes_nothing
           sample_cfg append_patch (lit "feature-1") (lit "Update README.md")
           readme_diff (lit "README.md") octocat hello sample_token
           (world_of [Responds server_error; Responds file_written])
           server_error [Responds file_written]).
  - reflexivity.
  - simpl. lia.
  - discriminate.
Defined.

(** X14: a rejected write is absorbed and not retried.  When the write gets
    an error status (a version-tag conflict, for one), the function logs the
    HTTP error and returns normally: there is one PUT, no second read, and
    the replies that follow are left pending. *)
Theorem rejected_write_is_absorbed :
  forall cfg apply_patch branch commit_message diff_text file_path owner repo
         token w r r2 rest original_text sha modified_text encoded,
    pending w = Responds r :: Responds r2 :: rest ->
    read_baseline r = Ok (original_text, sha) ->
    apply_patch original_text diff_text = Ok modified_text ->
    modified_text <> [] ->
    utf8_encode modified_text = Ok encoded ->
    (400 <= status_code r2 < 600)%Z ->
    commit_changes_to_remote_branch
      cfg apply_patch branch commit_message diff_text file_path owner repo
      token w
    = (Ok tt,
       record (ELog ERROR (lit "handle_exceptions: %s")
                    [value_of_exn (http_error r2)])
              (with_pending rest
                 (record (file_write cfg owner repo file_path token
                                     (put_data commit_message
                                               (b64encode encoded) branch sha))
                         (after_read cfg owner repo file_path token r
                                     (Responds r2 :: rest) w)))).
Proof.
  intros cfg apply_patch branch commit_message diff_text file_path owner repo
         token w r r2 rest original_text sha modified_text encoded
         Hp Hr Ha Hne He [Hlo Hhi].
  destruct modified_text as [|c m]; [now elim Hne|].
  apply Z.leb_le in Hlo. apply Z.ltb_lt in Hhi.
  destruct w as [p cf d t]. cbn [pending] in Hp. subst p.
  unfold commit_changes_to_remote_branch, commit_changes_to_remote_branch_body,
    handle_exceptions, try_except, bind, lift, emit, ret, raise, http_request,
    raise_for_status.
  cbn [pending record with_pending]. rewrite Hr. cbn [fst snd].
  rewrite Ha, He. cbn [pending record with_pending]. rewrite Hlo, Hhi.
  reflexivity.
Qed.

Lemma rejected_write_is_absorbed_witness :
  commit_changes_to_remote_branch
    sample_cfg append_patch (lit "feature-1") (lit "Update notes.txt")
    notes_diff (lit "notes.txt") octocat hello sample_token
    (world_of [Responds (file_found (lit "aGk=") (lit "abc"));
               Responds conflict; Responds file_written])
  = (Ok tt,
     record (ELog ERROR (lit "handle_exceptions: %s")
                  [value_of_exn (http_error conflict)])
            (with_pending [Responds file_written]
               (record (file_write sample_cfg octocat hello (lit "notes.txt")
                                   sample_token
                                   (put_data (lit "Update notes.txt")
                                             (b64encode (bytes_of_lit "hinote"
                                                           ++ [x0a]))
                                             (lit "feature-1")
                                             (VStr (lit "abc"))))
                       (after_read sample_cfg octocat hello (lit "notes.txt")
                                   sample_token
                                   (file_found (lit "aGk=") (lit "abc"))
                                   [Responds conflict; Responds file_written]
                                   (world_of
                                      [Responds (file_found (lit "aGk=")
                                                            (lit "abc"));
                                       Responds conflict;
                                       Responds file_written]))))).
Proof.
  apply (@rejected_write_is_absorbed
           sample_cfg append_patch (lit "feature-1") (lit "Update notes.txt")
           notes_diff (lit "notes.txt") octocat hello sample_token
           (world_of [Responds (file_found (lit "aGk=") (lit "abc"));
                      Responds conflict; Responds file_written])
           (file_found (lit "aGk=") (lit "abc")) conflict
           [Responds file_written]
           (lit "hi") (VStr (lit "abc")) (lit "hinote" ++ [10%N])
           (bytes_of_lit "hinote" ++ [x0a])).
  - reflexivity.
  - reflexivity.
  - reflexivity.
  - discriminate.
  - reflexivity.
  - simpl. lia.
Defined.

(* ------------------------------------------------------------------ *)
(** ** The batch and its writes *)


Section Batch2.

Variable cfg : Config.
Variable apply_patch : str -> str -> result str.
Variable extract_file_name : str -> result str.
Variables new_branch owner repo token : str.


End Batch2.


(* ------------------------------------------------------------------ *)
(** ** Reading a file *)

(** X16: for a path that is not an image path, [get_remote_file_content]
    never raises and sends one request.  In every world it returns a value
    after its one GET; and unless that request was answered with a status
    that is no error status, the value is the empty text, the same that an
    empty file gives.  (For an image path the requests are those of the GET
    and of [describe_image].) *)
Theorem get_remote_file_content_never_raises :
  forall cfg describe_image file_path owner ref repo token w,
    is_image_path file_path = false ->
    exists v evs w',
      get_remote_file_content cfg describe_image file_path owner ref repo token
                              w
      = (Ok v, w')
      /\ trace w'
         = trace w
             ++ EHttp GET
                      (contents_url cfg owner repo file_path ++ lit "?ref="
                                    ++ ref)
                      (create_headers cfg token) None
             :: evs
      /\ (forall m, requests_of m evs = [])
      /\ (v = VStr []
          \/ exists r rest,
               pending w = Responds r :: rest /\ raise_for_status r = Ok tt).
Proof.
  intros cfg describe_image file_path owner ref repo token w Hi.
  destruct w as [p cf d t].
  unfold get_remote_file_content, handle_exceptions, try_except, bind, lift,
    emit, ret, raise, http_request.
  cbn [pending record with_pending]. rewrite Hi.
  destruct p as [|[r|e] rest]; cbn [pending record with_pending].
  2: destruct (raise_for_status r) as [[]|e1] eqn:Hs.
  2: destruct (response_json r) as [body|e2].
  2: destruct (getitem body (VStr (lit "content"))) as [content|e3].
  2: destruct (b64decode content) as [raw|e5].
  2: destruct (utf8_decode Strict raw) as [decoded|e6].
  all: do 3 eexists; split; [reflexivity|].
  all: cbn [trace record with_pending]; repeat rewrite <- app_assoc.
  all: split; [reflexivity|].
  all: split; [intros []; reflexivity|].
  all: first [left; reflexivity
             |right; do 2 eexists; split; [reflexivity|exact Hs]].
Qed.

(** A file that is not UTF-8: one GET, one log, and the empty text. *)
Lemma get_remote_file_content_never_raises_witness :
  exists v evs w',
    get_remote_file_content
      sample_cfg sample_describe_image (lit "data.bin") octocat (lit "main")
      hello sample_token (world_of [Responds undecodable_file])
    = (Ok v, w')
    /\ trace w'
       = trace (world_of [Responds undecodable_file])
           ++ EHttp GET
                    (contents_url sample_cfg octocat hello (lit "data.bin")
                       ++ lit "?ref=" ++ lit "main")
                    (create_headers sample_cfg sample_token) None
           :: evs
    /\ (forall m, requests_of m evs = [])
    /\ (v = VStr []
        \/ exists r rest,
             pending (world_of [Responds undecodable_file])
             = Responds r :: rest
             /\ raise_for_status r = Ok tt).
Proof.
  apply (@get_remote_file_content_never_raises
           sample_cfg sample_describe_image (lit "data.bin") octocat
           (lit "main") hello sample_token
           (world_of [Responds undecodable_file])).
  reflexivity.
Defined.

(** X17: an image is described, not decoded.  For a path with one of the
    image suffixes the function hands the still-encoded content to
    [describe_image], which runs in the world that the GET has left, and
    returns what that returns; the content is not decoded, so it need not be
    text. *)
Theorem image_content_is_described :
  forall cfg describe_image file_path owner ref repo token w r rest body
         content description w',
    is_image_path file_path = true ->
    pending w = Responds r :: rest ->
    raise_for_status r = Ok tt ->
    json r = Some body ->
    getitem body (VStr (lit "content")) = Ok content ->
    describe_image content
                   (with_pending rest
                      (record (EHttp GET
                                     (contents_url cfg owner repo file_path
                                                   ++ lit "?ref=" ++ ref)
                                     (create_headers cfg token) None)
                              w))
    = (Ok description, w') ->
    get_remote_file_content cfg describe_image file_path owner ref repo token w
    = (Ok description, w').
Proof.
  intros cfg describe_image file_path owner ref repo token w r rest body
         content description w' Hi Hp Hs Hj Hc Hd.
  unfold get_remote_file_content, handle_exceptions, try_except, bind, lift,
    ret, http_request, response_json.
  cbn [pending record]. rewrite Hp, Hs, Hj, Hc, Hi, Hd. reflexivity.
Qed.

Lemma image_content_is_described_witness :
  get_remote_file_content
    sample_cfg sample_describe_image (lit "docs/logo.png") octocat (lit "main")
    hello sample_token
    (world_of [Responds image_found; Responds (image_described (lit "a logo"))])
  = (Ok (VStr (lit "a logo")),
     with_pending []
       (record (EHttp POST (lit "https://api.openai.com/v1/chat/completions")
                      [] (Some (VStr (lit "iVBORw0KGgo="))))
          (with_pending [Responds (image_described (lit "a logo"))]
             (record (EHttp GET
                            (contents_url sample_cfg octocat hello
                                          (lit "docs/logo.png")
                               ++ lit "?ref=" ++ lit "main")
                            (create_headers sample_cfg sample_token) None)
                     (world_of [Responds image_found;
                                Responds (image_described (lit "a logo"))]))))).
Proof.
  apply (@image_content_is_described
           sample_cfg sample_describe_image (lit "docs/logo.png") octocat
           (lit "main") hello sample_token
           (world_of [Responds image_found;
                      Responds (image_described (lit "a logo"))])
           image_found [Responds (image_described (lit "a logo"))]
           (VDict [(lit "content", VStr (lit "iVBORw0KGgo="));
                   (lit "sha", VStr (lit "abc"))])
           (VStr (lit "iVBORw0KGgo=")) (VStr (lit "a logo")));
    reflexivity.
Defined.

(** The same content under a path that is not an image is not text: the
    strict decoding fails and the function returns the empty text. *)
Example image_under_another_suffix :
  fst (get_remote_file_content
         sample_cfg sample_describe_image (lit "docs/logo.PNG") octocat
         (lit "main") hello sample_token (world_of [Responds image_found]))
  = Ok (VStr []).
Proof. vm_compute. reflexivity. Qed.


(* ================================================================== *)
(** * Listings: comments, repositories, issues *)
(* ================================================================== *)

Lemma filter_result_pure {A} (keep : A -> result bool) (k : A -> bool)
      (xs : list A) :
  Forall (fun x => keep x = Ok (k x)) xs ->
  filter_result keep xs = Ok (filter k xs).
Proof.
  induction 1 as [|x xs Hx _ IH]; [reflexivity|].
  cbn [filter_result filter]. unfold rbind. rewrite Hx, IH.
  now destruct (k x).
Qed.

Lemma map_result_pure {A B} (f : A -> result B) (g : A -> B) (xs : list A) :
  Forall (fun x => f x = Ok (g x)) xs ->
  map_result f xs = Ok (map g xs).
Proof.
  induction 1 as [|x xs Hx _ IH]; [reflexivity|].
  cbn [map_result map]. unfold rbind. now rewrite Hx, IH.
Qed.

Lemma by_another_app_pure ids comment :
  api_comment comment ->
  by_another_app ids comment = Ok (made_by_another_app ids comment).
Proof.
  destruct comment as [| | | | |kvs|]; try contradiction.
  intros [_ Happ].
  unfold by_another_app, rbind, dict_get, getitem, made_by_another_app,
    not_in_app_ids.
  destruct (assoc str_eqb (lit "performed_via_github_app") kvs)
    as [[| | | | |app|]|]; try contradiction; try reflexivity.
  destruct app as [|entry app]; [reflexivity|].
  cbn [truthy].
  destruct (assoc str_eqb (lit "id") (entry :: app)); reflexivity.
Qed.

Lemma body_of_api_comment comment :
  api_comment comment ->
  getitem comment (VStr (lit "body")) = Ok (body_of comment).
Proof.
  destruct comment as [| | | | |kvs|]; try contradiction.
  intros [[body Hb] _]. unfold getitem, body_of. now rewrite Hb.
Qed.

(** X18: which comments [get_issue_comments] returns.  From a successful
    listing of well-formed comments it returns, in their order, the bodies
    of the comments that were made through a GitHub App other than those in
    [GITHUB_APP_IDS]; a comment with no app (a person's comment) and a
    comment of one of those apps are left out. *)
Theorem get_issue_comments_keeps_other_apps :
  forall cfg GITHUB_APP_IDS owner repo issue_number token w r rest comments,
    pending w = Responds r :: rest ->
    raise_for_status r = Ok tt ->
    json r = Some (VList comments) ->
    Forall api_comment comments ->
    get_issue_comments cfg GITHUB_APP_IDS owner repo issue_number token w
    = (Ok (VList (map body_of
                      (filter (made_by_another_app GITHUB_APP_IDS) comments))),
       record (EPrint [VStr (lit "Issue comments: ");
                       VList (filter (made_by_another_app GITHUB_APP_IDS)
                                     comments)])
              (with_pending rest
                 (record (comments_request cfg owner repo issue_number token)
                         w))).
Proof.
  intros cfg ids owner repo issue_number token w r rest comments
         Hp Hs Hj Hc.
  unfold get_issue_comments, handle_exceptions, try_except, bind, lift, emit,
    ret, http_request, response_json, iterate.
  cbn [pending record]. rewrite Hp, Hs, Hj.
  rewrite (filter_result_pure (by_another_app ids)
                              (made_by_another_app ids)).
  - rewrite (map_result_pure
               (fun comment => getitem comment (VStr (lit "body"))) body_of).
    + reflexivity.
    + apply Forall_forall. intros c Hin. apply filter_In in Hin as [Hin _].
      apply body_of_api_comment. eapply Forall_forall; eauto.
  - eapply Forall_impl; [|exact Hc]. intros c. apply by_another_app_pure.
Qed.

(** A person's comment, a comment of this app (id 844909) and a comment of
    another app: only the last one is returned. *)
Lemma get_issue_comments_keeps_other_apps_witness :
  get_issue_comments
    sample_cfg [844909%Z] octocat hello 7%Z sample_token
    (world_of
       [Responds (json_response 200
                    (VList [issue_comment (lit "please fix") VNone;
                            issue_comment (lit "working on it")
                                          (github_app 844909);
                            issue_comment (lit "build failed")
                                          (github_app 15368)]))])
  = (Ok (VList [VStr (lit "build failed")]),
     record (EPrint [VStr (lit "Issue comments: ");
                     VList [issue_comment (lit "build failed")
                                          (github_app 15368)]])
            (with_pending []
               (record (comments_request sample_cfg octocat hello 7%Z
                                         sample_token)
                       (world_of
                          [Responds (json_response 200
                                       (VList [issue_comment (lit "please fix")
                                                             VNone;
                                               issue_comment
                                                 (lit "working on it")
                                                 (github_app 844909);
                                               issue_comment
                                                 (lit "build failed")
                                                 (github_app 15368)]))])))).
Proof.
  apply (@get_issue_comments_keeps_other_apps
           sample_cfg [844909%Z] octocat hello 7%Z sample_token
           (world_of
              [Responds (json_response 200
                           (VList [issue_comment (lit "please fix") VNone;
                                   issue_comment (lit "working on it")
                                                 (github_app 844909);
                                   issue_comment (lit "build failed")
                                                 (github_app 15368)]))])
           (json_response 200
              (VList [issue_comment (lit "please fix") VNone;
                      issue_comment (lit "working on it") (github_app 844909);
                      issue_comment (lit "build failed") (github_app 15368)]))
           []
           [issue_comment (lit "please fix") VNone;
            issue_comment (lit "working on it") (github_app 844909);
            issue_comment (lit "build failed") (github_app 15368)]).
  - reflexivity.
  - reflexivity.
  - reflexivity.
  - repeat constructor; eexists; reflexivity.
Defined.

(* ------------------------------------------------------------------ *)
(** ** Installed repositories, page by page *)

Lemma page_requests_succ request first count :
  page_requests request first (S count)
  = request first :: page_requests request (first + 1)%Z count.
Proof.
  unfold page_requests. cbn [seq map]. rewrite Z.add_0_r. f_equal.
  rewrite <- seq_shift, map_map. apply map_ext. intros i. f_equal. lia.
Qed.

Section InstalledRepositories.

Variable cfg : Config.
Variable links : response -> list (str * value).
Variable token : str.

(** One turn of the loop on a page that lists repositories. *)
Lemma installed_pages_turn turns page acc w r rest items :
  pending w = Responds r :: rest ->
  lists_repositories r items ->
  installed_pages cfg links (S turns) token page acc w
  = match assoc str_eqb (lit "next") (links r) with
    | None =>
        (Ok (VList (acc ++ items)),
         record (EPrint [VStr (lit "response.links:"); VDict (links r)])
                (with_pending rest
                   (record (repositories_request cfg token page) w)))
    | Some _ =>
        installed_pages
          cfg links turns token (page + 1) (acc ++ items)
          (record (EPrint [VStr (lit "response.links:"); VDict (links r)])
                  (with_pending rest
                     (record (repositories_request cfg token page) w)))
    end.
Proof.
  intros Hp (Hs & body & repositories & Hj & Hd & Hne & Hm).
  cbn [installed_pages].
  unfold bind, lift, emit, ret, http_request, response_json, iterate.
  cbn [pending record]. rewrite Hp, Hs, Hj, Hd.
  destruct repositories as [|x xs]; [now elim Hne|].
  cbn [truthy negb]. rewrite Hm.
  destruct (assoc str_eqb (lit "next") (links r)); reflexivity.
Qed.

(** One turn on a page that lists nothing. *)
Lemma installed_pages_empty_turn turns page acc w r rest :
  pending w = Responds r :: rest ->
  lists_nothing r ->
  installed_pages cfg links (S turns) token page acc w
  = (Ok (VList acc),
     with_pending rest (record (repositories_request cfg token page) w)).
Proof.
  intros Hp (Hs & body & repositories & Hj & Hd & Hf).
  cbn [installed_pages].
  unfold bind, lift, emit, ret, http_request, response_json.
  cbn [pending record]. rewrite Hp, Hs, Hj, Hd, Hf. reflexivity.
Qed.

(** One turn whose request fails. *)
Lemma installed_pages_failed_turn turns page acc w :
  request_fails (pending w) ->
  exists e,
    installed_pages cfg links (S turns) token page acc w
    = (Raise e,
       with_pending (tl (pending w))
         (record (repositories_request cfg token page) w)).
Proof.
  destruct w as [p cf d t]. cbn [pending request_fails].
  cbn [installed_pages].
  unfold bind, lift, http_request, raise_for_status.
  cbn [pending record with_pending tl].
  destruct p as [|[r|e] rest]; cbn [request_fails tl].
  - eexists; reflexivity.
  - intros [Hlo Hhi]. apply Z.leb_le in Hlo. apply Z.ltb_lt in Hhi.
    rewrite Hlo, Hhi. eexists; reflexivity.
  - eexists; reflexivity.
Qed.

(** The loop through pages that all list repositories and all have a next
    page. *)
Lemma installed_pages_through pages :
  forall itemss turns page acc w rest,
    (List.length pages <= turns)%nat ->
    pending w = map Responds pages ++ rest ->
    Forall2 lists_repositories pages itemss ->
    Forall (fun r => assoc str_eqb (lit "next") (links r) <> None) pages ->
    exists evs w1,
      installed_pages cfg links turns token page acc w
      = installed_pages cfg links (turns - List.length pages) token
                        (page + Z.of_nat (List.length pages))
                        (acc ++ List.concat itemss) w1
      /\ pending w1 = rest
      /\ trace w1 = trace w ++ evs
      /\ requests_of GET evs
         = page_requests (repositories_request cfg token) page
                         (List.length pages).
Proof.
  induction pages as [|r pages IH];
    intros itemss turns page acc w rest Hlen Hp Hitems Hnext.
  - inversion Hitems; subst. exists [], w.
    cbn [List.length List.concat]. rewrite Nat.sub_0_r, Z.add_0_r, !app_nil_r.
    repeat split; assumption.
  - inversion Hitems as [|? items ? itemss' Hr Hrest]; subst.
    inversion Hnext as [|? ? Hn Hnext']; subst.
    destruct turns as [|turns]; [simpl in Hlen; lia|].
    cbn [map app] in Hp.
    rewrite (@installed_pages_turn turns page acc w r (map Responds pages ++ rest)
                                   items Hp Hr).
    destruct (assoc str_eqb (lit "next") (links r)) eqn:En; [|now elim Hn].
    match goal with
    | |- context [installed_pages cfg links turns token (page + 1)
                                  (acc ++ items) ?w0] =>
        destruct (IH itemss' turns (page + 1)%Z (acc ++ items) w0 rest)
          as (evs & w1 & Hrun & Hp1 & Ht1 & Hg1);
          [simpl in Hlen; lia | reflexivity | exact Hrest | exact Hnext' |]
    end.
    rewrite Hrun. cbn [trace record with_pending] in Ht1.
    eexists ([_] ++ [_] ++ evs), w1.
    split.
    { cbn [List.length List.concat Nat.sub]. f_equal; [lia|].
      now rewrite app_assoc. }
    split; [exact Hp1|].
    split; [rewrite Ht1; now repeat rewrite <- app_assoc|].
    cbn [List.length].
    rewrite page_requests_succ, !requests_of_app, Hg1. reflexivity.
Qed.

End InstalledRepositories.

(** X19: [get_installed_owners_and_repos] collects all the pages.  When the
    pages list repositories and have a next link, up to a page that has no
    next link or lists nothing, the function asks for pages 1, 2, ... in
    order, one request each, and returns the entries of all of them in that
    order. *)
Theorem installed_repositories_are_collected :
  forall cfg links token w pages itemss last last_items rest,
    pending w = map Responds pages ++ Responds last :: rest ->
    Forall2 lists_repositories pages itemss ->
    Forall (fun r => assoc str_eqb (lit "next") (links r) <> None) pages ->
    closes_listing links last last_items ->
    exists evs w',
      get_installed_owners_and_repos cfg links token w
      = (Ok (VList (List.concat itemss ++ last_items)), w')
      /\ trace w' = trace w ++ evs
      /\ requests_of GET evs
         = page_requests (repositories_request cfg token) 1
                         (S (List.length pages))
      /\ pending w' = rest.
Proof.
  intros cfg links token w pages itemss last last_items rest
         Hp Hitems Hnext Hlast.
  unfold get_installed_owners_and_repos, handle_exceptions, try_except.
  destruct (@installed_pages_through
              cfg links token pages itemss
              (S (List.length (pending w))) 1%Z [] w (Responds last :: rest))
    as (evs & w1 & Hrun & Hp1 & Ht1 & Hg1); auto.
  { rewrite Hp, length_app, length_map. lia. }
  rewrite Hrun.
  assert (Hturns : exists turns,
             (S (List.length (pending w)) - List.length pages = S turns)%nat).
  { rewrite Hp, length_app, length_map. cbn [List.length].
    exists (S (List.length rest)). lia. }
  destruct Hturns as [turns ->].
  assert (Hlastreq :
            requests_of GET evs
              ++ [repositories_request cfg token
                                       (1 + Z.of_nat (List.length pages))]
            = page_requests (repositories_request cfg token) 1
                            (S (List.length pages))).
  { rewrite Hg1. unfold page_requests. rewrite seq_S, map_app. reflexivity. }
  destruct Hlast as [[Hlast Hend]|[Hlast ->]].
  - rewrite (@installed_pages_turn cfg links token turns _ _ w1 last rest
                                   last_items Hp1 Hlast), Hend.
    eexists (evs ++ [_] ++ [_]), _. split; [reflexivity|].
    cbn [trace record with_pending pending].
    split; [rewrite Ht1; now repeat rewrite <- app_assoc|].
    split; [|reflexivity].
    rewrite !requests_of_app, <- Hlastreq. reflexivity.
  - rewrite (@installed_pages_empty_turn cfg links token turns _ _ w1 last rest
                                         Hp1 Hlast).
    eexists (evs ++ [_]), _. split; [now rewrite !app_nil_r|].
    cbn [trace record with_pending pending].
    split; [rewrite Ht1; now repeat rewrite <- app_assoc|].
    split; [|reflexivity].
    rewrite !requests_of_app, <- Hlastreq. reflexivity.
Qed.

(** Two pages: the first has a next link, the second has none. *)
Lemma installed_repositories_are_collected_witness :
  exists evs w',
    get_installed_owners_and_repos
      sample_cfg sample_links sample_token
      (world_of [Responds (repositories_page [repository 1 octocat hello]);
                 Responds (repositories_page
                             [repository 1 octocat (lit "world")])])
    = (Ok (VList
             (List.concat
                [[VDict [(lit "owner_id", VInt 1);
                         (lit "owner", VStr octocat);
                         (lit "repo", VStr hello)]]]
                ++ [VDict [(lit "owner_id", VInt 1);
                           (lit "owner", VStr octocat);
                           (lit "repo", VStr (lit "world"))]])),
       w')
    /\ trace w'
       = trace (world_of
                  [Responds (repositories_page [repository 1 octocat hello]);
                   Responds (repositories_page
                               [repository 1 octocat (lit "world")])])
           ++ evs
    /\ requests_of GET evs
       = page_requests (repositories_request sample_cfg sample_token) 1 2
    /\ pending w' = [].
Proof.
  apply (@installed_repositories_are_collected
           sample_cfg sample_links sample_token
           (world_of [Responds (repositories_page [repository 1 octocat hello]);
                      Responds (repositories_page
                                  [repository 1 octocat (lit "world")])])
           [repositories_page [repository 1 octocat hello]]
           [[VDict [(lit "owner_id", VInt 1); (lit "owner", VStr octocat);
                    (lit "repo", VStr hello)]]]
           (repositories_page [repository 1 octocat (lit "world")])
           [VDict [(lit "owner_id", VInt 1); (lit "owner", VStr octocat);
                   (lit "repo", VStr (lit "world"))]]
           []).
  - reflexivity.
  - constructor; [|constructor].
    split; [reflexivity|]. do 2 eexists.
    repeat split; try reflexivity. discriminate.
  - constructor; [|constructor]. vm_compute. discriminate.
  - left. split; [|reflexivity].
    split; [reflexivity|]. do 2 eexists.
    repeat split; try reflexivity. discriminate.
Defined.

(** X20: a failure on a later page loses the earlier pages.  When pages were
    listed and the request for the next one fails, the function returns the
    empty list, the same as for an installation without repositories: the
    entries already collected are dropped. *)
Theorem installed_repositories_are_lost_on_failure :
  forall cfg links token w pages itemss rest,
    pending w = map Responds pages ++ rest ->
    Forall2 lists_repositories pages itemss ->
    Forall (fun r => assoc str_eqb (lit "next") (links r) <> None) pages ->
    request_fails rest ->
    exists evs w',
      get_installed_owners_and_repos cfg links token w = (Ok (VList []), w')
      /\ trace w' = trace w ++ evs
      /\ requests_of GET evs
         = page_requests (repositories_request cfg token) 1
                         (S (List.length pages)).
Proof.
  intros cfg links token w pages itemss rest Hp Hitems Hnext Hfail.
  unfold get_installed_owners_and_repos, handle_exceptions, try_except.
  destruct (@installed_pages_through
              cfg links token pages itemss
              (S (List.length (pending w))) 1%Z [] w rest)
    as (evs & w1 & Hrun & Hp1 & Ht1 & Hg1); auto.
  { rewrite Hp, length_app, length_map. lia. }
  rewrite Hrun.
  assert (Hturns : exists turns,
             (S (List.length (pending w)) - List.length pages = S turns)%nat).
  { rewrite Hp, length_app, length_map. exists (List.length rest). lia. }
  destruct Hturns as [turns ->].
  rewrite <- Hp1 in Hfail.
  destruct (installed_pages_failed_turn
              cfg links token turns
              (1 + Z.of_nat (List.length pages))
              ([] ++ List.concat itemss) w1 Hfail) as [e He].
  rewrite He. unfold bind, emit, ret.
  eexists (evs ++ [_] ++ [_]), _. split; [reflexivity|].
  cbn [trace record with_pending pending].
  split; [rewrite Ht1; now repeat rewrite <- app_assoc|].
  rewrite !requests_of_app, Hg1.
  unfold page_requests. rewrite seq_S, map_app. reflexivity.
Qed.

(** One page was listed, then the connection is gone. *)
Lemma installed_repositories_are_lost_on_failure_witness :
  exists evs w',
    get_installed_owners_and_repos
      sample_cfg sample_links sample_token
      (world_of [Responds (repositories_page [repository 1 octocat hello])])
    = (Ok (VList []), w')
    /\ trace w'
       = trace (world_of
                  [Responds (repositories_page [repository 1 octocat hello])])
           ++ evs
    /\ requests_of GET evs
       = page_requests (repositories_request sample_cfg sample_token) 1 2.
Proof.
  apply (@installed_repositories_are_lost_on_failure
           sample_cfg sample_links sample_token
           (world_of [Responds (repositories_page [repository 1 octocat hello])])
           [repositories_page [repository 1 octocat hello]]
           [[VDict [(lit "owner_id", VInt 1); (lit "owner", VStr octocat);
                    (lit "repo", VStr hello)]]]
           []).
  - reflexivity.
  - constructor; [|constructor].
    split; [reflexivity|]. do 2 eexists.
    repeat split; try reflexivity. discriminate.
  - constructor; [|constructor]. vm_compute. discriminate.
  - exact I.
Defined.

(* ------------------------------------------------------------------ *)
(** ** The oldest unassigned open issue *)

Lemma no_product_label_true product_id labels :
  no_product_label product_id labels = Ok true ->
  Forall (fun label =>
            exists name,
              getitem label (VStr (lit "name")) = Ok name
              /\ eq_str name product_id = false)
         labels.
Proof.
  induction labels as [|label labels IH]; intros H; [constructor|].
  cbn [no_product_label] in H. unfold rbind in H.
  destruct (getitem label (VStr (lit "name"))) as [name|] eqn:Hn;
    [|discriminate H].
  destruct (eq_str name product_id) eqn:He; [discriminate H|].
  constructor; [now exists name|now apply IH].
Qed.

Lemma no_product_label_false product_id labels :
  no_product_label product_id labels = Ok false ->
  exists label name,
    In label labels
    /\ getitem label (VStr (lit "name")) = Ok name
    /\ eq_str name product_id = true.
Proof.
  induction labels as [|label labels IH]; intros H; [discriminate H|].
  cbn [no_product_label] in H. unfold rbind in H.
  destruct (getitem label (VStr (lit "name"))) as [name|] eqn:Hn;
    [|discriminate H].
  destruct (eq_str name product_id) eqn:He.
  - exists label, name. repeat split; [now left|assumption|assumption].
  - destruct (IH H) as (label' & name' & Hin & Hn' & He').
    exists label', name'. repeat split; [now right|assumption|assumption].
Qed.

(** X21: the issue that the loop picks is the first without the label.  When
    the scan of a page finds an issue, that issue has labels none of which
    is named [PRODUCT_ID], and every issue listed before it has a label with
    that name. *)
Theorem first_unlabelled_is_the_first :
  forall product_id issues issue,
    first_unlabelled product_id issues = Ok (Some issue) ->
    exists before after,
      issues = before ++ issue :: after
      /\ lacks_product_label product_id issue
      /\ Forall (has_product_label product_id) before.
Proof.
  intros product_id issues issue.
  induction issues as [|first rest IH]; intros H; [discriminate H|].
  cbn [first_unlabelled] in H. unfold rbind in H.
  destruct (getitem first (VStr (lit "labels"))) as [labels|] eqn:Hl;
    [|discriminate H].
  destruct (iterate labels) as [label_list|] eqn:Hi; [|discriminate H].
  destruct (no_product_label product_id label_list) as [[|]|] eqn:Hn;
    [| |discriminate H].
  - injection H as <-. exists [], rest. split; [reflexivity|].
    split; [|constructor].
    exists labels, label_list. repeat split; try assumption.
    now apply no_product_label_true.
  - destruct (IH H) as (before & after & -> & Hlacks & Hhas).
    exists (first :: before), after. split; [reflexivity|].
    split; [exact Hlacks|]. constructor; [|exact Hhas].
    destruct (no_product_label_false _ _ Hn) as (label & name & Hin & Hname & He).
    exists labels, label_list, label, name. repeat split; assumption.
Qed.

Lemma first_unlabelled_is_the_first_witness :
  exists before after,
    [labelled_issue 1 [lit "bug"; lit "gitauto"];
     labelled_issue 2 [lit "bug"];
     labelled_issue 3 []]
    = before ++ labelled_issue 2 [lit "bug"] :: after
    /\ lacks_product_label (lit "gitauto") (labelled_issue 2 [lit "bug"])
    /\ Forall (has_product_label (lit "gitauto")) before.
Proof.
  apply (@first_unlabelled_is_the_first
           (lit "gitauto")
           [labelled_issue 1 [lit "bug"; lit "gitauto"];
            labelled_issue 2 [lit "bug"];
            labelled_issue 3 []]
           (labelled_issue 2 [lit "bug"])).
  reflexivity.
Defined.

Section OpenIssues.

Variable cfg : Config.
Variable PRODUCT_ID : str.
Variables owner repo token : str.

(** One turn of the loop on a page whose issues all have the label. *)
Lemma open_issue_pages_labelled_turn turns page w r rest :
  pending w = Responds r :: rest ->
  all_labelled PRODUCT_ID r ->
  open_issue_pages cfg PRODUCT_ID (S turns) owner repo token page w
  = open_issue_pages
      cfg PRODUCT_ID turns owner repo token (page + 1)
      (with_pending rest
         (record (open_issues_request cfg owner repo token page) w)).
Proof.
  intros Hp (Hs & issues & Hj & Hne & Hf).
  cbn [open_issue_pages].
  unfold bind, lift, emit, ret, http_request, response_json, iterate.
  cbn [pending record]. rewrite Hp, Hs, Hj.
  destruct issues as [|x xs]; [now elim Hne|].
  cbn [truthy negb]. rewrite Hf. reflexivity.
Qed.

(** One turn on a page that offers an issue. *)
Lemma open_issue_pages_offer_turn turns page w r rest issue :
  pending w = Responds r :: rest ->
  offers PRODUCT_ID r issue ->
  open_issue_pages cfg PRODUCT_ID (S turns) owner repo token page w
  = (Ok issue,
     with_pending rest
       (record (open_issues_request cfg owner repo token page) w)).
Proof.
  intros Hp (Hs & issues & Hj & Hf).
  cbn [open_issue_pages].
  unfold bind, lift, emit, ret, http_request, response_json, iterate.
  cbn [pending record]. rewrite Hp, Hs, Hj.
  destruct issues as [|x xs]; [discriminate Hf|].
  cbn [truthy negb]. rewrite Hf. reflexivity.
Qed.

(** One turn on a page with no issue. *)
Lemma open_issue_pages_empty_turn turns page w r rest :
  pending w = Responds r :: rest ->
  no_issues r ->
  open_issue_pages cfg PRODUCT_ID (S turns) owner repo token page w
  = (Ok VNone,
     with_pending rest
       (record (open_issues_request cfg owner repo token page) w)).
Proof.
  intros Hp (Hs & issues & Hj & Hf).
  cbn [open_issue_pages].
  unfold bind, lift, emit, ret, http_request, response_json.
  cbn [pending record]. rewrite Hp, Hs, Hj, Hf. reflexivity.
Qed.

(** One turn whose request fails. *)
Lemma open_issue_pages_failed_turn turns page w :
  request_fails (pending w) ->
  exists e,
    open_issue_pages cfg PRODUCT_ID (S turns) owner repo token page w
    = (Raise e,
       with_pending (tl (pending w))
         (record (open_issues_request cfg owner repo token page) w)).
Proof.
  destruct w as [p cf d t]. cbn [pending request_fails].
  cbn [open_issue_pages].
  unfold bind, lift, http_request, raise_for_status.
  cbn [pending record with_pending tl].
  destruct p as [|[r|e] rest]; cbn [request_fails tl].
  - eexists; reflexivity.
  - intros [Hlo Hhi]. apply Z.leb_le in Hlo. apply Z.ltb_lt in Hhi.
    rewrite Hlo, Hhi. eexists; reflexivity.
  - eexists; reflexivity.
Qed.

(** The loop through pages whose issues all have the label. *)
Lemma open_issue_pages_through pages :
  forall turns page w rest,
    (List.length pages <= turns)%nat ->
    pending w = map Responds pages ++ rest ->
    Forall (all_labelled PRODUCT_ID) pages ->
    exists evs w1,
      open_issue_pages cfg PRODUCT_ID turns owner repo token page w
      = open_issue_pages cfg PRODUCT_ID (turns - List.length pages) owner
                         repo token (page + Z.of_nat (List.length pages)) w1
      /\ pending w1 = rest
      /\ trace w1 = trace w ++ evs
      /\ evs
         = page_requests (open_issues_request cfg owner repo token) page
                         (List.length pages).
Proof.
  induction pages as [|r pages IH]; intros turns page w rest Hlen Hp Hall.
  - exists [], w. cbn [List.length].
    rewrite Nat.sub_0_r, Z.add_0_r, app_nil_r. repeat split; assumption.
  - inversion Hall as [|? ? Hr Hall']; subst.
    destruct turns as [|turns]; [simpl in Hlen; lia|].
    cbn [map app] in Hp.
    rewrite (@open_issue_pages_labelled_turn turns page w r
               (map Responds pages ++ rest) Hp Hr).
    match goal with
    | |- context [open_issue_pages cfg PRODUCT_ID turns owner repo token
                                   (page + 1) ?w0] =>
        destruct (IH turns (page + 1)%Z w0 rest)
          as (evs & w1 & Hrun & Hp1 & Ht1 & Hg1);
          [simpl in Hlen; lia | reflexivity | exact Hall' |]
    end.
    rewrite Hrun. cbn [trace record with_pending] in Ht1.
    eexists ([_] ++ evs), w1.
    split; [cbn [List.length Nat.sub]; f_equal; lia|].
    split; [exact Hp1|].
    split; [rewrite Ht1; now repeat rewrite <- app_assoc|].
    cbn [List.length]. rewrite page_requests_succ, Hg1. reflexivity.
Qed.

End OpenIssues.

(** X22: [get_oldest_unassigned_open_issue] goes on to the next page while
    every issue has the label.  When the first pages hold only issues with a
    label named [PRODUCT_ID] and the next page offers an issue without it,
    the function returns that issue; it has asked for pages 1, 2, ... in
    order, one request each, and sent nothing else. *)
Theorem open_issue_is_found_across_pages :
  forall cfg product_id owner repo token w pages last issue rest,
    pending w = map Responds pages ++ Responds last :: rest ->
    Forall (all_labelled product_id) pages ->
    offers product_id last issue ->
    exists w',
      get_oldest_unassigned_open_issue cfg product_id owner repo token w
      = (Ok issue, w')
      /\ trace w'
         = trace w
             ++ page_requests (open_issues_request cfg owner repo token) 1
                              (S (List.length pages))
      /\ pending w' = rest.
Proof.
  intros cfg product_id owner repo token w pages last issue rest Hp Hall Hlast.
  unfold get_oldest_unassigned_open_issue, handle_exceptions, try_except.
  destruct (@open_issue_pages_through
              cfg product_id owner repo token pages
              (S (List.length (pending w))) 1%Z w (Responds last :: rest))
    as (evs & w1 & Hrun & Hp1 & Ht1 & Hg1); auto.
  { rewrite Hp, length_app, length_map. lia. }
  rewrite Hrun.
  assert (Hturns : exists turns,
             (S (List.length (pending w)) - List.length pages = S turns)%nat).
  { rewrite Hp, length_app, length_map. cbn [List.length].
    exists (S (List.length rest)). lia. }
  destruct Hturns as [turns ->].
  rewrite (@open_issue_pages_offer_turn cfg product_id owner repo token turns
                                        _ w1 last rest issue Hp1 Hlast).
  eexists. split; [reflexivity|].
  cbn [trace record with_pending pending].
  split; [|reflexivity].
  rewrite Ht1, Hg1, <- app_assoc. f_equal.
  unfold page_requests. rewrite seq_S, map_app. reflexivity.
Qed.

(** The first page holds one labelled issue, the second offers issue 2. *)
Lemma open_issue_is_found_across_pages_witness :
  exists w',
    get_oldest_unassigned_open_issue
      sample_cfg (lit "gitauto") octocat hello sample_token
      (world_of
         [Responds (json_response 200
                      (VList [labelled_issue 1 [lit "gitauto"]]));
          Responds (json_response 200
                      (VList [labelled_issue 2 [lit "bug"];
                              labelled_issue 3 []]))])
    = (Ok (labelled_issue 2 [lit "bug"]), w')
    /\ trace w'
       = trace (world_of
                  [Responds (json_response 200
                               (VList [labelled_issue 1 [lit "gitauto"]]));
                   Responds (json_response 200
                               (VList [labelled_issue 2 [lit "bug"];
                                       labelled_issue 3 []]))])
           ++ page_requests
                (open_issues_request sample_cfg octocat hello sample_token) 1 2
    /\ pending w' = [].
Proof.
  apply (@open_issue_is_found_across_pages
           sample_cfg (lit "gitauto") octocat hello sample_token
           (world_of
              [Responds (json_response 200
                           (VList [labelled_issue 1 [lit "gitauto"]]));
               Responds (json_response 200
                           (VList [labelled_issue 2 [lit "bug"];
                                   labelled_issue 3 []]))])
           [json_response 200 (VList [labelled_issue 1 [lit "gitauto"]])]
           (json_response 200
              (VList [labelled_issue 2 [lit "bug"]; labelled_issue 3 []]))
           (labelled_issue 2 [lit "bug"]) []).
  - reflexivity.
  - constructor; [|constructor].
    split; [reflexivity|]. eexists.
    repeat split; try reflexivity. discriminate.
  - split; [reflexivity|]. eexists. split; reflexivity.
Defined.

(** X23: "no issue" and "request failed" look the same.  After pages whose
    issues all have the label, the function returns [None] when the next
    page holds no issue, and also when the request for it fails. *)
Theorem no_open_issue_and_failure_both_give_none :
  forall cfg product_id owner repo token w pages rest,
    pending w = map Responds pages ++ rest ->
    Forall (all_labelled product_id) pages ->
    (exists last rest', rest = Responds last :: rest' /\ no_issues last)
    \/ request_fails rest ->
    exists evs w',
      get_oldest_unassigned_open_issue cfg product_id owner repo token w
      = (Ok VNone, w')
      /\ trace w' = trace w ++ evs
      /\ requests_of GET evs
         = page_requests (open_issues_request cfg owner repo token) 1
                         (S (List.length pages)).
Proof.
  intros cfg product_id owner repo token w pages rest Hp Hall Hend.
  unfold get_oldest_unassigned_open_issue, handle_exceptions, try_except.
  destruct (@open_issue_pages_through
              cfg product_id owner repo token pages
              (S (List.length (pending w))) 1%Z w rest)
    as (evs & w1 & Hrun & Hp1 & Ht1 & Hg1); auto.
  { rewrite Hp, length_app, length_map. lia. }
  rewrite Hrun.
  assert (Hturns : exists turns,
             (S (List.length (pending w)) - List.length pages = S turns)%nat).
  { rewrite Hp, length_app, length_map. exists (List.length rest). lia. }
  destruct Hturns as [turns ->].
  assert (Hreqs :
            requests_of GET
              (evs ++ [open_issues_request
                         cfg owner repo token
                         (1 + Z.of_nat (List.length pages))])
            = page_requests (open_issues_request cfg owner repo token) 1
                            (S (List.length pages))).
  { rewrite Hg1. unfold page_requests. rewrite seq_S, map_app.
    rewrite requests_of_app. f_equal.
    clear. generalize (seq 0 (List.length pages)).
    induction l as [|i l IH]; [reflexivity|].
    cbn [map requests_of filter is_request open_issues_request].
    f_equal. exact IH. }
  destruct Hend as [(last & rest' & -> & Hlast)|Hfail].
  - rewrite (@open_issue_pages_empty_turn cfg product_id owner repo token turns
                                          _ w1 last rest' Hp1 Hlast).
    eexists (evs ++ [_]), _. split; [reflexivity|].
    cbn [trace record with_pending pending].
    split; [rewrite Ht1; now repeat rewrite <- app_assoc|exact Hreqs].
  - rewrite <- Hp1 in Hfail.
    destruct (open_issue_pages_failed_turn
                cfg product_id owner repo token turns
                (1 + Z.of_nat (List.length pages)) w1 Hfail) as [e He].
    rewrite He. unfold bind, emit, ret.
    eexists ((evs ++ [_]) ++ [_]), _. split; [reflexivity|].
    cbn [trace record with_pending pending].
    split; [rewrite Ht1; now repeat rewrite <- app_assoc|].
    rewrite requests_of_app, Hreqs. cbn. now rewrite app_nil_r.
Qed.

(** Every issue of the only page has the label, then nothing answers. *)
Lemma no_open_issue_and_failure_both_give_none_witness :
  exists evs w',
    get_oldest_unassigned_open_issue
      sample_cfg (lit "gitauto") octocat hello sample_token
      (world_of
         [Responds (json_response 200
                      (VList [labelled_issue 1 [lit "gitauto"]]))])
    = (Ok VNone, w')
    /\ trace w'
       = trace (world_of
                  [Responds (json_response 200
                               (VList [labelled_issue 1 [lit "gitauto"]]))])
           ++ evs
    /\ requests_of GET evs
       = page_requests
           (open_issues_request sample_cfg octocat hello sample_token) 1 2.
Proof.
  apply (@no_open_issue_and_failure_both_give_none
           sample_cfg (lit "gitauto") octocat hello sample_token
           (world_of
              [Responds (json_response 200
                           (VList [labelled_issue 1 [lit "gitauto"]]))])
           [json_response 200 (VList [labelled_issue 1 [lit "gitauto"]])]
           []).
  - reflexivity.
  - constructor; [|constructor].
    split; [reflexivity|]. eexists.
    repeat split; try reflexivity. discriminate.
  - right. exact I.
Defined.


(* ------------------------------------------------------------------ *)
(** ** Labels, reactions and pull requests *)

(** X24: a failed label request is raised, a failed reaction request is not.
    When the request fails (no answer, a transport error, or an error
    status), [add_label_to_issue] raises after its one POST, while
    [add_reaction_to_issue] in the same world returns normally after its
    one POST. *)
Theorem label_failure_raises_reaction_failure_does_not :
  forall cfg owner repo issue_number label content token w,
    request_fails (pending w) ->
    (exists e logs w',
        add_label_to_issue cfg owner repo issue_number label token w
        = (Raise e, w')
        /\ trace w'
           = trace w
               ++ EHttp POST
                        (issue_url cfg owner repo issue_number (lit "/labels"))
                        (create_headers cfg token)
                        (Some (VDict [(lit "labels", VList [VStr label])]))
               :: logs
        /\ (forall m, requests_of m logs = []))
    /\ (exists logs w',
           add_reaction_to_issue cfg owner repo issue_number content token w
           = (Ok tt, w')
           /\ trace w'
              = trace w
                  ++ EHttp POST
                           (issue_url cfg owner repo issue_number
                                      (lit "/reactions"))
                           (create_headers cfg token)
                           (Some (VDict [(lit "content", VStr content)]))
                  :: logs
           /\ (forall m, requests_of m logs = [])).
Proof.
  intros cfg owner repo issue_number label content token w Hfail.
  destruct w as [p cf d t]. cbn [pending] in Hfail.
  unfold add_label_to_issue, add_reaction_to_issue, handle_exceptions,
    try_except, bind, lift, emit, ret, raise, http_request, raise_for_status.
  cbn [pending record with_pending].
  destruct p as [|[r|e] rest]; cbn [request_fails] in Hfail;
    cbn [pending record with_pending].
  2: destruct Hfail as [Hlo Hhi];
     apply Z.leb_le in Hlo; apply Z.ltb_lt in Hhi; rewrite Hlo, Hhi;
     cbn [andb].
  all: split; [do 3 eexists|do 2 eexists]; (split; [reflexivity|]).
  all: cbn [trace record with_pending]; repeat rewrite <- app_assoc.
  all: split; [reflexivity|intros []; reflexivity].
Qed.

Lemma label_failure_raises_reaction_failure_does_not_witness :
  (exists e logs w',
      add_label_to_issue sample_cfg octocat hello 7 (lit "gitauto")
                         sample_token (world_of [Responds server_error])
      = (Raise e, w')
      /\ trace w'
         = trace (world_of [Responds server_error])
             ++ EHttp POST
                      (issue_url sample_cfg octocat hello 7 (lit "/labels"))
                      (create_headers sample_cfg sample_token)
                      (Some (VDict [(lit "labels",
                                     VList [VStr (lit "gitauto")])]))
             :: logs
      /\ (forall m, requests_of m logs = []))
  /\ (exists logs w',
         add_reaction_to_issue sample_cfg octocat hello 7 (lit "eyes")
                               sample_token (world_of [Responds server_error])
         = (Ok tt, w')
         /\ trace w'
            = trace (world_of [Responds server_error])
                ++ EHttp POST
                         (issue_url sample_cfg octocat hello 7
                                    (lit "/reactions"))
                         (create_headers sample_cfg sample_token)
                         (Some (VDict [(lit "content", VStr (lit "eyes"))]))
                :: logs
         /\ (forall m, requests_of m logs = [])).
Proof.
  apply (@label_failure_raises_reaction_failure_does_not
           sample_cfg octocat hello 7%Z (lit "gitauto") (lit "eyes")
           sample_token (world_of [Responds server_error])).
  simpl. lia.
Defined.

(** X25: [create_pull_request] posts once and never raises.  In every world
    it sends one POST to the pulls URL with title, body, head and base, and
    no other request; it returns either [None] or the [html_url] of the
    body of a successful answer. *)
Theorem create_pull_request_posts_once :
  forall cfg base body head owner repo title token w,
  exists v logs w',
    create_pull_request cfg base body head owner repo title token w
    = (Ok v, w')
    /\ trace w'
       = trace w
           ++ EHttp POST (pulls_url cfg owner repo) (create_headers cfg token)
                    (Some (VDict [(lit "title", VStr title);
                                  (lit "body", VStr body);
                                  (lit "head", VStr head);
                                  (lit "base", VStr base)]))
           :: logs
    /\ (forall m, requests_of m logs = [])
    /\ (v = VNone
        \/ exists r rest created,
             pending w = Responds r :: rest
             /\ raise_for_status r = Ok tt
             /\ json r = Some created
             /\ getitem created (VStr (lit "html_url")) = Ok v).
Proof.
  intros cfg base body head owner repo title token w.
  destruct w as [p cf d t].
  unfold create_pull_request, handle_exceptions, try_except, bind, lift, emit,
    ret, raise, http_request, response_json.
  cbn [pending record with_pending].
  destruct p as [|[r|e] rest]; cbn [pending record with_pending].
  2: destruct (raise_for_status r) as [[]|e1] eqn:Hs.
  2: destruct (json r) as [created|] eqn:Hj.
  2: destruct (getitem created (VStr (lit "html_url"))) as [v|e3] eqn:Hg.
  all: do 3 eexists; split; [reflexivity|].
  all: cbn [trace record with_pending]; repeat rewrite <- app_assoc.
  all: split; [reflexivity|].
  all: split; [intros []; reflexivity|].
  all: first [left; reflexivity
             |right; do 3 eexists; repeat split; eassumption].
Qed.
